(** * download_wallpaper.py: the image-fitting transform of [process_image]

    A shallow embedding of [process_image] (and of the part of [main] that
    consumes its result) from [src/download_wallpaper.py].

    - Python [int] is [Z]; Python [float] is IEEE 754 binary64, modelled
      bit-exactly by the Standard Library's [spec_float] (mantissa and
      exponent as integers, round to nearest even).
    - An exception raised inside the [try] block is a [Raise] in the
      [result] monad; [process_image] turns it into [(None, None)].
    - The Pillow calls ([Image.open], [convert], [paste], [resize], [crop],
      [save]) are modelled by their geometric contract and by the sizes
      they refuse (a size that is no C [int], a crop above the
      decompression-bomb limit, a JPEG side above 65500, an image for
      which there is no memory); what they do to pixel values is left to
      the operations of the [Pillow] class.
    - The file system and the external wallpaper tool are an explicit
      [world] threaded through [process_image] and [main]; paths are
      joined and normalised as [pathlib] does for POSIX paths.
    - [apply_wallpaper], [load_local_image] and the download loop of
      [download_wallpaper_from_reddit] are embedded as well; the requests
      of the latter go through a [network] of oracles. *)

From Stdlib Require Import ZArith Lia Bool List String Ascii.
From Stdlib Require Import Strings.Byte.
From Stdlib Require Import SpecFloat.
Import ListNotations.

Local Open Scope Z_scope.

(** ** Exceptions and the error monad *)

Inductive exn : Type :=
| ZeroDivisionError
| OverflowError
| ValueError
| UnidentifiedImageError
| OSError
| MemoryError
| DecompressionBombError.

Inductive result (A : Type) : Type :=
| Ok (a : A)
| Raise (e : exn).

Arguments Ok {A} a.
Arguments Raise {A} e.

Definition bind {A B : Type} (r : result A) (k : A -> result B) : result B :=
  match r with
  | Ok a => k a
  | Raise e => Raise e
  end.

Notation "x <- r ;; k" := (bind r (fun x => k))
  (at level 61, r at next level, right associativity).
Notation "' p <- r ;; k" := (bind r (fun p => k))
  (at level 61, p pattern, r at next level, right associativity).

Definition is_ok {A : Type} (r : result A) : bool :=
  match r with Ok _ => true | Raise _ => false end.

(** ** Python numbers *)

Module Py.

(** binary64 *)
Definition prec : Z := 53.
Definition emax : Z := 1024.

Definition float : Type := spec_float.

(** The literal [1.0]. *)
Definition one : float := S754_finite false 4503599627370496 (-52).

Definition is_infinity (f : float) : bool :=
  match f with S754_infinity _ => true | _ => false end.

(** The integer [z] as the pair mantissa, exponent [(|z|, 0)]: exact, and in
    general not a canonical binary64 number. *)
Definition exact_int (z : Z) : float :=
  match z with
  | Z0 => S754_zero false
  | Zpos p => S754_finite false p 0
  | Zneg p => S754_finite true p 0
  end.

(** [float(z)], as in [PyLong_AsDouble]: correctly rounded, ties to even;
    an integer beyond the largest finite double raises [OverflowError]. *)
Definition float_of_int (z : Z) : result float :=
  let f := binary_normalize prec emax z 0 false in
  if is_infinity f then Raise OverflowError else Ok f.

(** [a / b] on two [int]s ([long_true_divide]): the correctly rounded
    quotient of the two integers; [ZeroDivisionError] for [b = 0],
    [OverflowError] when the quotient is too large for a double. *)
Definition int_truediv (a b : Z) : result float :=
  if b =? 0 then Raise ZeroDivisionError
  else if a =? 0 then Ok (S754_zero (b <? 0))
  else
    let q := SFdiv prec emax (exact_int a) (exact_int b) in
    if is_infinity q then Raise OverflowError else Ok q.

(** [max(x, y)] on two floats: [y] if [y > x], else [x]. *)
Definition max_float (x y : float) : float :=
  if SFltb x y then y else x.

(** [x != y] on floats. *)
Definition float_ne (x y : float) : bool := negb (SFeqb x y).

(** [i * f] for an [int] and a [float]: the [int] is converted first. *)
Definition int_mul_float (i : Z) (f : float) : result float :=
  fi <- float_of_int i ;;
  Ok (SFmul prec emax fi f).

(** [int(f)]: truncation towards zero; [ValueError] on NaN and
    [OverflowError] on an infinity. *)
Definition int_of_float (f : float) : result Z :=
  match f with
  | S754_zero _ => Ok 0
  | S754_nan => Raise ValueError
  | S754_infinity _ => Raise OverflowError
  | S754_finite s m e =>
      let a := Z.shiftl (Zpos m) e in
      Ok (if s then - a else a)
  end.

End Py.


(** ** Pillow images *)

Module PIL.

Inductive color_mode : Type :=
| RGB | RGBA | LA | P | L | CMYK | Bilevel.

Definition mode_eqb (a b : color_mode) : bool :=
  match a, b with
  | RGB, RGB | RGBA, RGBA | LA, LA | P, P | L, L | CMYK, CMYK
  | Bilevel, Bilevel => true
  | _, _ => false
  end.

Definition bands (m : color_mode) : nat :=
  match m with
  | RGB => 3 | RGBA => 4 | LA => 2 | P => 1 | L => 1 | CMYK => 4
  | Bilevel => 1
  end%nat.

(** A pixel is the list of its band values. *)
Definition pixel : Type := list Z.

Definition zero_pixel (m : color_mode) : pixel := repeat 0 (bands m).

(** In an [RGB] image the zero pixel is black. *)
Definition black : pixel := [0; 0; 0].
Definition white : pixel := [255; 255; 255].

Record image : Type := {
  mode : color_mode;
  width : Z;
  height : Z;
  getpixel : Z -> Z -> pixel
}.

Definition size (im : image) : Z * Z := (width im, height im).

Definition inside (im : image) (x y : Z) : bool :=
  (0 <=? x) && (x <? width im) && (0 <=? y) && (y <? height im).

(** What Pillow does to pixel values: decoding, mode conversion, alpha
    blending, Lanczos resampling and JPEG encoding; and [allocates w h],
    whether the machine has the memory for one more image of [w] by [h]
    pixels. The geometry of each call is fixed below; these are the parts
    that are not. *)
Class Pillow : Type := {
  decode : list byte -> result image;
  convert_pixel : image -> color_mode -> Z -> Z -> pixel;
  blend : pixel -> pixel -> Z -> pixel;
  lanczos : image -> Z -> Z -> Z -> Z -> pixel;
  jpeg_encode : image -> Z -> list byte;
  allocates : Z -> Z -> bool
}.

(** The largest C [int]; the C core takes sizes and coordinates as [int]s. *)
Definition INT_MAX : Z := 2147483647.

Definition c_int (z : Z) : bool := (- INT_MAX - 1 <=? z) && (z <=? INT_MAX).

(** [Image.MAX_IMAGE_PIXELS], which is [int(1024 * 1024 * 1024 // 4 // 3)]. *)
Definition MAX_IMAGE_PIXELS : Z := 89478485.

(** [_decompression_bomb_check(size)] raises above twice the limit (it
    only warns between the limit and twice the limit). *)
Definition decompression_bomb (w h : Z) : bool :=
  2 * MAX_IMAGE_PIXELS <? Z.max 1 w * Z.max 1 h.

Section Calls.
Context `{Pillow}.

(** Whether a new image of [w] by [h] pixels is created: memory for an
    image of at most [MAX_IMAGE_PIXELS] pixels, the size Pillow takes
    without a warning, is taken to be there; for a larger one the machine
    decides. *)
Definition fits (w h : Z) : bool :=
  (w * h <=? MAX_IMAGE_PIXELS) || allocates w h.

(** [Image.open(BytesIO(data))] *)
Definition open (data : list byte) : result image := decode data.

(** [Image.new(mode, size, color)] *)
Definition new (m : color_mode) (sz : Z * Z) (color : pixel) : image :=
  {| mode := m; width := fst sz; height := snd sz;
     getpixel := fun _ _ => color |}.

(** [im.convert(mode)] *)
Definition convert (im : image) (m : color_mode) : image :=
  {| mode := m; width := width im; height := height im;
     getpixel := convert_pixel im m |}.

(** [dst.paste(src)]: [src] goes to the top left corner, converted to the
    mode of [dst]. *)
Definition paste (dst src : image) : image :=
  {| mode := mode dst; width := width dst; height := height dst;
     getpixel := fun x y =>
       if inside src x y then convert_pixel src (mode dst) x y
       else getpixel dst x y |}.

(** [im.split()[-1]]: the last band. *)
Definition last_band (im : image) (x y : Z) : Z := last (getpixel im x y) 0.

(** [dst.paste(src, mask=src.split()[-1])] *)
Definition paste_masked (dst src : image) : image :=
  {| mode := mode dst; width := width dst; height := height dst;
     getpixel := fun x y =>
       if inside src x y
       then blend (getpixel dst x y) (convert_pixel src (mode dst) x y)
                  (last_band src x y)
       else getpixel dst x y |}.

(** [im.resize((w, h), Image.Resampling.LANCZOS)]: Pillow returns a copy
    when the size does not change, without resampling. Otherwise the size
    goes to the C core, which takes two C [int]s ([OverflowError]),
    refuses a size below one pixel ([ValueError: height and width must be
    > 0]) and needs memory for the new image ([MemoryError]). *)
Definition resize (im : image) (sz : Z * Z) : result image :=
  let '(w, h) := sz in
  if (w =? width im) && (h =? height im) then Ok im
  else if negb (c_int w && c_int h) then Raise OverflowError
  else if (w <? 1) || (h <? 1) then Raise ValueError
  else if negb (fits w h) then Raise MemoryError
  else Ok {| mode := mode im; width := w; height := h;
             getpixel := lanczos im w h |}.

(** [im.crop((x0, y0, x1, y1))], the box given as left, upper, right,
    lower: the result has size [(x1 - x0, y1 - y0)] whatever the size of
    [im]; the part of the box outside [im] is filled with zero. Pillow
    raises [ValueError] when [x1 < x0] or [y1 < y0], then runs the
    decompression-bomb check on the size of the box
    ([DecompressionBombError]); the C core takes the four coordinates as C
    [int]s and needs memory for the new image. *)
Definition crop (im : image) (box : Z * Z * Z * Z) : result image :=
  let '(x0, y0, x1, y1) := box in
  if x1 <? x0 then Raise ValueError
  else if y1 <? y0 then Raise ValueError
  else if decompression_bomb (x1 - x0) (y1 - y0)
  then Raise DecompressionBombError
  else if negb (c_int x0 && c_int y0 && c_int x1 && c_int y1)
  then Raise OverflowError
  else if negb (fits (x1 - x0) (y1 - y0)) then Raise MemoryError
  else Ok {| mode := mode im; width := x1 - x0; height := y1 - y0;
             getpixel := fun x y =>
               if inside im (x + x0) (y + y0)
               then getpixel im (x + x0) (y + y0)
               else zero_pixel (mode im) |}.

End Calls.
End PIL.

(** ** The world outside the process: files and the wallpaper tool *)

Record world : Type := {
  script_dir : string;                      (* [Path(__file__).parent] *)
  files : string -> option (list byte);     (* content of each existing file *)
  writable : string -> bool;                (* the OS lets this path be created *)
  runs : list (list string);                (* commands run so far, latest first *)
  run_rc : list string -> option Z          (* exit status of a command; [None]:
                                               it times out or cannot start *)
}.

Definition io (A : Type) : Type := world -> result A * world.

Definition io_ret {A : Type} (a : A) : io A := fun w => (Ok a, w).

Definition io_lift {A : Type} (r : result A) : io A := fun w => (r, w).

Definition io_bind {A B : Type} (m : io A) (k : A -> io B) : io B :=
  fun w =>
    match m w with
    | (Ok a, w') => k a w'
    | (Raise e, w') => (Raise e, w')
    end.

Notation "x <~ m ;; k" := (io_bind m (fun x => k))
  (at level 61, m at next level, right associativity).
Notation "' p <~ m ;; k" := (io_bind m (fun p => k))
  (at level 61, p pattern, m at next level, right associativity).

Definition write_file (path : string) (content : list byte) (w : world) : world :=
  {| script_dir := script_dir w;
     files := fun q => if String.eqb q path then Some content else files w q;
     writable := writable w;
     runs := runs w;
     run_rc := run_rc w |}.

Definition record_run (cmd : list string) (w : world) : world :=
  {| script_dir := script_dir w;
     files := files w;
     writable := writable w;
     runs := cmd :: runs w;
     run_rc := run_rc w |}.

(** Paths are POSIX paths, handled as [pathlib] handles them. A path
    string is cut at its slashes. *)
Fixpoint path_pieces (s : string) : list string :=
  match s with
  | EmptyString => [EmptyString]
  | String c rest =>
      if Ascii.eqb c "/" then EmptyString :: path_pieces rest
      else match path_pieces rest with
           | p :: ps => String c p :: ps
           | [] => [String c EmptyString]
           end
  end.

(** The components [pathlib] keeps: empty pieces (doubled or trailing
    slashes) and [.] are dropped, [..] is kept. *)
Definition path_parts (s : string) : list string :=
  filter (fun p => negb (String.eqb p "") && negb (String.eqb p "."))
         (path_pieces s).

(** The root of a path: [/] for an absolute path (exactly two leading
    slashes are kept as they are), nothing for a relative one. *)
Definition path_root (s : string) : string :=
  match s with
  | String "/" (String "/" (String "/" _)) => "/"
  | String "/" (String "/" _) => "//"
  | String "/" _ => "/"
  | _ => ""
  end%string.

(** [str(path)] of a root and components; the empty relative path is [.]. *)
Definition path_str (root : string) (parts : list string) : string :=
  match parts with
  | [] => if String.eqb root "" then "." else root
  | _ => root ++ String.concat "/" parts
  end%string.

(** [str(Path(a) / b)]: an absolute [b] replaces [a]; the result is
    normalised. *)
Definition path_join (a b : string) : string :=
  if String.eqb (path_root b) ""
  then path_str (path_root a) (path_parts a ++ path_parts b)
  else path_str (path_root b) (path_parts b).

(** [os.path.exists(path)] *)
Definition path_exists (path : string) (w : world) : bool :=
  match files w path with Some _ => true | None => false end.

(** [path.mkdir(parents=True, exist_ok=True)] *)
Definition mkdir (path : string) : io unit :=
  fun w => if writable w path then (Ok tt, w) else (Raise OSError, w).

(** The largest side the JPEG encoder accepts. *)
Definition JPEG_MAX_DIMENSION : Z := 65500.

(** What a [save] that fails after opening its file leaves behind: the
    file was opened for writing, so a file that existed is now empty; a
    file that the call created is removed again. *)
Definition abandon_file (path : string) (w : world) : world :=
  match files w path with
  | Some _ => write_file path [] w
  | None => w
  end.

(** [im.save(path, "JPEG", quality=q)]: Pillow opens the file for writing
    ([OSError] when the system refuses) and then calls the JPEG writer,
    which refuses an empty image ([ValueError: cannot write empty image as
    JPEG]) and whose encoder refuses a side above [JPEG_MAX_DIMENSION]
    ([OSError: encoder error -2 when writing image file]). *)
Definition save `{PIL.Pillow} (im : PIL.image) (path : string) (quality : Z) : io unit :=
  fun w =>
    if negb (writable w path) then (Raise OSError, w)
    else if (PIL.width im =? 0) || (PIL.height im =? 0)
    then (Raise ValueError, abandon_file path w)
    else if (JPEG_MAX_DIMENSION <? PIL.width im)
            || (JPEG_MAX_DIMENSION <? PIL.height im)
    then (Raise OSError, abandon_file path w)
    else (Ok tt, write_file path (PIL.jpeg_encode im quality) w).

(** ** [process_image] *)

Section ProcessImage.
Context `{PIL.Pillow}.

(** Lines 255-277: conversion to [RGB]; an image with transparency is
    composited onto a white background. *)
Definition to_rgb (image : PIL.image) : PIL.image :=
  if negb (PIL.mode_eqb (PIL.mode image) PIL.RGB) then
    if PIL.mode_eqb (PIL.mode image) PIL.RGBA
       || PIL.mode_eqb (PIL.mode image) PIL.LA
       || PIL.mode_eqb (PIL.mode image) PIL.P
    then
      let image :=
        if PIL.mode_eqb (PIL.mode image) PIL.P
        then PIL.convert image PIL.RGBA else image in
      if PIL.mode_eqb (PIL.mode image) PIL.RGBA
         || PIL.mode_eqb (PIL.mode image) PIL.LA
      then
        let rgb_image := PIL.new PIL.RGB (PIL.size image) PIL.white in
        let image :=
          if PIL.mode_eqb (PIL.mode image) PIL.LA
          then PIL.paste (PIL.new PIL.RGBA (PIL.size image) (PIL.zero_pixel PIL.RGBA)) image
          else image in
        PIL.paste_masked rgb_image image
      else image
    else PIL.convert image PIL.RGB
  else image.

(** The two target rectangles and the gap between them. *)
Record screens : Type := {
  upper_width : Z;
  upper_height : Z;
  lower_width : Z;
  lower_height : Z;
  offset_px : Z
}.

(** Lines 284-296: the footprint, the scale factor and the scaled size. *)
Record scaling : Type := {
  required_width : Z;
  required_height : Z;
  scale_factor_width : Py.float;
  scale_factor_height : Py.float;
  scale_factor : Py.float;
  new_width : Z;
  new_height : Z
}.

Definition compute_scaling (original_width original_height : Z) (s : screens)
  : result scaling :=
  let required_width := Z.max (upper_width s) (lower_width s) in
  let required_height := upper_height s + offset_px s + lower_height s in
  scale_factor_width <- Py.int_truediv required_width original_width ;;
  scale_factor_height <- Py.int_truediv required_height original_height ;;
  let scale_factor := Py.max_float scale_factor_width scale_factor_height in
  fw <- Py.int_mul_float original_width scale_factor ;;
  new_width <- Py.int_of_float fw ;;
  fh <- Py.int_mul_float original_height scale_factor ;;
  new_height <- Py.int_of_float fh ;;
  Ok {| required_width := required_width;
        required_height := required_height;
        scale_factor_width := scale_factor_width;
        scale_factor_height := scale_factor_height;
        scale_factor := scale_factor;
        new_width := new_width;
        new_height := new_height |}.

(** Lines 298-300 *)
Definition rescale (image : PIL.image) (sc : scaling) : result PIL.image :=
  if Py.float_ne (scale_factor sc) Py.one
  then PIL.resize image (new_width sc, new_height sc)
  else Ok image.

(** Lines 305-306 *)
Definition horizontal_offset (current_width required_width : Z) : Z :=
  Z.max 0 ((current_width - required_width) / 2).

Definition vertical_offset (current_height required_height : Z) : Z :=
  Z.max 0 ((current_height - required_height) / 2).

(** Lines 311-314 and 319-322: the boxes (left, top, right, bottom). *)
Definition upper_box (horizontal_offset vertical_offset : Z) (s : screens)
  : Z * Z * Z * Z :=
  let upper_left := horizontal_offset in
  let upper_top := vertical_offset in
  let upper_right := upper_left + upper_width s in
  let upper_bottom := upper_top + upper_height s in
  (upper_left, upper_top, upper_right, upper_bottom).

Definition lower_box (horizontal_offset vertical_offset : Z) (s : screens)
  : Z * Z * Z * Z :=
  let lower_left := horizontal_offset in
  let lower_top := vertical_offset + upper_height s + offset_px s in
  let lower_right := lower_left + lower_width s in
  let lower_bottom := lower_top + lower_height s in
  (lower_left, lower_top, lower_right, lower_bottom).

(** Everything [process_image] has computed when both crops exist. *)
Record fitted : Type := {
  source : PIL.image;          (* the image after conversion to RGB *)
  plan : scaling;
  scaled : PIL.image;          (* [image] after lines 298-300 *)
  offsets : Z * Z;             (* (horizontal_offset, vertical_offset) *)
  upper_rect : Z * Z * Z * Z;
  lower_rect : Z * Z * Z * Z;
  upper_crop : PIL.image;
  lower_crop : PIL.image
}.

(** Lines 279-324 on a decoded, converted image. *)
Definition fit_image (image : PIL.image) (s : screens) : result fitted :=
  let '(original_width, original_height) := PIL.size image in
  sc <- compute_scaling original_width original_height s ;;
  scaled_image <- rescale image sc ;;
  let '(current_width, current_height) := PIL.size scaled_image in
  let ho := horizontal_offset current_width (required_width sc) in
  let vo := vertical_offset current_height (required_height sc) in
  upper <- PIL.crop scaled_image (upper_box ho vo s) ;;
  lower <- PIL.crop scaled_image (lower_box ho vo s) ;;
  Ok {| source := image;
        plan := sc;
        scaled := scaled_image;
        offsets := (ho, vo);
        upper_rect := upper_box ho vo s;
        lower_rect := lower_box ho vo s;
        upper_crop := upper;
        lower_crop := lower |}.

(** Lines 252-324: from the bytes to the two crops. *)
Definition fit (image_data : list byte) (s : screens) : result fitted :=
  image <- PIL.open image_data ;;
  fit_image (to_rgb image) s.

(** Lines 250-341, the body of the [try]. *)
Definition process_image_try (image_data : list byte) (output_dir : string)
    (s : screens) : io (string * string) :=
  f <~ io_lift (fit image_data s) ;;
  fun w =>
    let output_path := path_join (script_dir w) output_dir in
    let upper_file := path_join output_path "wallpaper_upper.jpg" in
    let lower_file := path_join output_path "wallpaper_lower.jpg" in
    (_ <~ mkdir output_path ;;
     _ <~ save (upper_crop f) upper_file 95 ;;
     _ <~ save (lower_crop f) lower_file 95 ;;
     io_ret (upper_file, lower_file)) w.

(** [process_image]: [except Exception] turns every failure of the body
    into [(None, None)]. *)
Definition process_image (image_data : list byte) (output_dir : string)
    (upper_width upper_height lower_width lower_height offset_px : Z)
    (w : world) : (option string * option string) * world :=
  let s := {| upper_width := upper_width; upper_height := upper_height;
              lower_width := lower_width; lower_height := lower_height;
              offset_px := offset_px |} in
  match process_image_try image_data output_dir s w with
  | (Ok (upper_file, lower_file), w') => ((Some upper_file, Some lower_file), w')
  | (Raise _, w') => ((None, None), w')
  end.

(** ** [apply_wallpaper] and the end of [main] *)

(** One [subprocess.run]; [None] when it raises. *)
Definition subprocess_run (cmd : list string) (w : world) : option Z * world :=
  (run_rc w cmd, record_run cmd w).

Definition apply_wallpaper (exe_path upper_file lower_file : string) (w : world)
  : bool * world :=
  if negb (path_exists exe_path w) then (false, w)
  else if negb (path_exists upper_file w) then (false, w)
  else if negb (path_exists lower_file w) then (false, w)
  else
    match subprocess_run [exe_path; "-m"; "0"; upper_file]%string w with
    | (None, w1) => (false, w1)
    | (Some returncode1, w1) =>
        if negb (returncode1 =? 0) then (false, w1)
        else
          match subprocess_run [exe_path; "-m"; "1"; lower_file]%string w1 with
          | (None, w2) => (false, w2)
          | (Some returncode2, w2) =>
              if negb (returncode2 =? 0) then (false, w2) else (true, w2)
          end
    end.

(** The configuration values [main] reads for this part. *)
Record config : Type := {
  exe_path : string;
  output_dir : string;
  cfg_screens : screens
}.

(** Python truth value of an optional string: [None] and the empty string
    are false. *)
Definition truthy (s : option string) : bool :=
  match s with
  | None => false
  | Some EmptyString => false
  | Some _ => true
  end.

(** Lines 469-493 of [main]: [image_data] is what the acquisition part
    (test image, Pexels, Reddit) has produced, [None] when it failed. *)
Definition main (cfg : config) (image_data : option (list byte)) (w : world)
  : Z * world :=
  match image_data with
  | None | Some [] => (1, w)
  | Some data =>
      let s := cfg_screens cfg in
      let '((upper_file, lower_file), w1) :=
        process_image data (output_dir cfg)
          (upper_width s) (upper_height s) (lower_width s) (lower_height s)
          (offset_px s) w in
      if negb (truthy upper_file) || negb (truthy lower_file) then (1, w1)
      else
        match upper_file, lower_file with
        | Some u, Some l =>
            let '(ok, w2) := apply_wallpaper (exe_path cfg) u l w1 in
            if negb ok then (1, w2) else (0, w2)
        | _, _ => (1, w1)
        end
  end.

End ProcessImage.

(** * Definitions for the statements *)

(** Where the fraction [r / d], with [0 <= r < d], lies in the unit
    interval. *)
Definition loc_of_rem (r d : Z) : location :=
  if r =? 0 then loc_Exact else loc_Inexact (2 * r ?= d).

(** The quotient [N / D] with its round and sticky bits. *)
Definition frac_record (N D : Z) : shr_record :=
  {| shr_m := N / D;
     shr_r := D <=? 2 * (N mod D);
     shr_s := negb (N mod D =? 0) && negb (2 * (N mod D) =? D) |}.

(** [N / D] rounded to the nearest integer, ties to even. *)
Definition round_frac (N D : Z) : Z :=
  round_nearest_even (N / D) (loc_of_rem (N mod D) D).

(** A mantissa of 53 or 54 bits, renormalised to 53 bits. *)
Definition normal_float (m e : Z) : spec_float :=
  if m <? 2 ^ 53 then
    (if e <=? 971 then S754_finite false (Z.to_pos m) e else S754_infinity false)
  else
    (if e + 1 <=? 971 then S754_finite false (Z.to_pos (2 ^ 52)) (e + 1)
     else S754_infinity false).

(** The left shift and the right shift that [a / b] goes through. *)
Definition div_shl (a b : Z) : Z := - Z.min (Zdigits2 a - Zdigits2 b - 53) 0.

Definition div_shr (a b : Z) : Z := Zdigits2 (a * 2 ^ div_shl a b / b) - 53.

(** A positive normal number with its exponent between [lo] and [hi]. *)
Definition normal (lo hi : Z) (f : spec_float) : Prop :=
  exists m e, f = S754_finite false (Z.to_pos m) e /\
              2 ^ 52 <= m < 2 ^ 53 /\ lo <= e <= hi.

(** [w * f >= 1], for a positive finite [f]. *)
Definition at_least_one (w : Z) (f : spec_float) : Prop :=
  match f with
  | S754_finite false m e => 2 ^ (- e) <= w * Zpos m
  | _ => False
  end.

(** [w * f >= K], for a positive finite [f] and [0 <= K < 2^53]. *)
Definition reaches (K w : Z) (f : spec_float) : Prop :=
  match f with
  | S754_finite false m e => K * 2 ^ (- e) <= w * Zpos m
  | _ => False
  end.

(** [w * f <= K + w * 2^e] and [w * 2^e <= K * 2^-51], for a positive
    finite [f] of exponent [e]: the product exceeds [K] by a small fraction
    at most. *)
Definition stays_within (K w : Z) (f : spec_float) : Prop :=
  match f with
  | S754_finite false m e =>
      w * Zpos m <= K * 2 ^ (- e) + w /\ w * 2 ^ 51 <= K * 2 ^ (- e)
  | _ => False
  end.

(** The largest image side Pillow can hold (a C [int]). *)
Definition max_dim : Z := 2147483647.

(** A decoded image: both sides positive and at most [max_dim]. *)
Definition valid_source (image : PIL.image) : Prop :=
  0 < PIL.width image <= max_dim /\ 0 < PIL.height image <= max_dim.

(** The four screen sizes are positive. *)
Definition positive_screens (s : screens) : Prop :=
  0 < upper_width s /\ 0 < upper_height s /\
  0 < lower_width s /\ 0 < lower_height s.

(** Positive screen sizes and a gap that is not negative, all within
    [max_dim]. *)
Definition valid_screens (s : screens) : Prop :=
  0 < upper_width s <= max_dim /\ 0 < upper_height s <= max_dim /\
  0 < lower_width s <= max_dim /\ 0 < lower_height s <= max_dim /\
  0 <= offset_px s <= max_dim.

(** Screens whose crops Pillow extracts: positive sizes, a width that is
    a C [int], a gap that is not negative, a footprint height that is a C
    [int], and crops of at most [2 * MAX_IMAGE_PIXELS] pixels. *)
Definition crop_screens (s : screens) : Prop :=
  0 < upper_width s <= max_dim /\ 0 < upper_height s /\
  0 < lower_width s <= max_dim /\ 0 < lower_height s /\
  0 <= offset_px s /\
  upper_height s + offset_px s + lower_height s <= max_dim /\
  upper_width s * upper_height s <= 2 * PIL.MAX_IMAGE_PIXELS /\
  lower_width s * lower_height s <= 2 * PIL.MAX_IMAGE_PIXELS.

(** The pixel [(x, y)] belongs to the box (left, top, right, bottom). *)
Definition in_box (box : Z * Z * Z * Z) (x y : Z) : Prop :=
  let '(x0, y0, x1, y1) := box in x0 <= x < x1 /\ y0 <= y < y1.

(** A white RGB image. *)
Definition blank (w h : Z) : PIL.image :=
  {| PIL.mode := PIL.RGB; PIL.width := w; PIL.height := h;
     PIL.getpixel := fun _ _ => PIL.white |}.

(** The value of a byte, [0] to [255]. *)
Definition byte_value (b : byte) : Z := Z.of_N (Byte.to_N b).

(** A stand-in for Pillow in the examples: four bytes are the width and the
    height (big endian, two bytes each) of a white image; conversion,
    blending and resampling keep white; the encoder writes the two bytes
    every JPEG file starts with; there is memory for an image of up to
    [2^30] pixels. *)
Definition example_pillow : PIL.Pillow :=
  {| PIL.decode := fun data =>
       match data with
       | [a; b; c; d] =>
           Ok (blank (256 * byte_value a + byte_value b)
                     (256 * byte_value c + byte_value d))
       | _ => Raise UnidentifiedImageError
       end;
     PIL.convert_pixel := fun _ m _ _ => repeat 255 (PIL.bands m);
     PIL.blend := fun dst _ _ => dst;
     PIL.lanczos := fun _ _ _ _ _ => PIL.white;
     PIL.jpeg_encode := fun im _ =>
       [Byte.xff; Byte.xd8];
     PIL.allocates := fun w h => w * h <=? 2 ^ 30 |}.

(** An empty, writable file system in which the wallpaper tool succeeds. *)
Definition example_world : world :=
  {| script_dir := "/opt/wallpaper";
     files := fun _ => None;
     writable := fun _ => true;
     runs := [];
     run_rc := fun _ => Some 0 |}.

(** The configuration defaults of [main]. *)
Definition default_screens : screens :=
  {| upper_width := 1920; upper_height := 1080;
     lower_width := 1920; lower_height := 515; offset_px := 100 |}.

(** Two screens one pixel wide and one pixel high, no gap. *)
Definition one_pixel_screens : screens :=
  {| upper_width := 1; upper_height := 1;
     lower_width := 1; lower_height := 1; offset_px := 0 |}.

(** Two screens 1680 pixels wide, 1050 and 500 pixels high, 100 pixels
    apart. *)
Definition wide_screens : screens :=
  {| upper_width := 1680; upper_height := 1050;
     lower_width := 1680; lower_height := 500; offset_px := 100 |}.

(** The default screens, ten times as large. *)
Definition tenfold_screens : screens :=
  {| upper_width := 19200; upper_height := 10800;
     lower_width := 19200; lower_height := 5150; offset_px := 1000 |}.

(** 2148 x 2000 *)
Definition bytes_2148x2000 : list byte := [Byte.x08; Byte.x64; Byte.x07; Byte.xd0].

(** 3840 x 2160 *)
Definition bytes_3840x2160 : list byte := [Byte.x0f; Byte.x00; Byte.x08; Byte.x70].

(** 1920 x 1495 *)
Definition bytes_1920x1495 : list byte := [Byte.x07; Byte.x80; Byte.x05; Byte.xd7].

(** 1000 x 1000 *)
Definition bytes_1000x1000 : list byte := [Byte.x03; Byte.xe8; Byte.x03; Byte.xe8].

(** 1679 x 1650 *)
Definition bytes_1679x1650 : list byte := [Byte.x06; Byte.x8f; Byte.x06; Byte.x72].

(** 2191 x 2000 *)
Definition bytes_2191x2000 : list byte := [Byte.x08; Byte.x8f; Byte.x07; Byte.xd0].

(** 49 x 98 *)
Definition bytes_49x98 : list byte := [Byte.x00; Byte.x31; Byte.x00; Byte.x62].

(** The three paths [process_image] writes to. *)
Definition output_path_of (w : world) (output_dir : string) : string :=
  path_join (script_dir w) output_dir.

Definition upper_file_of (w : world) (output_dir : string) : string :=
  path_join (output_path_of w output_dir) "wallpaper_upper.jpg".

Definition lower_file_of (w : world) (output_dir : string) : string :=
  path_join (output_path_of w output_dir) "wallpaper_lower.jpg".

(** Neither side of the image is [0]. *)
Definition nonempty (im : PIL.image) : bool :=
  negb ((PIL.width im =? 0) || (PIL.height im =? 0)).

(** The JPEG writer takes the image: it is not empty and no side is above
    [JPEG_MAX_DIMENSION]. *)
Definition savable (im : PIL.image) : bool :=
  nonempty im &&
  negb ((JPEG_MAX_DIMENSION <? PIL.width im)
        || (JPEG_MAX_DIMENSION <? PIL.height im)).

(** [example_world] with a lower file that cannot be written. *)
Definition lower_readonly_world : world :=
  {| script_dir := "/opt/wallpaper";
     files := fun _ => None;
     writable := fun p =>
       negb (String.eqb p "/opt/wallpaper/temp/wallpaper_lower.jpg");
     runs := [];
     run_rc := fun _ => Some 0 |}.

(** A configuration: the default screens, the output directory [temp]. *)
Definition example_config : config :=
  {| exe_path := "WallpaperChanger.exe";
     output_dir := "temp";
     cfg_screens := default_screens |}.

(** The two commands of [apply_wallpaper] (lines 376 and 392). *)
Definition upper_command (exe_path upper_file : string) : list string :=
  [exe_path; "-m"; "0"; upper_file]%string.

Definition lower_command (exe_path lower_file : string) : list string :=
  [exe_path; "-m"; "1"; lower_file]%string.

(** [example_world] after a successful [process_image], with the wallpaper
    tool installed. *)
Definition installed_world : world :=
  {| script_dir := "/opt/wallpaper";
     files := fun p =>
       if String.eqb p "WallpaperChanger.exe" then Some [Byte.x4d; Byte.x5a]
       else if String.eqb p "/opt/wallpaper/temp/wallpaper_upper.jpg"
       then Some [Byte.xff; Byte.xd8]
       else if String.eqb p "/opt/wallpaper/temp/wallpaper_lower.jpg"
       then Some [Byte.xff; Byte.xd8]
       else None;
     writable := fun _ => true;
     runs := [];
     run_rc := fun _ => Some 0 |}.

(** A 4 x 4 [RGBA] image, red, whose left half is fully transparent. *)
Definition half_transparent : PIL.image :=
  {| PIL.mode := PIL.RGBA; PIL.width := 4; PIL.height := 4;
     PIL.getpixel := fun x _ => if x <? 2 then [255; 0; 0; 0]
                                else [255; 0; 0; 255] |}.

(** A stand-in for Pillow whose masked paste takes the source wherever the
    mask is not 0, and whose conversion keeps the first bands. *)
Definition masking_pillow : PIL.Pillow :=
  {| PIL.decode := fun _ => Raise UnidentifiedImageError;
     PIL.convert_pixel := fun im m x y =>
       firstn (PIL.bands m) (PIL.getpixel im x y);
     PIL.blend := fun dst src a => if a =? 0 then dst else src;
     PIL.lanczos := fun _ _ _ _ _ => PIL.white;
     PIL.jpeg_encode := fun _ _ => [Byte.xff; Byte.xd8];
     PIL.allocates := fun w h => w * h <=? 2 ^ 30 |}.

(** What follows the first [/] of a list of characters. *)
Fixpoint after_slash (l : list ascii) : option (list ascii) :=
  match l with
  | [] => None
  | c :: r => if Ascii.eqb c "/" then Some r else after_slash r
  end.

(** [path.parent] for a normalised POSIX path: the path without its last
    component; [.] for a single relative component and [/] for the root
    and its children. *)
Definition path_parent (p : string) : string :=
  match after_slash (rev (list_ascii_of_string p)) with
  | None => "."
  | Some [] => "/"
  | Some r => string_of_list_ascii (rev r)
  end.

(** [local_path.exists()]: a file of the world or a directory. *)
Definition local_exists (is_dir : string -> bool) (path : string) (w : world)
  : bool :=
  path_exists path w || is_dir path.

(** [open(local_path, 'rb').read()]: a directory cannot be opened. *)
Definition read_file (is_dir : string -> bool) (path : string) (w : world)
  : result (list byte) :=
  if is_dir path then Raise OSError
  else match files w path with
       | Some content => Ok content
       | None => Raise OSError
       end.

(** Lines 201-222. [is_dir] tells which paths are directories. *)
Definition load_local_image (is_dir : string -> bool) (image_path : string)
    (w : world) : option (list byte) :=
  let script_dir := script_dir w in
  let parent_dir := path_parent script_dir in
  let local_path := path_join parent_dir image_path in
  let local_path :=
    if negb (local_exists is_dir local_path w)
    then path_join script_dir image_path else local_path in
  let local_path :=
    if negb (local_exists is_dir local_path w)
    then image_path else local_path in
  if negb (local_exists is_dir local_path w) then None
  else
    match read_file is_dir local_path w with
    | Ok data => Some data
    | Raise _ => None
    end.

(** A world with [photo.jpg] beside the script and in the directory above. *)
Definition two_photos_world : world :=
  {| script_dir := "/opt/wallpaper";
     files := fun p =>
       if String.eqb p "/opt/photo.jpg" then Some [Byte.x01]
       else if String.eqb p "/opt/wallpaper/photo.jpg" then Some [Byte.x02]
       else None;
     writable := fun _ => true;
     runs := [];
     run_rc := fun _ => Some 0 |}.

(** The network as [download_wallpaper_from_reddit] sees it. The argument
    [n] is the number of requests made so far, so that two requests for the
    same thing may differ.
    - [listing n subreddit]: lines 131-157, the request for the top posts
      of the subreddit and the extraction of the image URLs from the JSON
      answer; any exception raised on the way is a [Raise];
    - [fetch n url]: lines 165-166, the content of the answer, or the
      exception of [requests.get] or [raise_for_status];
    - [shuffle n l]: what [random.shuffle] makes of [l]. *)
Record network : Type := {
  listing : nat -> string -> result (list string);
  fetch : nat -> string -> result (list byte);
  shuffle : nat -> list string -> list string
}.

(** Line 116 *)
Definition subreddits : list string :=
  ["wallpaper"; "wallpapers"; "MinimalWallpaper"; "EarthPorn"; "SpacePorn";
   "CityPorn"; "SkyPorn"; "WaterPorn"; "AbandonedPorn"]%string.

(** Lines 162-182, the loop over the image URLs: the first image that can
    be fetched and decoded and is large enough is returned; an exception
    goes on to the next URL. *)
Fixpoint try_images `{PIL.Pillow} (net : network) (min_width min_height : Z)
    (image_urls : list string) (n : nat) : option (list byte) * nat :=
  match image_urls with
  | [] => (None, n)
  | image_url :: rest =>
      match (content <- fetch net n image_url ;;
             img <- PIL.open content ;;
             Ok (content, img)) with
      | Ok (content, img) =>
          if (min_width <=? PIL.width img) && (min_height <=? PIL.height img)
          then (Some content, S n)
          else try_images net min_width min_height rest (S n)
      | Raise _ => try_images net min_width min_height rest (S n)
      end
  end.

(** Lines 127-186, the loop over the subreddits. *)
Fixpoint try_subreddits `{PIL.Pillow} (net : network)
    (min_width min_height : Z) (subs : list string) (n : nat)
  : option (list byte) * nat :=
  match subs with
  | [] => (None, n)
  | subreddit :: rest =>
      match listing net n subreddit with
      | Raise _ => try_subreddits net min_width min_height rest (S n)
      | Ok [] => try_subreddits net min_width min_height rest (S n)
      | Ok image_urls =>
          match try_images net min_width min_height
                  (firstn 20 (shuffle net (S n) image_urls)) (S n) with
          | (Some content, n') => (Some content, n')
          | (None, n') => try_subreddits net min_width min_height rest n'
          end
      end
  end.

(** [download_wallpaper_from_reddit]; [theme] is not used. *)
Definition download_wallpaper_from_reddit `{PIL.Pillow} (net : network)
    (theme : string) (min_width min_height : Z) (n : nat)
  : option (list byte) * nat :=
  try_subreddits net min_width min_height (shuffle net n subreddits) n.

(** A network where only [r/wallpapers] answers, with a small image first
    and a large one second. *)
Definition example_network : network :=
  {| listing := fun _ subreddit =>
       if String.eqb subreddit "wallpapers"
       then Ok ["https://i.redd.it/small.jpg"; "https://i.redd.it/large.jpg"]%string
       else Raise OSError;
     fetch := fun _ url =>
       if String.eqb url "https://i.redd.it/small.jpg" then Ok bytes_1000x1000
       else if String.eqb url "https://i.redd.it/large.jpg" then Ok bytes_3840x2160
       else Raise OSError;
     shuffle := fun _ l => l |}.

(** * Lemmas and theorems *)

Lemma digits2_pos_bounds (p : positive) :
  2 ^ (Zpos (digits2_pos p) - 1) <= Zpos p < 2 ^ Zpos (digits2_pos p).
Proof.
  induction p as [p IH | p IH |]; cbn [digits2_pos].
  - rewrite Pos2Z.inj_succ.
    replace (Z.succ (Z.pos (digits2_pos p)) - 1) with (Z.succ (Z.pos (digits2_pos p) - 1)) by lia.
    rewrite !Z.pow_succ_r by lia. lia.
  - rewrite Pos2Z.inj_succ.
    replace (Z.succ (Z.pos (digits2_pos p)) - 1) with (Z.succ (Z.pos (digits2_pos p) - 1)) by lia.
    rewrite !Z.pow_succ_r by lia. lia.
  - cbn. lia.
Qed.

Lemma Zdigits2_bounds (m : Z) :
  0 < m -> 2 ^ (Zdigits2 m - 1) <= m < 2 ^ Zdigits2 m.
Proof.
  destruct m as [| p | p]; try lia. intros _. apply digits2_pos_bounds.
Qed.

Lemma Zdigits2_pos (m : Z) : 0 < m -> 0 < Zdigits2 m.
Proof. destruct m; cbn; lia. Qed.

Lemma Zdigits2_unique (m k : Z) :
  2 ^ (k - 1) <= m < 2 ^ k -> 0 < m -> Zdigits2 m = k.
Proof.
  intros Hk Hm.
  pose proof (Zdigits2_bounds m Hm) as Hd.
  pose proof (Zdigits2_pos m Hm) as Hp.
  assert (0 < k).
  { destruct (Z_lt_le_dec 0 k); auto. rewrite Z.pow_neg_r in Hk by lia. 
    destruct (Z.eq_dec k 0); subst; cbn in *; try lia. rewrite Z.pow_neg_r in Hk by lia. lia. }
  destruct (Z_lt_le_dec (Zdigits2 m) k).
  - assert (2 ^ Zdigits2 m <= 2 ^ (k - 1)) by (apply Z.pow_le_mono_r; lia). lia.
  - destruct (Z_lt_le_dec k (Zdigits2 m)); try lia.
    assert (2 ^ k <= 2 ^ (Zdigits2 m - 1)) by (apply Z.pow_le_mono_r; lia). lia.
Qed.

Ltac case_cmp :=
  repeat match goal with
  | |- context [Z.leb ?a ?b] => destruct (Z.leb_spec a b)
  | |- context [Z.eqb ?a ?b] => destruct (Z.eqb_spec a b)
  | |- context [Z.compare ?a ?b] => destruct (Z.compare_spec a b)
  end;
  cbn [negb andb orb shr_record_of_loc loc_of_shr_record];
  try reflexivity; try lia.

Lemma shr_record_of_loc_frac (N D : Z) :
  0 < D ->
  shr_record_of_loc (N / D) (loc_of_rem (N mod D) D) = frac_record N D.
Proof.
  intros HD. unfold loc_of_rem, frac_record.
  pose proof (Z.mod_pos_bound N D HD) as Hr.
  case_cmp.
Qed.

Lemma loc_of_shr_record_frac (N D : Z) :
  0 < D ->
  loc_of_shr_record (frac_record N D) = loc_of_rem (N mod D) D.
Proof.
  intros HD. unfold loc_of_rem, frac_record, loc_of_shr_record.
  pose proof (Z.mod_pos_bound N D HD) as Hr.
  case_cmp.
Qed.

Lemma new_location_frac (N D : Z) :
  0 < D -> new_location D (N mod D) = loc_of_rem (N mod D) D.
Proof.
  intros HD. unfold new_location, new_location_even, new_location_odd, loc_of_rem.
  pose proof (Z.mod_pos_bound N D HD) as Hr.
  destruct (Z.even D) eqn:Ev; [reflexivity |].
  destruct (Z.eqb_spec (N mod D) 0); [reflexivity |].
  f_equal.
  assert (Hodd : Z.odd D = true) by (rewrite <- Z.negb_even, Ev; reflexivity).
  apply Z.odd_spec in Hodd. destruct Hodd as [k Hk].
  destruct (Z.compare_spec (2 * (N mod D) + 1) D), (Z.compare_spec (2 * (N mod D)) D); try reflexivity; lia.
Qed.

Lemma shr_1_nonneg (m : Z) (r s : bool) :
  0 <= m ->
  shr_1 {| shr_m := m; shr_r := r; shr_s := s |} =
  {| shr_m := m / 2; shr_r := Z.odd m; shr_s := r || s |}.
Proof.
  intros Hm. destruct m as [| p | p]; try lia.
  - reflexivity.
  - destruct p as [p | p |]; cbn [shr_1].
    + f_equal. rewrite Pos2Z.inj_xI. apply Z.div_unique with 1; lia.
    + f_equal. rewrite Pos2Z.inj_xO. apply Z.div_unique with 0; lia.
    + reflexivity.
Qed.

Lemma mod_double (N D : Z) :
  0 < D ->
  N / (2 * D) = N / D / 2 /\
  N mod (2 * D) = N mod D + (if Z.odd (N / D) then D else 0).
Proof.
  intros HD.
  assert (Hq : N / (2 * D) = N / D / 2).
  { rewrite Z.mul_comm, Z.div_div by lia. reflexivity. }
  split; [exact Hq |].
  pose proof (Z.div_mod N D ltac:(lia)) as E1.
  pose proof (Z.div_mod N (2 * D) ltac:(lia)) as E2.
  pose proof (Z.div_mod (N / D) 2 ltac:(lia)) as E3.
  rewrite Zmod_odd in E3. rewrite Hq in E2.
  destruct (Z.odd (N / D)); nia.
Qed.

Lemma shr_1_frac (N D : Z) :
  0 <= N -> 0 < D -> shr_1 (frac_record N D) = frac_record N (2 * D).
Proof.
  intros HN HD. unfold frac_record at 1.
  rewrite shr_1_nonneg by (apply Z.div_pos; lia).
  unfold frac_record.
  pose proof (Z.mod_pos_bound N D HD) as Hr.
  destruct (mod_double N D HD) as [Hq Hm].
  rewrite Hq, Hm.
  destruct (Z.odd (N / D)); f_equal; case_cmp.
Qed.

Lemma pow2_xO (k : Z) : 0 <= k -> 2 ^ (2 * k) = 2 ^ k * 2 ^ k.
Proof. intros. rewrite <- Z.pow_add_r by lia. f_equal. lia. Qed.

Lemma pow2_xI (k : Z) : 0 <= k -> 2 ^ (2 * k + 1) = 2 * (2 ^ k * 2 ^ k).
Proof.
  intros. rewrite (Z.pow_add_r 2 (2 * k) 1) by lia.
  rewrite (pow2_xO k) by lia. change (2 ^ 1) with 2. ring.
Qed.

Lemma iter_pos_shr_1_frac (p : positive) :
  forall N D, 0 <= N -> 0 < D ->
  iter_pos shr_1 p (frac_record N D) = frac_record N (D * 2 ^ Zpos p).
Proof.
  induction p as [p IH | p IH |]; intros N D HN HD; cbn [iter_pos].
  - rewrite shr_1_frac, IH, IH by (try apply Z.mul_pos_pos; try apply Z.pow_pos_nonneg; lia).
    f_equal. rewrite (Pos2Z.inj_xI p), (pow2_xI (Z.pos p)) by lia. ring.
  - rewrite IH, IH by (try apply Z.mul_pos_pos; try apply Z.pow_pos_nonneg; lia).
    f_equal. rewrite (Pos2Z.inj_xO p), (pow2_xO (Z.pos p)) by lia. ring.
  - rewrite shr_1_frac by lia. f_equal. change (2 ^ 1) with 2. ring.
Qed.

Lemma shr_frac (N D e n : Z) :
  0 <= N -> 0 < D -> 0 <= n ->
  shr (frac_record N D) e n = (frac_record N (D * 2 ^ n), e + n).
Proof.
  intros HN HD Hn. destruct n as [| p | p]; try lia.
  - cbn [shr]. rewrite Z.pow_0_r, Z.mul_1_r, Z.add_0_r. reflexivity.
  - cbn [shr]. rewrite iter_pos_shr_1_frac by lia. reflexivity.
Qed.

Lemma round_frac_bounds (N D : Z) :
  0 < D -> N / D <= round_frac N D <= N / D + 1.
Proof.
  intros HD. unfold round_frac, loc_of_rem, round_nearest_even.
  destruct (N mod D =? 0); [lia |].
  destruct (2 * (N mod D) ?= D); try lia.
  destruct (Z.even (N / D)); lia.
Qed.

Lemma round_frac_up (N D : Z) :
  0 < D -> round_frac N D = N / D + 1 -> D <= 2 * (N mod D).
Proof.
  intros HD. unfold round_frac, loc_of_rem, round_nearest_even.
  destruct (Z.eqb_spec (N mod D) 0); [lia |].
  destruct (Z.compare_spec (2 * (N mod D)) D); try lia.
Qed.

Lemma round_frac_down (N D : Z) :
  0 < D -> round_frac N D = N / D -> 2 * (N mod D) <= D.
Proof.
  intros HD. unfold round_frac, loc_of_rem, round_nearest_even.
  pose proof (Z.mod_pos_bound N D HD).
  destruct (Z.eqb_spec (N mod D) 0); [lia |].
  destruct (Z.compare_spec (2 * (N mod D)) D); try lia.
Qed.

Lemma fexp_normal (e : Z) : -1074 <= e - 53 -> fexp 53 1024 e = e - 53.
Proof. intros. unfold fexp, emin. lia. Qed.

Lemma div_pow2_bounds (m n : Z) :
  0 <= n -> 2 ^ (52 + n) <= m < 2 ^ (53 + n) ->
  2 ^ 52 <= m / 2 ^ n < 2 ^ 53.
Proof.
  intros Hn Hm.
  assert (0 < 2 ^ n) by (apply Z.pow_pos_nonneg; lia).
  rewrite !Z.pow_add_r in Hm by lia.
  split.
  - apply Z.div_le_lower_bound; lia.
  - apply Z.div_lt_upper_bound; lia.
Qed.

Lemma binary_round_aux_frac (N D ex : Z) :
  0 <= N -> 0 < D ->
  2 ^ 52 <= N / D ->
  -1074 <= ex + (Zdigits2 (N / D) - 53) ->
  binary_round_aux 53 1024 false (N / D) ex (loc_of_rem (N mod D) D) =
  normal_float (round_frac N (D * 2 ^ (Zdigits2 (N / D) - 53)))
               (ex + (Zdigits2 (N / D) - 53)).
Proof.
  intros HN HD Hq He.
  set (n := Zdigits2 (N / D) - 53) in *.
  assert (Hq0 : 0 < N / D) by (pose proof (Z.pow_pos_nonneg 2 52); lia).
  pose proof (Zdigits2_bounds _ Hq0) as Hd.
  assert (Hn : 0 <= n).
  { unfold n. destruct (Z_lt_le_dec (Zdigits2 (N / D)) 53) as [L | L]; [| lia].
    assert (2 ^ Zdigits2 (N / D) <= 2 ^ 52) by (apply Z.pow_le_mono_r; lia). lia. }
  assert (HD1 : 0 < D * 2 ^ n) by (apply Z.mul_pos_pos; [| apply Z.pow_pos_nonneg]; lia).
  assert (Hm' : 2 ^ 52 <= N / (D * 2 ^ n) < 2 ^ 53).
  { rewrite <- Z.div_div by (try apply Z.pow_pos_nonneg; lia).
    apply div_pow2_bounds; [lia |].
    replace (52 + n) with (Zdigits2 (N / D) - 1) by (unfold n; lia).
    replace (53 + n) with (Zdigits2 (N / D)) by (unfold n; lia). exact Hd. }
  pose proof (round_frac_bounds N (D * 2 ^ n) HD1) as Hm1.
  unfold binary_round_aux, shr_fexp.
  rewrite shr_record_of_loc_frac by lia.
  rewrite fexp_normal by (unfold n in He; lia).
  replace (Zdigits2 (N / D) + ex - 53 - ex) with n by (unfold n; lia).
  rewrite shr_frac by lia.
  rewrite loc_of_shr_record_frac by lia.
  cbn [shr_m frac_record].
  fold (round_frac N (D * 2 ^ n)).
  set (m1 := round_frac N (D * 2 ^ n)) in *.
  unfold normal_float.
  assert (Hm1pos : 0 < m1) by (pose proof (Z.pow_pos_nonneg 2 52); lia).
  destruct (Z.ltb_spec m1 (2 ^ 53)) as [Lt | Ge].
  - assert (Hdig : Zdigits2 m1 = 53) by (apply Zdigits2_unique; [change (53 - 1) with 52 |]; lia).
    rewrite Hdig, fexp_normal by lia.
    replace (53 + (ex + n) - 53 - (ex + n)) with 0 by lia.
    cbn [shr shr_record_of_loc shr_m].
    destruct m1 as [| p | p]; try lia. reflexivity.
  - assert (Em1 : m1 = 2 ^ 53) by lia.
    rewrite Em1.
    change (Zdigits2 (2 ^ 53)) with 54.
    rewrite fexp_normal by lia.
    replace (54 + (ex + n) - 53 - (ex + n)) with 1 by lia.
    reflexivity.
Qed.

Lemma div_eucl_div_mod (a b : Z) : Z.div_eucl a b = (a / b, a mod b).
Proof. unfold Z.div, Z.modulo. destruct (Z.div_eucl a b); reflexivity. Qed.

Lemma SFdiv_core_binary_frac (a b : positive) :
  -1074 <= Zdigits2 (Zpos a) - Zdigits2 (Zpos b) - 53 ->
  SFdiv_core_binary 53 1024 (Zpos a) 0 (Zpos b) 0 =
  (Zpos a * 2 ^ div_shl (Zpos a) (Zpos b) / Zpos b,
   - div_shl (Zpos a) (Zpos b),
   loc_of_rem ((Zpos a * 2 ^ div_shl (Zpos a) (Zpos b)) mod Zpos b) (Zpos b)).
Proof.
  intros Hd. unfold SFdiv_core_binary, div_shl.
  rewrite !Z.add_0_r, Z.sub_0_r.
  rewrite fexp_normal by lia.
  set (e' := Z.min (Zdigits2 (Zpos a) - Zdigits2 (Zpos b) - 53) 0).
  replace (0 - e') with (- e') by lia.
  assert (He' : e' <= 0) by (unfold e'; lia).
  assert (Em : match - e' with
               | 0 => Z.pos a
               | Z.pos _ => Z.shiftl (Z.pos a) (- e')
               | Z.neg _ => 0
               end = Zpos a * 2 ^ (- e')).
  { destruct (- e') as [| p | p] eqn:E;
      [ rewrite Z.pow_0_r; lia
      | rewrite Z.shiftl_mul_pow2 by lia; reflexivity
      | lia ]. }
  rewrite Em, div_eucl_div_mod.
  rewrite new_location_frac by lia.
  rewrite Z.opp_involutive. reflexivity.
Qed.

Lemma div_quotient_normal (a b : Z) :
  0 < a -> 0 < b ->
  2 ^ 52 <= a * 2 ^ div_shl a b / b.
Proof.
  intros Ha Hb.
  pose proof (Zdigits2_bounds a Ha) as Da.
  pose proof (Zdigits2_bounds b Hb) as Db.
  pose proof (Zdigits2_pos a Ha). pose proof (Zdigits2_pos b Hb).
  apply Z.div_le_lower_bound; [lia |].
  unfold div_shl.
  set (da := Zdigits2 a) in *. set (db := Zdigits2 b) in *.
  assert (P : 2 ^ (db + 52) <= 2 ^ (da - 1) * 2 ^ (- Z.min (da - db - 53) 0)).
  { rewrite <- Z.pow_add_r by lia. apply Z.pow_le_mono_r; lia. }
  rewrite Z.pow_add_r in P by lia.
  assert (0 < 2 ^ (- Z.min (da - db - 53) 0)) by (apply Z.pow_pos_nonneg; lia).
  assert (0 < 2 ^ 52) by (apply Z.pow_pos_nonneg; lia).
  nia.
Qed.

Lemma int_truediv_frac (a b : Z) :
  0 < a -> 0 < b ->
  -1074 <= Zdigits2 a - Zdigits2 b - 53 ->
  Py.int_truediv a b =
  let q := normal_float
             (round_frac (a * 2 ^ div_shl a b) (b * 2 ^ div_shr a b))
             (div_shr a b - div_shl a b) in
  if Py.is_infinity q then Raise OverflowError else Ok q.
Proof.
  intros Ha Hb Hd. unfold Py.int_truediv.
  rewrite (proj2 (Z.eqb_neq b 0)), (proj2 (Z.eqb_neq a 0)) by lia.
  destruct a as [| a | a]; try lia. destruct b as [| b | b]; try lia.
  cbn [Py.exact_int SFdiv xorb].
  change Py.prec with 53. change Py.emax with 1024.
  rewrite SFdiv_core_binary_frac by exact Hd.
  pose proof (div_quotient_normal (Zpos a) (Zpos b) Ha Hb) as Hq.
  assert (Hs : 0 <= div_shl (Zpos a) (Zpos b)) by (unfold div_shl; lia).
  assert (Hs' : div_shl (Zpos a) (Zpos b) <= 1074 + 53 - 53) by (unfold div_shl; lia).
  rewrite binary_round_aux_frac.
  - fold (div_shr (Zpos a) (Zpos b)).
    replace (- div_shl (Z.pos a) (Z.pos b) + div_shr (Z.pos a) (Z.pos b))
      with (div_shr (Z.pos a) (Z.pos b) - div_shl (Z.pos a) (Z.pos b)) by lia.
    reflexivity.
  - apply Z.mul_nonneg_nonneg; [lia | apply Z.pow_nonneg; lia].
  - lia.
  - exact Hq.
  - fold (div_shr (Zpos a) (Zpos b)).
    assert (0 <= div_shr (Zpos a) (Zpos b)).
    { unfold div_shr.
      set (q := Z.pos a * 2 ^ div_shl (Z.pos a) (Z.pos b) / Z.pos b) in *.
      assert (0 < q) by (pose proof (Z.pow_pos_nonneg 2 52); lia).
      pose proof (Zdigits2_bounds q H).
      destruct (Z_lt_le_dec (Zdigits2 q) 53) as [L | L]; [| lia].
      assert (2 ^ Zdigits2 q <= 2 ^ 52) by (apply Z.pow_le_mono_r; lia). lia. }
    lia.
Qed.

Lemma pow2_52 : 2 ^ 52 = 4503599627370496.
Proof. vm_compute. reflexivity. Qed.

Lemma normal_float_cases (m e : Z) :
  2 ^ 52 <= m <= 2 ^ 53 -> e + 1 <= 971 ->
  (m < 2 ^ 53 /\ normal_float m e = S754_finite false (Z.to_pos m) e) \/
  (m = 2 ^ 53 /\ normal_float m e = S754_finite false (Z.to_pos (2 ^ 52)) (e + 1)).
Proof.
  intros Hm He. unfold normal_float.
  destruct (Z.ltb_spec m (2 ^ 53)).
  - left. split; [assumption |].
    rewrite (proj2 (Z.leb_le e 971)) by lia. reflexivity.
  - right. split; [lia |].
    rewrite (proj2 (Z.leb_le (e + 1) 971)) by lia. reflexivity.
Qed.

Lemma normal_float_normal (m e : Z) :
  2 ^ 52 <= m <= 2 ^ 53 -> e + 1 <= 971 ->
  normal e (e + 1) (normal_float m e).
Proof.
  intros Hm He.
  destruct (normal_float_cases m e Hm He) as [[L E] | [L E]]; rewrite E.
  - exists m, e. repeat split; lia.
  - exists (2 ^ 52), (e + 1). repeat split; lia.
Qed.

Lemma SFcompare_one (m e : Z) :
  0 < m ->
  SFcompare (S754_finite false (Z.to_pos m) e) Py.one =
  Some (match e ?= -52 with
        | Lt => Lt
        | Gt => Gt
        | Eq => m ?= 2 ^ 52
        end).
Proof.
  intros Hm. destruct m as [| p | p]; try lia.
  rewrite pow2_52.
  unfold SFcompare, Py.one, Z.to_pos.
  destruct (e ?= -52); [ | reflexivity | reflexivity ].
  unfold Z.compare, Pos.compare. reflexivity.
Qed.

Lemma SFcompare_one_l (m e : Z) :
  0 < m ->
  SFcompare Py.one (S754_finite false (Z.to_pos m) e) =
  Some (match -52 ?= e with
        | Lt => Lt
        | Gt => Gt
        | Eq => 2 ^ 52 ?= m
        end).
Proof.
  intros Hm. destruct m as [| p | p]; try lia.
  rewrite pow2_52.
  unfold SFcompare, Py.one, Z.to_pos.
  destruct (-52 ?= e); [ | reflexivity | reflexivity ].
  unfold Z.compare, Pos.compare. reflexivity.
Qed.

Lemma SFleb_one (m e : Z) :
  0 < m -> e < -52 \/ (e = -52 /\ m <= 2 ^ 52) ->
  SFleb (S754_finite false (Z.to_pos m) e) Py.one = true.
Proof.
  intros Hm H. unfold SFleb. rewrite SFcompare_one by assumption.
  destruct (Z.compare_spec e (-52)); try lia; try reflexivity.
  destruct (Z.compare_spec m (2 ^ 52)); try lia; reflexivity.
Qed.

Lemma SFltb_one (m e : Z) :
  0 < m ->
  SFltb Py.one (S754_finite false (Z.to_pos m) e) = true <->
  -52 < e \/ (e = -52 /\ 2 ^ 52 < m).
Proof.
  intros Hm. unfold SFltb. rewrite SFcompare_one_l by assumption.
  destruct (Z.compare_spec (-52) e); try (split; [intros ?; lia | reflexivity]);
    try (split; [discriminate | lia]).
  destruct (Z.compare_spec (2 ^ 52) m); split; try discriminate; try lia; reflexivity.
Qed.

Lemma at_least_one_finite (w m e : Z) :
  0 < m ->
  at_least_one w (S754_finite false (Z.to_pos m) e) <-> 2 ^ (- e) <= w * m.
Proof.
  intros Hm. unfold at_least_one. rewrite Z2Pos.id by lia. reflexivity.
Qed.

Lemma reaches_finite (K w m e : Z) :
  0 < m ->
  reaches K w (S754_finite false (Z.to_pos m) e) <-> K * 2 ^ (- e) <= w * m.
Proof.
  intros Hm. unfold reaches. rewrite Z2Pos.id by lia. reflexivity.
Qed.

Lemma reaches_mono (K w m e m' e' : Z) :
  0 < w -> 0 <= K -> 2 ^ 52 <= m < 2 ^ 53 -> 2 ^ 52 <= m' < 2 ^ 53 ->
  e < e' \/ (e = e' /\ m <= m') ->
  K * 2 ^ (- e) <= w * m -> K * 2 ^ (- e') <= w * m'.
Proof.
  intros Hw HK Hm Hm' Hle H.
  assert (P53 : 2 ^ 53 = 2 * 2 ^ 52) by reflexivity.
  assert (P52 : 0 < 2 ^ 52) by (apply Z.pow_pos_nonneg; lia).
  destruct Hle as [L | [-> L]]; [| nia].
  destruct (Z_lt_le_dec (- e') 0) as [Neg | Pos].
  - rewrite Z.pow_neg_r by lia. nia.
  - assert (E : 2 ^ (- e) = 2 ^ (- e') * 2 ^ (e' - e)).
    { rewrite <- Z.pow_add_r by lia. f_equal. lia. }
    assert (G : 2 ^ 1 <= 2 ^ (e' - e)) by (apply Z.pow_le_mono_r; lia).
    change (2 ^ 1) with 2 in G.
    assert (P : 0 < 2 ^ (- e')) by (apply Z.pow_pos_nonneg; lia).
    rewrite E in H.
    assert (2 * (K * 2 ^ (- e')) <= K * (2 ^ (- e') * 2 ^ (e' - e))) by nia.
    nia.
Qed.

Lemma SFltb_lt_one (m e : Z) :
  0 < m ->
  SFltb (S754_finite false (Z.to_pos m) e) Py.one = true <->
  e < -52 \/ (e = -52 /\ m < 2 ^ 52).
Proof.
  intros Hm. unfold SFltb. rewrite SFcompare_one by assumption.
  destruct (Z.compare_spec e (-52)); try (split; [intros ?; lia | reflexivity]);
    try (split; [discriminate | lia]).
  destruct (Z.compare_spec m (2 ^ 52)); split; try discriminate; try lia; reflexivity.
Qed.

Lemma SFleb_one_iff (m e : Z) :
  0 < m ->
  SFleb (S754_finite false (Z.to_pos m) e) Py.one = true <->
  e < -52 \/ (e = -52 /\ m <= 2 ^ 52).
Proof.
  intros Hm. unfold SFleb. rewrite SFcompare_one by assumption.
  destruct (Z.compare_spec e (-52)); try (split; [intros ?; lia | reflexivity]);
    try (split; [discriminate | lia]).
  destruct (Z.compare_spec m (2 ^ 52)); split; try discriminate; try lia; reflexivity.
Qed.

Lemma float_ne_one_iff (m e : Z) :
  0 < m ->
  Py.float_ne (S754_finite false (Z.to_pos m) e) Py.one = false <->
  e = -52 /\ m = 2 ^ 52.
Proof.
  intros Hm. unfold Py.float_ne, SFeqb. rewrite SFcompare_one by assumption.
  destruct (Z.compare_spec e (-52)); try (split; [discriminate | lia]).
  destruct (Z.compare_spec m (2 ^ 52)); split; try discriminate; try lia; reflexivity.
Qed.

Lemma stays_within_finite (K w m e : Z) :
  0 < m ->
  stays_within K w (S754_finite false (Z.to_pos m) e) <->
  w * m <= K * 2 ^ (- e) + w /\ w * 2 ^ 51 <= K * 2 ^ (- e).
Proof.
  intros Hm. unfold stays_within. rewrite Z2Pos.id by lia. reflexivity.
Qed.

Section Division.
Variables a b : Z.
Hypothesis Ha : 0 < a < 2 ^ 64.
Hypothesis Hb : 0 < b < 2 ^ 64.

Let s := div_shl a b.
Let n := div_shr a b.
Let N := a * 2 ^ s.
Let D1 := b * 2 ^ n.

Lemma div_digits_ok : -1074 <= Zdigits2 a - Zdigits2 b - 53.
Proof.
  pose proof (Zdigits2_bounds b ltac:(lia)) as Db.
  pose proof (Zdigits2_pos a ltac:(lia)).
  destruct (Z_lt_le_dec 65 (Zdigits2 b)) as [L | L]; [| lia].
  assert (2 ^ 64 <= 2 ^ (Zdigits2 b - 1)) by (apply Z.pow_le_mono_r; lia). lia.
Qed.

Lemma div_shl_nonneg : 0 <= s.
Proof. unfold s, div_shl. lia. Qed.

Lemma div_shr_nonneg : 0 <= n.
Proof.
  unfold n, div_shr.
  pose proof (div_quotient_normal a b ltac:(lia) ltac:(lia)) as Hq.
  set (q := a * 2 ^ div_shl a b / b) in *.
  assert (Hq0 : 0 < q) by (pose proof (Z.pow_pos_nonneg 2 52); lia).
  pose proof (Zdigits2_bounds q Hq0).
  destruct (Z_lt_le_dec (Zdigits2 q) 53) as [L | L]; [| lia].
  assert (2 ^ Zdigits2 q <= 2 ^ 52) by (apply Z.pow_le_mono_r; lia). lia.
Qed.

Lemma div_D1_pos : 0 < D1.
Proof.
  unfold D1. apply Z.mul_pos_pos; [lia |].
  apply Z.pow_pos_nonneg; [lia | apply div_shr_nonneg].
Qed.

Lemma div_mantissa_bounds : 2 ^ 52 <= N / D1 < 2 ^ 53.
Proof.
  pose proof div_shr_nonneg as Hn. pose proof div_shl_nonneg as Hs.
  pose proof (div_quotient_normal a b ltac:(lia) ltac:(lia)) as Hq.
  fold s in Hq. fold N in Hq.
  assert (Hq0 : 0 < N / b) by (pose proof (Z.pow_pos_nonneg 2 52); lia).
  pose proof (Zdigits2_bounds _ Hq0) as Hd.
  unfold D1. rewrite <- Z.div_div by (try apply Z.pow_pos_nonneg; lia).
  apply div_pow2_bounds; [exact Hn |].
  replace (52 + n) with (Zdigits2 (N / b) - 1) by (unfold n, div_shr, N, s; lia).
  replace (53 + n) with (Zdigits2 (N / b)) by (unfold n, div_shr, N, s; lia).
  exact Hd.
Qed.

Lemma div_bracket : N / D1 * D1 <= N < (N / D1 + 1) * D1.
Proof.
  pose proof div_D1_pos as HD.
  pose proof (Z.div_mod N D1 ltac:(lia)).
  pose proof (Z.mod_pos_bound N D1 HD). nia.
Qed.

(** The exponent before renormalisation lies within 64 of [-52]. *)
Lemma div_exponent_bounds : -117 < n - s < 12.
Proof.
  pose proof div_shr_nonneg as Hn. pose proof div_shl_nonneg as Hs.
  pose proof div_mantissa_bounds as Hm. pose proof div_bracket as Hbr.
  assert (Pn : 0 < 2 ^ n) by (apply Z.pow_pos_nonneg; lia).
  assert (Ps : 0 < 2 ^ s) by (apply Z.pow_pos_nonneg; lia).
  unfold N, D1 in *.
  set (m' := a * 2 ^ s / (b * 2 ^ n)) in *.
  split.
  - (* 2^s <= a 2^s < 2^53 b 2^n < 2^(117+n) *)
    assert (L : 2 ^ s < 2 ^ (117 + n)).
    { rewrite Z.pow_add_r by lia. change (2 ^ 117) with (2 ^ 53 * 2 ^ 64). nia. }
    apply Z.pow_lt_mono_r_iff in L; lia.
  - assert (L : 2 ^ (52 + n) < 2 ^ (64 + s)).
    { rewrite !Z.pow_add_r by lia. nia. }
    apply Z.pow_lt_mono_r_iff in L; lia.
Qed.

Lemma int_truediv_normal :
  exists q, Py.int_truediv a b = Ok q /\
            q = normal_float (round_frac N D1) (n - s) /\
            normal (n - s) (n - s + 1) q.
Proof.
  pose proof div_exponent_bounds as He.
  pose proof div_mantissa_bounds as Hm.
  pose proof (round_frac_bounds N D1 div_D1_pos) as Hr.
  assert (Hnorm : normal (n - s) (n - s + 1) (normal_float (round_frac N D1) (n - s))).
  { apply normal_float_normal; lia. }
  exists (normal_float (round_frac N D1) (n - s)).
  split; [| split; [reflexivity | exact Hnorm]].
  rewrite int_truediv_frac by (try apply div_digits_ok; lia).
  fold s. fold n. fold N. fold D1. cbv zeta.
  destruct Hnorm as (m & e & E & _). rewrite E. reflexivity.
Qed.

Lemma int_truediv_le_one :
  a <= b ->
  exists q, Py.int_truediv a b = Ok q /\ SFleb q Py.one = true.
Proof.
  intros Hab.
  destruct int_truediv_normal as (q & Eq & Eqv & _).
  exists q. split; [exact Eq |]. subst q.
  pose proof div_shr_nonneg as Hn. pose proof div_shl_nonneg as Hs.
  pose proof div_mantissa_bounds as Hm. pose proof div_bracket as Hbr.
  pose proof div_exponent_bounds as He.
  pose proof div_D1_pos as HD1.
  pose proof (round_frac_bounds N D1 HD1) as Hr.
  assert (Pn : 0 < 2 ^ n) by (apply Z.pow_pos_nonneg; lia).
  assert (Ps : 0 < 2 ^ s) by (apply Z.pow_pos_nonneg; lia).
  assert (P52 : 0 < 2 ^ 52) by (apply Z.pow_pos_nonneg; lia).
  (* m' 2^n <= 2^s *)
  assert (L0 : N / D1 * 2 ^ n <= 2 ^ s).
  { unfold N, D1 in *. set (m' := a * 2 ^ s / (b * 2 ^ n)) in *. nia. }
  assert (L : 2 ^ (52 + n) <= 2 ^ s) by (rewrite Z.pow_add_r by lia; nia).
  apply Z.pow_le_mono_r_iff in L; try lia.
  assert (Hexact : 52 + n = s -> round_frac N D1 = 2 ^ 52).
  { intros E.
    assert (Em : N / D1 = 2 ^ 52).
    { rewrite <- E, Z.pow_add_r in L0 by lia. nia. }
    assert (EN : N = 2 ^ 52 * D1).
    { unfold N, D1 in *. rewrite <- E in *. rewrite Z.pow_add_r in * by lia.
      set (m' := a * (2 ^ 52 * 2 ^ n) / (b * 2 ^ n)) in *. nia. }
    unfold round_frac, loc_of_rem.
    rewrite EN, Z.mod_mul, Z.div_mul by lia. reflexivity. }
  destruct (normal_float_cases (round_frac N D1) (n - s) ltac:(lia) ltac:(lia))
    as [[Lt E] | [Lt E]]; rewrite E.
  - apply SFleb_one; [lia |].
    destruct (Z.eq_dec (52 + n) s) as [E' | E']; [right | left; lia].
    split; [lia |]. rewrite Hexact by assumption. lia.
  - apply SFleb_one; [lia |].
    destruct (Z.eq_dec (52 + n) s) as [E' | E'].
    + rewrite Hexact in Lt by assumption. 
      assert (2 ^ 52 < 2 ^ 53) by (apply Z.pow_lt_mono_r; lia). lia.
    + destruct (Z.eq_dec (n - s + 1) (-52)); [right | left]; lia.
Qed.

Lemma round_frac_above (N' D' : Z) :
  0 < D' -> D' < 2 * (N' mod D') -> round_frac N' D' = N' / D' + 1.
Proof.
  intros HD H. unfold round_frac, loc_of_rem, round_nearest_even.
  destruct (Z.eqb_spec (N' mod D') 0); [lia |].
  destruct (Z.compare_spec (2 * (N' mod D')) D'); try lia.
Qed.

Lemma int_truediv_gt_one :
  b < a -> b < 2 ^ 53 ->
  exists q, Py.int_truediv a b = Ok q /\ SFltb Py.one q = true.
Proof.
  intros Hab Hb53.
  destruct int_truediv_normal as (q & Eq & Eqv & _).
  exists q. split; [exact Eq |]. subst q.
  pose proof div_shr_nonneg as Hn. pose proof div_shl_nonneg as Hs.
  pose proof div_mantissa_bounds as Hm. pose proof div_bracket as Hbr.
  pose proof div_exponent_bounds as He.
  pose proof div_D1_pos as HD1.
  pose proof (round_frac_bounds N D1 HD1) as Hr.
  assert (Pn : 0 < 2 ^ n) by (apply Z.pow_pos_nonneg; lia).
  assert (Ps : 0 < 2 ^ s) by (apply Z.pow_pos_nonneg; lia).
  assert (P52 : 0 < 2 ^ 52) by (apply Z.pow_pos_nonneg; lia).
  assert (P53 : 2 ^ 53 = 2 * 2 ^ 52) by reflexivity.
  assert (L : 2 ^ s < 2 ^ (53 + n)).
  { rewrite Z.pow_add_r by lia.
    unfold N, D1 in *. set (m' := a * 2 ^ s / (b * 2 ^ n)) in *. nia. }
  apply Z.pow_lt_mono_r_iff in L; try lia.
  assert (Hup : s = 52 + n -> 2 ^ 52 < round_frac N D1).
  { intros E.
    destruct (Z.eq_dec (N / D1) (2 ^ 52)) as [Em | Em]; [| lia].
    rewrite round_frac_above; [lia | lia |].
    pose proof (Z.div_mod N D1 ltac:(lia)) as Edm.
    rewrite Em in Edm.
    unfold N, D1 in *. rewrite E in *. rewrite Z.pow_add_r in * by lia.
    set (r := (a * (2 ^ 52 * 2 ^ n)) mod (b * 2 ^ n)) in *. nia. }
  destruct (normal_float_cases (round_frac N D1) (n - s) ltac:(lia) ltac:(lia))
    as [[Lt E] | [Lt E]]; rewrite E.
  - apply SFltb_one; [lia |].
    destruct (Z.eq_dec s (52 + n)) as [E' | E']; [right | left; lia].
    split; [lia |]. apply Hup. assumption.
  - apply SFltb_one; [lia |]. left. lia.
Qed.

(** For [a < b], the quotient is strictly below [1.0]. *)
Lemma int_truediv_lt_one :
  a < b -> b < 2 ^ 53 ->
  exists q, Py.int_truediv a b = Ok q /\ SFltb q Py.one = true.
Proof.
  intros Hab Hb53.
  destruct int_truediv_normal as (q & Eq & Eqv & _).
  exists q. split; [exact Eq |]. subst q.
  pose proof div_shr_nonneg as Hn. pose proof div_shl_nonneg as Hs.
  pose proof div_mantissa_bounds as Hm. pose proof div_bracket as Hbr.
  pose proof div_exponent_bounds as He.
  pose proof div_D1_pos as HD1.
  pose proof (round_frac_bounds N D1 HD1) as Hr.
  assert (Pn : 0 < 2 ^ n) by (apply Z.pow_pos_nonneg; lia).
  assert (Ps : 0 < 2 ^ s) by (apply Z.pow_pos_nonneg; lia).
  assert (P52 : 0 < 2 ^ 52) by (apply Z.pow_pos_nonneg; lia).
  assert (P53 : 2 ^ 53 = 2 * 2 ^ 52) by reflexivity.
  (* m' b 2^n <= a 2^s < b 2^s, so 2^(52+n) < 2^s *)
  assert (L : 2 ^ (52 + n) < 2 ^ s).
  { rewrite Z.pow_add_r by lia.
    unfold N, D1 in *. set (m' := a * 2 ^ s / (b * 2 ^ n)) in *. nia. }
  apply Z.pow_lt_mono_r_iff in L; try lia.
  destruct (normal_float_cases (round_frac N D1) (n - s) ltac:(lia) ltac:(lia))
    as [[Lt E] | [Lt E]]; rewrite E.
  - apply SFltb_lt_one; [lia |]. left. lia.
  - apply SFltb_lt_one; [lia |].
    destruct (Z.eq_dec s (53 + n)) as [E' | E']; [| left; lia].
    exfalso.
    assert (EQ : N / D1 = 2 ^ 53 - 1) by lia.
    assert (Hup : D1 <= 2 * (N mod D1)) by (apply round_frac_up; lia).
    pose proof (Z.div_mod N D1 ltac:(lia)) as Edm.
    rewrite EQ in Edm.
    unfold N, D1 in *. rewrite E' in *. rewrite Z.pow_add_r in * by lia.
    set (r := (a * (2 ^ 53 * 2 ^ n)) mod (b * 2 ^ n)) in *.
    assert (K1 : 2 ^ 53 * (b - a) * 2 ^ n + r = b * 2 ^ n) by nia.
    assert (K2 : 1 <= b - a) by lia.
    assert (K3 : 2 ^ 53 * 2 ^ n <= 2 ^ 53 * (b - a) * 2 ^ n) by nia.
    assert (K4 : 0 <= r) by lia.
    nia.
Qed.

(** [a / a] is [1.0]. *)
Lemma int_truediv_eq_one :
  a = b ->
  exists q, Py.int_truediv a b = Ok q /\ Py.float_ne q Py.one = false.
Proof.
  intros Hab.
  destruct int_truediv_normal as (q & Eq & Eqv & _).
  exists q. split; [exact Eq |]. subst q.
  pose proof div_shr_nonneg as Hn. pose proof div_shl_nonneg as Hs.
  pose proof div_mantissa_bounds as Hm. pose proof div_bracket as Hbr.
  pose proof div_exponent_bounds as He.
  pose proof div_D1_pos as HD1.
  pose proof (round_frac_bounds N D1 HD1) as Hr.
  assert (Pn : 0 < 2 ^ n) by (apply Z.pow_pos_nonneg; lia).
  assert (Ps : 0 < 2 ^ s) by (apply Z.pow_pos_nonneg; lia).
  assert (P52 : 0 < 2 ^ 52) by (apply Z.pow_pos_nonneg; lia).
  assert (P53 : 2 ^ 53 = 2 * 2 ^ 52) by reflexivity.
  assert (L1 : 2 ^ (52 + n) <= 2 ^ s).
  { rewrite Z.pow_add_r by lia.
    unfold N, D1 in *. set (m' := a * 2 ^ s / (b * 2 ^ n)) in *. nia. }
  assert (L2 : 2 ^ s < 2 ^ (53 + n)).
  { rewrite Z.pow_add_r by lia.
    unfold N, D1 in *. set (m' := a * 2 ^ s / (b * 2 ^ n)) in *. nia. }
  apply Z.pow_le_mono_r_iff in L1; try lia.
  apply Z.pow_lt_mono_r_iff in L2; try lia.
  assert (Es : s = 52 + n) by lia.
  assert (EN : N = 2 ^ 52 * D1).
  { unfold N, D1. rewrite Es, Z.pow_add_r by lia. subst b. ring. }
  assert (Er : round_frac N D1 = 2 ^ 52).
  { unfold round_frac, loc_of_rem.
    rewrite EN, Z.mod_mul, Z.div_mul by lia. reflexivity. }
  destruct (normal_float_cases (round_frac N D1) (n - s) ltac:(lia) ltac:(lia))
    as [[Lt E] | [Lt E]]; rewrite E.
  - apply float_ne_one_iff; lia.
  - lia.
Qed.

(** The quotient [a / b] times [b] is at least [a - 1]. *)
Lemma int_truediv_reaches :
  a <= 2 ^ 52 ->
  exists q, Py.int_truediv a b = Ok q /\ reaches (a - 1) b q.
Proof.
  intros Ha52.
  destruct int_truediv_normal as (q & Eq & Eqv & _).
  exists q. split; [exact Eq |]. subst q.
  pose proof div_shr_nonneg as Hn. pose proof div_shl_nonneg as Hs.
  pose proof div_mantissa_bounds as Hm. pose proof div_bracket as Hbr.
  pose proof div_exponent_bounds as He.
  pose proof div_D1_pos as HD1.
  pose proof (round_frac_bounds N D1 HD1) as Hr.
  assert (Pn : 0 < 2 ^ n) by (apply Z.pow_pos_nonneg; lia).
  assert (Ps : 0 < 2 ^ s) by (apply Z.pow_pos_nonneg; lia).
  assert (P52 : 0 < 2 ^ 52) by (apply Z.pow_pos_nonneg; lia).
  assert (P53 : 2 ^ 53 = 2 * 2 ^ 52) by reflexivity.
  (* b 2^n <= 2^s *)
  assert (Hb2 : b * 2 ^ n <= 2 ^ s).
  { unfold N, D1 in *. set (m' := a * 2 ^ s / (b * 2 ^ n)) in *.
    assert (2 ^ 52 * (b * 2 ^ n) <= 2 ^ 52 * 2 ^ s) by nia. nia. }
  (* (a - 1) 2^s < (m' + 1) b 2^n - b 2^n *)
  assert (Key : (a - 1) * 2 ^ s < N / D1 * (b * 2 ^ n)).
  { unfold N, D1 in *. set (m' := a * 2 ^ s / (b * 2 ^ n)) in *. nia. }
  destruct (normal_float_cases (round_frac N D1) (n - s) ltac:(lia) ltac:(lia))
    as [[Lt E] | [Lt E]]; rewrite E.
  - apply reaches_finite; [lia |].
    replace (- (n - s)) with (s - n) by lia.
    destruct (Z_lt_le_dec (s - n) 0) as [Neg | Pos].
    + rewrite Z.pow_neg_r by lia. nia.
    + assert (Es : 2 ^ s = 2 ^ (s - n) * 2 ^ n).
      { rewrite <- Z.pow_add_r by lia. f_equal. lia. }
      rewrite Es in Key.
      assert (P : 0 < 2 ^ (s - n)) by (apply Z.pow_pos_nonneg; lia).
      assert ((a - 1) * 2 ^ (s - n) < N / D1 * b) by nia.
      nia.
  - apply reaches_finite; [lia |].
    replace (- (n - s + 1)) with (s - n - 1) by lia.
    destruct (Z_lt_le_dec (s - n - 1) 0) as [Neg | Pos].
    + rewrite Z.pow_neg_r by lia. nia.
    + assert (Es : 2 ^ s = 2 * 2 ^ (s - n - 1) * 2 ^ n).
      { rewrite <- Z.pow_succ_r, <- Z.pow_add_r by lia. f_equal. lia. }
      rewrite Es in Key.
      assert (P : 0 < 2 ^ (s - n - 1)) by (apply Z.pow_pos_nonneg; lia).
      assert (2 * ((a - 1) * 2 ^ (s - n - 1)) < N / D1 * b) by nia.
      nia.
Qed.

(** The quotient [a / b] times [b] exceeds [a] by a small fraction at
    most. *)
Lemma int_truediv_stays :
  a < 2 ^ 52 ->
  exists q, Py.int_truediv a b = Ok q /\ stays_within a b q.
Proof.
  intros Ha52.
  destruct int_truediv_normal as (q & Eq & Eqv & _).
  exists q. split; [exact Eq |]. subst q.
  pose proof div_shr_nonneg as Hn. pose proof div_shl_nonneg as Hs.
  pose proof div_mantissa_bounds as Hm. pose proof div_bracket as Hbr.
  pose proof div_exponent_bounds as He.
  pose proof div_D1_pos as HD1.
  pose proof (round_frac_bounds N D1 HD1) as Hr.
  assert (Pn : 0 < 2 ^ n) by (apply Z.pow_pos_nonneg; lia).
  assert (Ps : 0 < 2 ^ s) by (apply Z.pow_pos_nonneg; lia).
  assert (P52 : 0 < 2 ^ 52) by (apply Z.pow_pos_nonneg; lia).
  assert (P53 : 2 ^ 53 = 2 * 2 ^ 52) by reflexivity.
  assert (P51 : 2 ^ 52 = 2 * 2 ^ 51) by reflexivity.
  (* 2^52 b 2^n <= a 2^s with a < 2^52: n < s *)
  assert (L : 2 ^ n < 2 ^ s).
  { unfold N, D1 in *. set (m' := a * 2 ^ s / (b * 2 ^ n)) in *.
    assert (2 ^ 52 * (b * 2 ^ n) <= a * 2 ^ s) by nia. nia. }
  apply Z.pow_lt_mono_r_iff in L; try lia.
  assert (Es : 2 ^ s = 2 * 2 ^ (s - n - 1) * 2 ^ n).
  { rewrite <- Z.pow_succ_r, <- Z.pow_add_r by lia. f_equal. lia. }
  assert (Es' : 2 ^ (s - n) = 2 * 2 ^ (s - n - 1)).
  { rewrite <- Z.pow_succ_r by lia. f_equal. lia. }
  assert (P : 0 < 2 ^ (s - n - 1)) by (apply Z.pow_pos_nonneg; lia).
  assert (Key : N / D1 * b <= a * (2 * 2 ^ (s - n - 1))).
  { unfold N, D1 in *. set (m' := a * 2 ^ s / (b * 2 ^ n)) in *.
    rewrite Es in Hbr. nia. }
  destruct (normal_float_cases (round_frac N D1) (n - s) ltac:(lia) ltac:(lia))
    as [[Lt E] | [Lt E]]; rewrite E.
  - apply stays_within_finite; [lia |].
    replace (- (n - s)) with (s - n) by lia. rewrite Es'. split; nia.
  - apply stays_within_finite; [lia |].
    replace (- (n - s + 1)) with (s - n - 1) by lia.
    assert (EQ : N / D1 = 2 ^ 53 - 1) by lia.
    rewrite EQ in Key. split; nia.
Qed.

End Division.

Lemma pos_iter_xO (d p : positive) :
  Zpos (Pos.iter xO p d) = Zpos p * 2 ^ Zpos d.
Proof.
  induction d using Pos.peano_ind.
  - cbn [Pos.iter]. rewrite Pos2Z.inj_xO. change (2 ^ 1) with 2. ring.
  - rewrite Pos.iter_succ, Pos2Z.inj_xO, IHd, Pos2Z.inj_succ, Z.pow_succ_r by lia.
    ring.
Qed.

Lemma binary_round_aux_exact (m ex : Z) :
  2 ^ 52 <= m ->
  -1074 <= ex + (Zdigits2 m - 53) ->
  binary_round_aux 53 1024 false m ex loc_Exact =
  normal_float (round_frac m (2 ^ (Zdigits2 m - 53))) (ex + (Zdigits2 m - 53)).
Proof.
  intros Hm He.
  assert (P52 : 0 < 2 ^ 52) by (apply Z.pow_pos_nonneg; lia).
  pose proof (binary_round_aux_frac m 1 ex ltac:(lia) ltac:(lia)) as H.
  rewrite Z.div_1_r, Z.mod_1_r, Z.mul_1_l in H.
  exact (H Hm He).
Qed.

Lemma round_frac_exact (m : Z) : round_frac m 1 = m.
Proof. unfold round_frac. rewrite Z.div_1_r, Z.mod_1_r. reflexivity. Qed.

Lemma digits_le_53 (w : Z) : 0 < w < 2 ^ 53 -> 0 < Zdigits2 w <= 53.
Proof.
  intros Hw.
  pose proof (Zdigits2_bounds w ltac:(lia)) as Hd.
  pose proof (Zdigits2_pos w ltac:(lia)) as Hdp.
  split; [assumption |].
  destruct (Z_lt_le_dec 53 (Zdigits2 w)) as [L | L]; [| lia].
  assert (2 ^ 53 <= 2 ^ (Zdigits2 w - 1)) by (apply Z.pow_le_mono_r; lia).
  lia.
Qed.

Lemma scale_to_53 (w : Z) :
  0 < w < 2 ^ 53 -> 2 ^ 52 <= w * 2 ^ (53 - Zdigits2 w) < 2 ^ 53.
Proof.
  intros Hw.
  pose proof (Zdigits2_bounds w ltac:(lia)) as Hd.
  pose proof (digits_le_53 w Hw) as Hd53.
  set (d := Zdigits2 w) in *.
  assert (E1 : 2 ^ 52 = 2 ^ (d - 1) * 2 ^ (53 - d)).
  { rewrite <- Z.pow_add_r by lia. f_equal. lia. }
  assert (E2 : 2 ^ 53 = 2 ^ d * 2 ^ (53 - d)).
  { rewrite <- Z.pow_add_r by lia. f_equal. lia. }
  assert (0 < 2 ^ (53 - d)) by (apply Z.pow_pos_nonneg; lia).
  rewrite E1, E2. nia.
Qed.

(** [float(w)] is exact below [2^53]. *)
Lemma float_of_int_exact (w : Z) :
  0 < w < 2 ^ 53 ->
  Py.float_of_int w =
  Ok (S754_finite false (Z.to_pos (w * 2 ^ (53 - Zdigits2 w))) (Zdigits2 w - 53)).
Proof.
  intros Hw.
  destruct w as [| p | p]; try lia.
  pose proof (Zdigits2_bounds (Zpos p) ltac:(lia)) as Hd.
  pose proof (Zdigits2_pos (Zpos p) ltac:(lia)) as Hdp.
  assert (Hd53 : Zdigits2 (Zpos p) <= 53).
  { destruct (Z_lt_le_dec 53 (Zdigits2 (Zpos p))) as [L | L]; [| lia].
    assert (2 ^ 53 <= 2 ^ (Zdigits2 (Zpos p) - 1)) by (apply Z.pow_le_mono_r; lia).
    lia. }
  unfold Py.float_of_int, binary_normalize, binary_round.
  change Py.prec with 53. change Py.emax with 1024.
  change (Zpos (digits2_pos p)) with (Zdigits2 (Zpos p)).
  rewrite Z.add_0_r, fexp_normal by lia.
  set (d := Zdigits2 (Zpos p)) in *.
  assert (Hal : exists mz, shl_align p 0 (d - 53) = (mz, d - 53) /\
                           Zpos mz = Zpos p * 2 ^ (53 - d)).
  { unfold shl_align. rewrite Z.sub_0_r.
    destruct (d - 53) as [| q | q] eqn:E; try lia.
    - exists p. split; [reflexivity |].
      replace (53 - d) with 0 by lia. rewrite Z.pow_0_r. lia.
    - exists (Pos.iter xO p q). split; [reflexivity |].
      rewrite pos_iter_xO. f_equal. f_equal. lia. }
  destruct Hal as (mz & Eal & Emz). rewrite Eal.
  assert (Hmz : 2 ^ 52 <= Zpos mz < 2 ^ 53).
  { rewrite Emz. apply (scale_to_53 (Zpos p)). lia. }
  assert (Hdz : Zdigits2 (Zpos mz) = 53).
  { apply Zdigits2_unique; [change (53 - 1) with 52 |]; lia. }
  rewrite binary_round_aux_exact by (rewrite ?Hdz; lia).
  rewrite Hdz. replace (53 - 53) with 0 by lia.
  rewrite Z.pow_0_r, round_frac_exact, Z.add_0_r.
  unfold normal_float.
  rewrite (proj2 (Z.ltb_lt _ _)) by lia.
  rewrite (proj2 (Z.leb_le _ _)) by lia.
  rewrite <- Emz. reflexivity.
Qed.

Lemma int_of_float_finite (m e : Z) :
  0 < m ->
  Py.int_of_float (S754_finite false (Z.to_pos m) e) = Ok (Z.shiftl m e).
Proof.
  intros Hm. unfold Py.int_of_float. rewrite Z2Pos.id by lia. reflexivity.
Qed.

Lemma shiftl_ge_one (m e : Z) :
  2 ^ 52 <= m -> -52 <= e -> 1 <= Z.shiftl m e.
Proof.
  intros Hm He.
  assert (P52 : 0 < 2 ^ 52) by (apply Z.pow_pos_nonneg; lia).
  destruct (Z_lt_le_dec e 0) as [L | L].
  - rewrite <- (Z.opp_involutive e), Z.shiftl_opp_r, Z.shiftr_div_pow2 by lia.
    apply Z.div_le_lower_bound; [apply Z.pow_pos_nonneg; lia |].
    assert (2 ^ (- e) <= 2 ^ 52) by (apply Z.pow_le_mono_r; lia). lia.
  - rewrite Z.shiftl_mul_pow2 by lia.
    assert (0 < 2 ^ e) by (apply Z.pow_pos_nonneg; lia). nia.
Qed.

Lemma int_mul_float_normal (w ms es : Z) :
  0 < w < 2 ^ 53 ->
  2 ^ 52 <= ms < 2 ^ 53 ->
  -400 <= es <= 400 ->
  exists mp ep,
    Py.int_mul_float w (S754_finite false (Z.to_pos ms) es) =
      Ok (S754_finite false (Z.to_pos mp) ep) /\
    2 ^ 52 <= mp < 2 ^ 53 /\
    Zdigits2 w + es - 1 <= ep <= Zdigits2 w + es + 1 /\
    Zdigits2 w + es + Zdigits2 (w * 2 ^ (53 - Zdigits2 w) * ms) - 106 <= ep.
Proof.
  intros Hw Hms Hes.
  assert (P52 : 0 < 2 ^ 52) by (apply Z.pow_pos_nonneg; lia).
  pose proof (Zdigits2_bounds w ltac:(lia)) as Hd.
  pose proof (Zdigits2_pos w ltac:(lia)) as Hdp.
  assert (Hd53 : Zdigits2 w <= 53).
  { destruct (Z_lt_le_dec 53 (Zdigits2 w)) as [L | L]; [| lia].
    assert (2 ^ 53 <= 2 ^ (Zdigits2 w - 1)) by (apply Z.pow_le_mono_r; lia).
    lia. }
  unfold Py.int_mul_float. rewrite float_of_int_exact by assumption.
  cbn [bind].
  set (d := Zdigits2 w) in *.
  set (mw := w * 2 ^ (53 - d)).
  assert (Hmw : 2 ^ 52 <= mw < 2 ^ 53) by (apply scale_to_53; lia).
  change Py.prec with 53. change Py.emax with 1024.
  unfold SFmul. cbn [xorb].
  rewrite Pos2Z.inj_mul, !Z2Pos.id by lia.
  set (N := mw * ms).
  assert (HN : 2 ^ 104 <= N < 2 ^ 106).
  { unfold N. change (2 ^ 104) with (2 ^ 52 * 2 ^ 52).
    change (2 ^ 106) with (2 ^ 53 * 2 ^ 53). nia. }
  assert (HdN : Zdigits2 N = 105 \/ Zdigits2 N = 106).
  { destruct (Z_lt_le_dec N (2 ^ 105)).
    - left. apply Zdigits2_unique; [change (105 - 1) with 104 |]; lia.
    - right. apply Zdigits2_unique; [change (106 - 1) with 105 |]; lia. }
  set (n := Zdigits2 N - 53) in *.
  assert (Hq : 2 ^ 52 <= N) by (assert (2 ^ 52 <= 2 ^ 104) by (apply Z.pow_le_mono_r; lia); lia).
  rewrite binary_round_aux_exact by (fold n; lia).
  fold n.
  assert (Hn : 0 <= n) by (unfold n; lia).
  assert (Pn : 0 < 2 ^ n) by (apply Z.pow_pos_nonneg; lia).
  assert (Hm' : 2 ^ 52 <= N / 2 ^ n < 2 ^ 53).
  { apply div_pow2_bounds; [lia |].
    pose proof (Zdigits2_bounds N ltac:(lia)) as HdN'.
    replace (52 + n) with (Zdigits2 N - 1) by (unfold n; lia).
    replace (53 + n) with (Zdigits2 N) by (unfold n; lia). exact HdN'. }
  pose proof (round_frac_bounds N (2 ^ n) Pn) as Hr.
  destruct (normal_float_cases (round_frac N (2 ^ n)) (d - 53 + es + n)
              ltac:(lia) ltac:(unfold n; lia)) as [[L E] | [L E]]; rewrite E.
  - exists (round_frac N (2 ^ n)), (d - 53 + es + n).
    split; [reflexivity |]. split; [lia | unfold n; lia].
  - exists (2 ^ 52), (d - 53 + es + n + 1).
    split; [reflexivity |]. split; [lia | unfold n; lia].
Qed.

Section Geometry.
Context `{PIL.Pillow}.

Lemma to_rgb_size (image : PIL.image) : PIL.size (to_rgb image) = PIL.size image.
Proof.
  unfold to_rgb.
  destruct image as [m w h px]. destruct m; reflexivity.
Qed.

Lemma to_rgb_mode (image : PIL.image) : PIL.mode (to_rgb image) = PIL.RGB.
Proof.
  unfold to_rgb.
  destruct image as [m w h px]. destruct m; reflexivity.
Qed.

Lemma to_rgb_width (image : PIL.image) : PIL.width (to_rgb image) = PIL.width image.
Proof. exact (f_equal fst (to_rgb_size image)). Qed.

Lemma to_rgb_height (image : PIL.image) : PIL.height (to_rgb image) = PIL.height image.
Proof. exact (f_equal snd (to_rgb_size image)). Qed.

Lemma c_int_true (z : Z) : - PIL.INT_MAX - 1 <= z <= PIL.INT_MAX -> PIL.c_int z = true.
Proof.
  intros Hz. unfold PIL.c_int.
  rewrite (proj2 (Z.leb_le _ _)), (proj2 (Z.leb_le _ _)) by lia. reflexivity.
Qed.

Lemma c_int_inv (z : Z) : PIL.c_int z = true -> - PIL.INT_MAX - 1 <= z <= PIL.INT_MAX.
Proof.
  unfold PIL.c_int. intros E. apply andb_prop in E. destruct E as [A B].
  apply Z.leb_le in A, B. lia.
Qed.

Lemma decompression_bomb_false (w h : Z) :
  0 < w -> 0 < h -> w * h <= 2 * PIL.MAX_IMAGE_PIXELS ->
  PIL.decompression_bomb w h = false.
Proof.
  intros Hw Hh Hp. unfold PIL.decompression_bomb.
  rewrite (Z.max_r 1 w), (Z.max_r 1 h) by lia. apply Z.ltb_ge. exact Hp.
Qed.

Lemma decompression_bomb_true (w h : Z) :
  0 < w -> 0 < h -> 2 * PIL.MAX_IMAGE_PIXELS < w * h ->
  PIL.decompression_bomb w h = true.
Proof.
  intros Hw Hh Hp. unfold PIL.decompression_bomb.
  rewrite (Z.max_r 1 w), (Z.max_r 1 h) by lia. apply Z.ltb_lt. exact Hp.
Qed.

Lemma crop_ok (im : PIL.image) (x0 y0 x1 y1 : Z) :
  x0 <= x1 -> y0 <= y1 ->
  PIL.decompression_bomb (x1 - x0) (y1 - y0) = false ->
  - PIL.INT_MAX - 1 <= x0 -> - PIL.INT_MAX - 1 <= y0 ->
  x1 <= PIL.INT_MAX -> y1 <= PIL.INT_MAX ->
  PIL.fits (x1 - x0) (y1 - y0) = true ->
  exists c, PIL.crop im (x0, y0, x1, y1) = Ok c /\
            PIL.mode c = PIL.mode im /\
            PIL.size c = (x1 - x0, y1 - y0) /\
            (forall x y, PIL.inside im (x + x0) (y + y0) = false ->
                         PIL.getpixel c x y = PIL.zero_pixel (PIL.mode im)) /\
            (forall x y, PIL.inside im (x + x0) (y + y0) = true ->
                         PIL.getpixel c x y = PIL.getpixel im (x + x0) (y + y0)).
Proof.
  intros Hx Hy Hb Hx0 Hy0 Hx1 Hy1 Hf. unfold PIL.crop.
  rewrite (proj2 (Z.ltb_ge x1 x0)), (proj2 (Z.ltb_ge y1 y0)) by lia.
  rewrite Hb, Hf, !c_int_true by lia. cbn [andb negb].
  eexists. split; [reflexivity |].
  cbn [PIL.mode PIL.size PIL.width PIL.height PIL.getpixel].
  repeat split; intros x y E; rewrite E; reflexivity.
Qed.

Lemma crop_inv (im c : PIL.image) (x0 y0 x1 y1 : Z) :
  PIL.crop im (x0, y0, x1, y1) = Ok c ->
  x0 <= x1 /\ y0 <= y1 /\
  PIL.mode c = PIL.mode im /\
  PIL.size c = (x1 - x0, y1 - y0) /\
  (forall x y, PIL.inside im (x + x0) (y + y0) = false ->
               PIL.getpixel c x y = PIL.zero_pixel (PIL.mode im)).
Proof.
  unfold PIL.crop.
  destruct (Z.ltb_spec x1 x0); [discriminate |].
  destruct (Z.ltb_spec y1 y0); [discriminate |].
  destruct (PIL.decompression_bomb _ _); [discriminate |].
  destruct (negb _); [discriminate |].
  destruct (negb _); [discriminate |].
  intros E. injection E as <-.
  cbn [PIL.mode PIL.size PIL.width PIL.height PIL.getpixel].
  repeat split; try lia. intros x y E; rewrite E; reflexivity.
Qed.

Lemma crop_bomb_inv (im c : PIL.image) (x0 y0 x1 y1 : Z) :
  PIL.crop im (x0, y0, x1, y1) = Ok c ->
  PIL.decompression_bomb (x1 - x0) (y1 - y0) = false.
Proof.
  unfold PIL.crop.
  destruct (x1 <? x0); [discriminate |].
  destruct (y1 <? y0); [discriminate |].
  destruct (PIL.decompression_bomb _ _); [discriminate | reflexivity].
Qed.

Lemma fit_image_inv (image : PIL.image) (s : screens) (f : fitted) :
  fit_image image s = Ok f ->
  exists sc scaled_image u l,
    compute_scaling (PIL.width image) (PIL.height image) s = Ok sc /\
    rescale image sc = Ok scaled_image /\
    let ho := horizontal_offset (PIL.width scaled_image) (required_width sc) in
    let vo := vertical_offset (PIL.height scaled_image) (required_height sc) in
    PIL.crop scaled_image (upper_box ho vo s) = Ok u /\
    PIL.crop scaled_image (lower_box ho vo s) = Ok l /\
    f = {| source := image; plan := sc; scaled := scaled_image;
           offsets := (ho, vo);
           upper_rect := upper_box ho vo s; lower_rect := lower_box ho vo s;
           upper_crop := u; lower_crop := l |}.
Proof.
  unfold fit_image, PIL.size.
  destruct (compute_scaling (PIL.width image) (PIL.height image) s) as [sc | e]
    eqn:Esc; [| discriminate].
  cbn [bind].
  destruct (rescale image sc) as [scaled_image | e] eqn:Ers; [| discriminate].
  cbn [bind].
  destruct (PIL.crop scaled_image _) as [u | e] eqn:Eu; [| discriminate].
  cbn [bind].
  destruct (PIL.crop scaled_image (lower_box _ _ s)) as [l | e] eqn:El; [| discriminate].
  cbn [bind].
  intros E. injection E as <-.
  exists sc, scaled_image, u, l. cbv zeta. repeat split; assumption.
Qed.

Lemma fit_image_intro (image : PIL.image) (s : screens) sc scaled_image u l :
  compute_scaling (PIL.width image) (PIL.height image) s = Ok sc ->
  rescale image sc = Ok scaled_image ->
  PIL.crop scaled_image
    (upper_box (horizontal_offset (PIL.width scaled_image) (required_width sc))
               (vertical_offset (PIL.height scaled_image) (required_height sc)) s) = Ok u ->
  PIL.crop scaled_image
    (lower_box (horizontal_offset (PIL.width scaled_image) (required_width sc))
               (vertical_offset (PIL.height scaled_image) (required_height sc)) s) = Ok l ->
  fit_image image s =
  Ok {| source := image; plan := sc; scaled := scaled_image;
        offsets := (horizontal_offset (PIL.width scaled_image) (required_width sc),
                    vertical_offset (PIL.height scaled_image) (required_height sc));
        upper_rect := upper_box (horizontal_offset (PIL.width scaled_image) (required_width sc))
                        (vertical_offset (PIL.height scaled_image) (required_height sc)) s;
        lower_rect := lower_box (horizontal_offset (PIL.width scaled_image) (required_width sc))
                        (vertical_offset (PIL.height scaled_image) (required_height sc)) s;
        upper_crop := u; lower_crop := l |}.
Proof.
  intros Esc Ers Eu El. unfold fit_image, PIL.size.
  rewrite Esc. cbn [bind]. rewrite Ers. cbn [bind].
  rewrite Eu. cbn [bind]. rewrite El. reflexivity.
Qed.

Lemma compute_scaling_required (w h : Z) (s : screens) (sc : scaling) :
  compute_scaling w h s = Ok sc ->
  required_width sc = Z.max (upper_width s) (lower_width s) /\
  required_height sc = upper_height s + offset_px s + lower_height s.
Proof.
  unfold compute_scaling.
  destruct (Py.int_truediv _ w) as [q1 | e]; [| discriminate]. cbn [bind].
  destruct (Py.int_truediv _ h) as [q2 | e]; [| discriminate]. cbn [bind].
  destruct (Py.int_mul_float w _) as [fw | e]; [| discriminate]. cbn [bind].
  destruct (Py.int_of_float fw) as [nw | e]; [| discriminate]. cbn [bind].
  destruct (Py.int_mul_float h _) as [fh | e]; [| discriminate]. cbn [bind].
  destruct (Py.int_of_float fh) as [nh | e]; [| discriminate]. cbn [bind].
  intros E. injection E as <-. split; reflexivity.
Qed.

Lemma resize_inv (image im : PIL.image) (nw nh : Z) :
  PIL.resize image (nw, nh) = Ok im ->
  im = image \/
  (im = {| PIL.mode := PIL.mode image; PIL.width := nw; PIL.height := nh;
           PIL.getpixel := PIL.lanczos image nw nh |} /\
   1 <= nw <= PIL.INT_MAX /\ 1 <= nh <= PIL.INT_MAX /\
   PIL.fits nw nh = true).
Proof.
  unfold PIL.resize.
  destruct ((nw =? PIL.width image) && (nh =? PIL.height image)).
  - intros E. injection E as <-. left. reflexivity.
  - destruct (PIL.c_int nw) eqn:Cw; [| discriminate].
    destruct (PIL.c_int nh) eqn:Ch; [| discriminate].
    cbn [andb negb].
    destruct (Z.ltb_spec nw 1); [discriminate |].
    destruct (Z.ltb_spec nh 1); [discriminate |].
    cbn [orb].
    destruct (PIL.fits nw nh); [| discriminate].
    cbn [negb]. intros E. injection E as <-. right.
    apply c_int_inv in Cw, Ch. repeat split; lia.
Qed.

Lemma rescale_mode (image : PIL.image) (sc : scaling) (im : PIL.image) :
  rescale image sc = Ok im -> PIL.mode im = PIL.mode image.
Proof.
  unfold rescale. destruct (Py.float_ne _ _).
  - intros E. apply resize_inv in E. destruct E as [-> | (-> & _)]; reflexivity.
  - intros E. injection E as <-. reflexivity.
Qed.

Lemma rescale_bounds (image : PIL.image) (sc : scaling) (im : PIL.image) :
  PIL.width image <= PIL.INT_MAX -> PIL.height image <= PIL.INT_MAX ->
  rescale image sc = Ok im ->
  PIL.width im <= PIL.INT_MAX /\ PIL.height im <= PIL.INT_MAX.
Proof.
  intros Hw Hh. unfold rescale. destruct (Py.float_ne _ _).
  - intros E. apply resize_inv in E.
    destruct E as [-> | (-> & Bw & Bh & _)]; cbn [PIL.width PIL.height]; lia.
  - intros E. injection E as <-. lia.
Qed.

Lemma fit_image_total (image : PIL.image) (s : screens) (sc : scaling)
    (im : PIL.image) :
  crop_screens s ->
  PIL.fits (upper_width s) (upper_height s) = true ->
  PIL.fits (lower_width s) (lower_height s) = true ->
  PIL.width im <= PIL.INT_MAX -> PIL.height im <= PIL.INT_MAX ->
  compute_scaling (PIL.width image) (PIL.height image) s = Ok sc ->
  rescale image sc = Ok im ->
  exists f, fit_image image s = Ok f /\ plan f = sc /\ scaled f = im /\
            PIL.size (upper_crop f) = (upper_width s, upper_height s) /\
            PIL.size (lower_crop f) = (lower_width s, lower_height s).
Proof.
  intros (Huw & Huh & Hlw & Hlh & Hoff & Hrh & Bu & Bl) Fu Fl Wim Him Esc Ers.
  destruct (compute_scaling_required _ _ _ _ Esc) as (Erw & Erh).
  set (ho := horizontal_offset (PIL.width im) (required_width sc)).
  set (vo := vertical_offset (PIL.height im) (required_height sc)).
  assert (Hho : 0 <= ho /\ ho + Z.max (upper_width s) (lower_width s)
                          <= PIL.INT_MAX).
  { unfold ho, horizontal_offset. rewrite Erw.
    set (dx := PIL.width im - Z.max (upper_width s) (lower_width s)).
    pose proof (Z.div_mod dx 2 ltac:(lia)) as Hx.
    pose proof (Z.mod_pos_bound dx 2 ltac:(lia)) as Hx'.
    unfold max_dim, PIL.INT_MAX in *. lia. }
  assert (Hvo : 0 <= vo /\
                vo + (upper_height s + offset_px s + lower_height s)
                <= PIL.INT_MAX).
  { unfold vo, vertical_offset. rewrite Erh.
    set (dy := PIL.height im - (upper_height s + offset_px s + lower_height s)).
    pose proof (Z.div_mod dy 2 ltac:(lia)) as Hy.
    pose proof (Z.mod_pos_bound dy 2 ltac:(lia)) as Hy'.
    unfold max_dim, PIL.INT_MAX in *. lia. }
  assert (HI : 0 < PIL.INT_MAX) by reflexivity.
  destruct (crop_ok im ho vo (ho + upper_width s) (vo + upper_height s))
    as (u & Eu & _ & Su & _); try lia.
  { replace (ho + upper_width s - ho) with (upper_width s) by lia.
    replace (vo + upper_height s - vo) with (upper_height s) by lia.
    apply decompression_bomb_false; lia. }
  { replace (ho + upper_width s - ho) with (upper_width s) by lia.
    replace (vo + upper_height s - vo) with (upper_height s) by lia.
    exact Fu. }
  destruct (crop_ok im ho (vo + upper_height s + offset_px s)
              (ho + lower_width s)
              (vo + upper_height s + offset_px s + lower_height s))
    as (l & El & _ & Sl & _); try lia.
  { replace (ho + lower_width s - ho) with (lower_width s) by lia.
    replace (vo + upper_height s + offset_px s + lower_height s -
             (vo + upper_height s + offset_px s)) with (lower_height s) by lia.
    apply decompression_bomb_false; lia. }
  { replace (ho + lower_width s - ho) with (lower_width s) by lia.
    replace (vo + upper_height s + offset_px s + lower_height s -
             (vo + upper_height s + offset_px s)) with (lower_height s) by lia.
    exact Fl. }
  eexists. split.
  - apply (fit_image_intro image s sc im u l Esc Ers); assumption.
  - cbn [plan scaled upper_crop lower_crop].
    repeat split.
    + rewrite Su. f_equal; lia.
    + rewrite Sl. f_equal; lia.
Qed.

Lemma crop_inside (im c : PIL.image) (x0 y0 x1 y1 x y : Z) :
  PIL.crop im (x0, y0, x1, y1) = Ok c ->
  PIL.inside im (x + x0) (y + y0) = true ->
  PIL.getpixel c x y = PIL.getpixel im (x + x0) (y + y0).
Proof.
  unfold PIL.crop.
  destruct (x1 <? x0); [discriminate |].
  destruct (y1 <? y0); [discriminate |].
  destruct (PIL.decompression_bomb _ _); [discriminate |].
  destruct (negb _); [discriminate |].
  destruct (negb _); [discriminate |].
  intros E Hin. injection E as <-. cbn [PIL.getpixel]. rewrite Hin. reflexivity.
Qed.

End Geometry.

Example decode_2148x2000 :
  @PIL.open example_pillow bytes_2148x2000 = Ok (blank 2148 2000).
Proof. reflexivity. Qed.

Example decode_3840x2160 :
  @PIL.open example_pillow bytes_3840x2160 = Ok (blank 3840 2160).
Proof. reflexivity. Qed.

Example decode_1920x1495 :
  @PIL.open example_pillow bytes_1920x1495 = Ok (blank 1920 1495).
Proof. reflexivity. Qed.

Example decode_1000x1000 :
  @PIL.open example_pillow bytes_1000x1000 = Ok (blank 1000 1000).
Proof. reflexivity. Qed.

Example scaling_2148x2000 :
  compute_scaling 2148 2000 default_screens =
  Ok {| required_width := 1920; required_height := 1695;
        scale_factor_width := S754_finite false 8051127825466808 (-53);
        scale_factor_height := S754_finite false 7633601368392991 (-53);
        scale_factor := S754_finite false 8051127825466808 (-53);
        new_width := 1919; new_height := 1787 |}.
Proof. vm_compute. reflexivity. Qed.

Example scaling_3840x2160 :
  compute_scaling 3840 2160 default_screens =
  Ok {| required_width := 1920; required_height := 1695;
        scale_factor_width := S754_finite false 4503599627370496 (-53);
        scale_factor_height := S754_finite false 7068149415178695 (-53);
        scale_factor := S754_finite false 7068149415178695 (-53);
        new_width := 3013; new_height := 1695 |}.
Proof. vm_compute. reflexivity. Qed.

Example decode_1679x1650 :
  @PIL.open example_pillow bytes_1679x1650 = Ok (blank 1679 1650).
Proof. reflexivity. Qed.

Example decode_2191x2000 :
  @PIL.open example_pillow bytes_2191x2000 = Ok (blank 2191 2000).
Proof. reflexivity. Qed.

Example decode_49x98 :
  @PIL.open example_pillow bytes_49x98 = Ok (blank 49 98).
Proof. reflexivity. Qed.

(** The scale factor is above [1.0] and the truncated size is the size of
    the source. *)
Example scaling_1679x1650 :
  compute_scaling 1679 1650 wide_screens =
  Ok {| required_width := 1680; required_height := 1650;
        scale_factor_width := S754_finite false 4506281938047905 (-52);
        scale_factor_height := S754_finite false 4503599627370496 (-52);
        scale_factor := S754_finite false 4506281938047905 (-52);
        new_width := 1679; new_height := 1650 |}.
Proof. vm_compute. reflexivity. Qed.

Example scaling_2191x2000 :
  compute_scaling 2191 2000 tenfold_screens =
  Ok {| required_width := 19200; required_height := 16950;
        scale_factor_width := S754_finite false 4933199044130164 (-49);
        scale_factor_height := S754_finite false 4771000855245619 (-49);
        scale_factor := S754_finite false 4933199044130164 (-49);
        new_width := 19199; new_height := 17526 |}.
Proof. vm_compute. reflexivity. Qed.

(** With a footprint one pixel wide the scaled width can be [0]:
    [49 * (1 / 49)] is below [1.0]. The resize then raises. *)
Example scaling_49x98 :
  compute_scaling 49 98 one_pixel_screens =
  Ok {| required_width := 1; required_height := 2;
        scale_factor_width := S754_finite false 5882252574524729 (-58);
        scale_factor_height := S754_finite false 5882252574524729 (-58);
        scale_factor := S754_finite false 5882252574524729 (-58);
        new_width := 0; new_height := 1 |}.
Proof. vm_compute. reflexivity. Qed.

Example fit_49x98 :
  @fit_image example_pillow (blank 49 98) one_pixel_screens = Raise ValueError.
Proof. vm_compute. reflexivity. Qed.

Lemma fit_3840x2160 :
  exists f, @fit_image example_pillow (blank 3840 2160) default_screens = Ok f.
Proof. vm_compute. eexists. reflexivity. Qed.

Lemma fit_2148x2000 :
  exists f, @fit_image example_pillow (blank 2148 2000) default_screens = Ok f.
Proof. vm_compute. eexists. reflexivity. Qed.

Section Crops.
Context `{PIL.Pillow}.

(** C5: the centring offsets are
    [max(0, (scaled_width - required_width) // 2)] and
    [max(0, (scaled_height - required_height) // 2)], with floor division:
    twice the offset is the excess or the excess less one, and the offset is
    [0] when there is no excess; when the scaled image is exactly the
    footprint both offsets are [0]. *)
Theorem centering_offsets (image : PIL.image) (s : screens) (f : fitted) :
  fit_image image s = Ok f ->
  let cw := PIL.width (scaled f) in
  let ch := PIL.height (scaled f) in
  let rw := required_width (plan f) in
  let rh := required_height (plan f) in
  offsets f = (Z.max 0 ((cw - rw) / 2), Z.max 0 ((ch - rh) / 2)) /\
  (rw <= cw -> 2 * fst (offsets f) <= cw - rw <= 2 * fst (offsets f) + 1) /\
  (cw <= rw -> fst (offsets f) = 0) /\
  (rh <= ch -> 2 * snd (offsets f) <= ch - rh <= 2 * snd (offsets f) + 1) /\
  (ch <= rh -> snd (offsets f) = 0) /\
  (cw = rw -> ch = rh -> offsets f = (0, 0)) /\
  upper_rect f = upper_box (fst (offsets f)) (snd (offsets f)) s /\
  lower_rect f = lower_box (fst (offsets f)) (snd (offsets f)) s.
Proof.
  intros E.
  destruct (fit_image_inv image s f E) as (sc & im & u & l & _ & _ & _ & _ & ->).
  cbn [scaled plan offsets upper_rect lower_rect fst snd].
  unfold horizontal_offset, vertical_offset.
  set (dx := PIL.width im - required_width sc).
  set (dy := PIL.height im - required_height sc).
  pose proof (Z.div_mod dx 2 ltac:(lia)) as Hx.
  pose proof (Z.mod_pos_bound dx 2 ltac:(lia)) as Hx'.
  pose proof (Z.div_mod dy 2 ltac:(lia)) as Hy.
  pose proof (Z.mod_pos_bound dy 2 ltac:(lia)) as Hy'.
  repeat split; try lia.
  intros Ew Eh. f_equal; lia.
Qed.

(** C6: both crop rectangles have the same left edge, the horizontal
    offset; the top of the upper one is the vertical offset and the top of
    the lower one is the vertical offset plus [Hu + G]; with [G >= 0] the
    upper rectangle ends at or above the row where the lower one starts, so
    no pixel belongs to both. *)
Theorem crops_aligned_disjoint (image : PIL.image) (s : screens) (f : fitted) :
  fit_image image s = Ok f ->
  let '(ho, vo) := offsets f in
  let '(ul, ut, ur, ub) := upper_rect f in
  let '(ll, lt, lr, lb) := lower_rect f in
  ul = ho /\ ll = ho /\
  ut = vo /\ lt = vo + upper_height s + offset_px s /\
  ur = ul + upper_width s /\ ub = ut + upper_height s /\
  lr = ll + lower_width s /\ lb = lt + lower_height s /\
  (0 <= offset_px s ->
   ub <= lt /\
   forall x y, ~ (in_box (upper_rect f) x y /\ in_box (lower_rect f) x y)).
Proof.
  intros E.
  destruct (fit_image_inv image s f E) as (sc & im & u & l & _ & _ & _ & _ & ->).
  cbn [offsets upper_rect lower_rect]. unfold upper_box, lower_box.
  repeat split; try lia.
  unfold in_box. intros x y. lia.
Qed.

(** C10 (as amended): the crop rectangles are not checked against the
    scaled image, and Pillow fills what lies outside it. The scaled size
    comes from [int()], which truncates, and it can be one pixel short of
    the footprint (source 2148 x 2000 with the default screens: 1919 for
    1920). For screens whose crops Pillow extracts (positive sizes, at most
    [2 * MAX_IMAGE_PIXELS] pixels and memory for each crop, a gap that is
    not negative), whatever the size of the scaled image, both crops are
    produced with exactly the sizes [(Wu, Hu)] and [(Wl, Hl)]; a pixel of a
    crop that lies inside the scaled image is the pixel of the scaled image
    and every other pixel is black. Crop extraction is not total: with a
    crop of more than [2 * MAX_IMAGE_PIXELS] pixels no crops are
    produced. *)
Theorem crop_unchecked_black_fill :
  (exists sc, compute_scaling 2148 2000 default_screens = Ok sc /\
              new_width sc = required_width sc - 1) /\
  (forall (image : PIL.image) (s : screens) (sc : scaling) (im : PIL.image),
     valid_source image ->
     crop_screens s ->
     PIL.fits (upper_width s) (upper_height s) = true ->
     PIL.fits (lower_width s) (lower_height s) = true ->
     compute_scaling (PIL.width (to_rgb image)) (PIL.height (to_rgb image)) s
       = Ok sc ->
     rescale (to_rgb image) sc = Ok im ->
     exists f,
       fit_image (to_rgb image) s = Ok f /\ scaled f = im /\
       PIL.size (upper_crop f) = (upper_width s, upper_height s) /\
       PIL.size (lower_crop f) = (lower_width s, lower_height s) /\
       (forall x y,
          PIL.getpixel (upper_crop f) x y =
          if PIL.inside im (x + fst (offsets f)) (y + snd (offsets f))
          then PIL.getpixel im (x + fst (offsets f)) (y + snd (offsets f))
          else PIL.black) /\
       (forall x y,
          PIL.getpixel (lower_crop f) x y =
          if PIL.inside im (x + fst (offsets f))
               (y + (snd (offsets f) + upper_height s + offset_px s))
          then PIL.getpixel im (x + fst (offsets f))
                 (y + (snd (offsets f) + upper_height s + offset_px s))
          else PIL.black)) /\
  (forall (image : PIL.image) (s : screens),
     positive_screens s ->
     2 * PIL.MAX_IMAGE_PIXELS < upper_width s * upper_height s \/
     2 * PIL.MAX_IMAGE_PIXELS < lower_width s * lower_height s ->
     is_ok (fit_image image s) = false).
Proof.
  split; [| split].
  - eexists. split; [exact scaling_2148x2000 | reflexivity].
  - intros image s sc im (Hw & Hh) Hs Fu Fl Esc Ers.
    assert (Hmode : PIL.mode im = PIL.RGB).
    { rewrite (rescale_mode _ _ _ Ers). apply to_rgb_mode. }
    assert (Hb : PIL.width im <= PIL.INT_MAX /\ PIL.height im <= PIL.INT_MAX).
    { apply (rescale_bounds (to_rgb image) sc im); [| | exact Ers].
      - rewrite to_rgb_width. unfold max_dim, PIL.INT_MAX in *. lia.
      - rewrite to_rgb_height. unfold max_dim, PIL.INT_MAX in *. lia. }
    destruct (fit_image_total (to_rgb image) s sc im Hs Fu Fl
                (proj1 Hb) (proj2 Hb) Esc Ers)
      as (f & Ef & _ & Es & Su & Sl).
    exists f. split; [exact Ef |]. split; [exact Es |].
    split; [exact Su |]. split; [exact Sl |].
    destruct (fit_image_inv _ _ _ Ef)
      as (sc' & im' & u & l & _ & _ & Eu & El & ->).
    cbn [scaled upper_crop lower_crop offsets fst snd] in *. subst im'.
    cbv zeta in Eu, El. unfold upper_box, lower_box in Eu, El.
    split; intros x y.
    + destruct (PIL.inside im _ _) eqn:Hin.
      * apply (crop_inside _ _ _ _ _ _ _ _ Eu Hin).
      * destruct (crop_inv _ _ _ _ _ _ Eu) as (_ & _ & _ & _ & Bu).
        rewrite (Bu x y Hin), Hmode. reflexivity.
    + destruct (PIL.inside im _ _) eqn:Hin.
      * apply (crop_inside _ _ _ _ _ _ _ _ El Hin).
      * destruct (crop_inv _ _ _ _ _ _ El) as (_ & _ & _ & _ & Bl).
        rewrite (Bl x y Hin), Hmode. reflexivity.
  - intros image s (Huw & Huh & Hlw & Hlh) Hbig.
    destruct (fit_image image s) as [f | e] eqn:Ef; [| reflexivity].
    destruct (fit_image_inv _ _ _ Ef)
      as (sc & im & u & l & _ & _ & Eu & El & _).
    cbv zeta in Eu, El. unfold upper_box, lower_box in Eu, El.
    apply crop_bomb_inv in Eu, El.
    destruct Hbig as [B | B].
    + rewrite decompression_bomb_true in Eu; [discriminate | lia | lia |].
      replace (_ + upper_width s - _) with (upper_width s) by lia.
      replace (_ + upper_height s - _) with (upper_height s) by lia.
      exact B.
    + rewrite decompression_bomb_true in El; [discriminate | lia | lia |].
      replace (_ + lower_width s - _) with (lower_width s) by lia.
      replace (_ + _ + _ + lower_height s - _) with (lower_height s) by lia.
      exact B.
Qed.

End Crops.

Lemma centering_offsets_witness :
  exists f, @fit_image example_pillow (blank 3840 2160) default_screens = Ok f /\
            fst (offsets f) = 546.
Proof.
  destruct fit_3840x2160 as [f E]. exists f. split; [exact E |].
  pose proof (@centering_offsets example_pillow _ _ f E) as (Ho & _).
  destruct (@fit_image_inv example_pillow _ _ f E)
    as (sc & im & u & l & Esc & Ers & _ & _ & ->).
  cbn [offsets fst] in *.
  cbn [PIL.width PIL.height blank] in Esc.
  rewrite scaling_3840x2160 in Esc. injection Esc as <-.
  vm_compute in Ers. injection Ers as <-.
  reflexivity.
Defined.

Lemma crops_aligned_disjoint_witness :
  exists f, @fit_image example_pillow (blank 3840 2160) default_screens = Ok f /\
            (let '(ho, vo) := offsets f in
             let '(ul, ut, ur, ub) := upper_rect f in
             let '(ll, lt, lr, lb) := lower_rect f in
             ul = ll /\ ub <= lt).
Proof.
  destruct fit_3840x2160 as [f E]. exists f. split; [exact E |].
  pose proof (@crops_aligned_disjoint example_pillow _ _ f E) as Hc.
  destruct (offsets f) as [ho vo].
  destruct (upper_rect f) as [[[ul ut] ur] ub].
  destruct (lower_rect f) as [[[ll lt] lr] lb].
  destruct Hc as (-> & -> & _ & _ & _ & _ & _ & _ & Hd).
  split; [reflexivity |].
  apply Hd. vm_compute. discriminate.
Defined.

(** C10: with screens ten times the default ones and a 2191 x 2000 source
    the scaled image is 19199 pixels wide, one short of the footprint; the
    upper rectangle, 19200 x 10800, leaves it on the right, and extracting
    it raises: no crops are returned. *)
Lemma large_crop_is_refused :
  exists sc im,
    compute_scaling 2191 2000 tenfold_screens = Ok sc /\
    required_width sc = 19200 /\
    @rescale example_pillow (blank 2191 2000) sc = Ok im /\
    PIL.size im = (19199, 17526) /\
    upper_box (horizontal_offset 19199 19200) (vertical_offset 17526 16950)
      tenfold_screens = (0, 288, 19200, 11088) /\
    @PIL.crop example_pillow im (0, 288, 19200, 11088) =
      Raise DecompressionBombError /\
    @fit example_pillow bytes_2191x2000 tenfold_screens =
      Raise DecompressionBombError /\
    fst (@process_image example_pillow bytes_2191x2000 "temp"
           19200 10800 19200 5150 1000 example_world) = (None, None).
Proof.
  eexists _, _. split; [exact scaling_2191x2000 |].
  vm_compute. repeat split.
Qed.

Lemma crop_unchecked_black_fill_witness :
  exists f,
    @fit_image example_pillow (@to_rgb example_pillow (blank 2148 2000)) default_screens = Ok f /\
    PIL.width (scaled f) = 1919 /\
    PIL.size (upper_crop f) = (1920, 1080) /\
    PIL.getpixel (upper_crop f) 1919 0 = PIL.black.
Proof.
  assert (Esrc : valid_source (blank 2148 2000))
    by (vm_compute; intuition discriminate).
  assert (Epos : crop_screens default_screens)
    by (vm_compute; intuition discriminate).
  assert (Ers : @rescale example_pillow (@to_rgb example_pillow (blank 2148 2000))
                  {| required_width := 1920; required_height := 1695;
                     scale_factor_width := S754_finite false 8051127825466808 (-53);
                     scale_factor_height := S754_finite false 7633601368392991 (-53);
                     scale_factor := S754_finite false 8051127825466808 (-53);
                     new_width := 1919; new_height := 1787 |} =
                Ok {| PIL.mode := PIL.RGB; PIL.width := 1919; PIL.height := 1787;
                      PIL.getpixel := fun _ _ => PIL.white |})
    by (vm_compute; reflexivity).
  destruct (proj1 (proj2 (@crop_unchecked_black_fill example_pillow))
              (blank 2148 2000) default_screens _ _ Esrc Epos
              ltac:(reflexivity) ltac:(reflexivity) scaling_2148x2000 Ers)
    as (f & Ef & Es & Su & _ & Bu & _).
  exists f. split; [exact Ef |]. split; [rewrite Es; reflexivity |].
  split; [exact Su |].
  rewrite Bu.
  destruct (@fit_image_inv example_pillow _ _ f Ef)
    as (sc & im & u & l & Esc & Ers' & _ & _ & ->).
  cbn [scaled offsets fst snd] in *. subst im.
  unfold to_rgb in Esc.
  cbn [PIL.width PIL.height blank PIL.mode PIL.mode_eqb negb] in Esc.
  rewrite scaling_2148x2000 in Esc. injection Esc as <-.
  vm_compute. reflexivity.
Defined.

Lemma SFltb_finite (mx ex my ey : Z) :
  0 < mx -> 0 < my ->
  SFltb (S754_finite false (Z.to_pos mx) ex) (S754_finite false (Z.to_pos my) ey) = true <->
  ex < ey \/ (ex = ey /\ mx < my).
Proof.
  intros Hx Hy.
  destruct mx as [| p | p]; try lia. destruct my as [| q | q]; try lia.
  unfold SFltb, SFcompare, Z.to_pos.
  destruct (Z.compare_spec ex ey) as [E | E | E].
  - change (Pos.compare_cont Eq p q) with (Pos.compare p q).
    destruct (Pos.compare_spec p q) as [C | C | C];
      split; intros G; try discriminate; try reflexivity; lia.
  - split; [lia | reflexivity].
  - split; [discriminate | lia].
Qed.

Lemma normal_weaken (lo hi lo' hi' : Z) (f : spec_float) :
  normal lo hi f -> lo' <= lo -> hi <= hi' -> normal lo' hi' f.
Proof.
  intros (m & e & E & Hm & He) Hlo Hhi. exists m, e. repeat split; try assumption; lia.
Qed.

Lemma max_float_normal (lo hi : Z) (x y : spec_float) :
  normal lo hi x -> normal lo hi y -> normal lo hi (Py.max_float x y).
Proof.
  intros Hx Hy. unfold Py.max_float. destruct (SFltb x y); assumption.
Qed.

Lemma max_float_le_one (x y : spec_float) :
  SFleb x Py.one = true -> SFleb y Py.one = true ->
  SFleb (Py.max_float x y) Py.one = true.
Proof.
  intros Hx Hy. unfold Py.max_float. destruct (SFltb x y); assumption.
Qed.

Lemma max_float_gt_one (lo hi : Z) (x y : spec_float) :
  normal lo hi x -> normal lo hi y ->
  SFltb Py.one x = true \/ SFltb Py.one y = true ->
  SFltb Py.one (Py.max_float x y) = true.
Proof.
  intros (mx & ex & -> & Hmx & _) (my & ey & -> & Hmy & _) Hor.
  assert (P52 : 0 < 2 ^ 52) by (apply Z.pow_pos_nonneg; lia).
  unfold Py.max_float.
  destruct (SFltb (S754_finite false (Z.to_pos mx) ex)
                  (S754_finite false (Z.to_pos my) ey)) eqn:E.
  - apply SFltb_finite in E; try lia.
    destruct Hor as [G | G]; [| exact G].
    apply SFltb_one in G; try lia. apply SFltb_one; lia.
  - destruct Hor as [G | G]; [exact G |].
    apply SFltb_one in G; try lia. apply SFltb_one; try lia.
    destruct (Z_lt_le_dec ex ey) as [L | L].
    + rewrite (proj2 (SFltb_finite mx ex my ey ltac:(lia) ltac:(lia))) in E
        by lia. discriminate.
    + destruct (Z.eq_dec ex ey) as [Ee | Ee]; [| lia].
      destruct (Z_lt_le_dec mx my) as [Lm | Lm]; [| lia].
      rewrite (proj2 (SFltb_finite mx ex my ey ltac:(lia) ltac:(lia))) in E
        by lia. discriminate.
Qed.

Lemma float_ne_gt_one (lo hi : Z) (x : spec_float) :
  normal lo hi x -> SFltb Py.one x = true -> Py.float_ne x Py.one = true.
Proof.
  intros (m & e & -> & Hm & _) G.
  assert (P52 : 0 < 2 ^ 52) by (apply Z.pow_pos_nonneg; lia).
  apply SFltb_one in G; try lia.
  unfold Py.float_ne, SFeqb. rewrite SFcompare_one by lia.
  destruct (Z.compare_spec e (-52)); try lia; try reflexivity.
  destruct (Z.compare_spec m (2 ^ 52)); try lia; reflexivity.
Qed.

(** The scaled length [int(w * scale)]. *)
Lemma scaled_length (w : Z) (scale : spec_float) :
  0 < w < 2 ^ 53 -> normal (-400) 400 scale ->
  exists p n,
    Py.int_mul_float w scale = Ok p /\ Py.int_of_float p = Ok n /\
    (SFltb Py.one scale = true -> 1 <= n) /\
    (at_least_one w scale -> 1 <= n).
Proof.
  intros Hw (ms & es & -> & Hms & Hes).
  assert (P52 : 0 < 2 ^ 52) by (apply Z.pow_pos_nonneg; lia).
  destruct (int_mul_float_normal w ms es Hw Hms Hes)
    as (mp & ep & E & Hmp & Hep & Hlow).
  pose proof (Zdigits2_pos w ltac:(lia)) as Hdp.
  exists (S754_finite false (Z.to_pos mp) ep), (Z.shiftl mp ep).
  split; [exact E |]. split; [apply int_of_float_finite; lia |]. split.
  - intros G. apply SFltb_one in G; try lia.
    apply shiftl_ge_one; lia.
  - intros G. apply (proj1 (at_least_one_finite w ms es ltac:(lia))) in G.
    apply shiftl_ge_one; [lia |].
    destruct (Z_lt_le_dec 0 es) as [Pos | Neg]; [lia |].
    pose proof (digits_le_53 w Hw) as Hd53.
    set (d := Zdigits2 w) in *.
    set (N := w * 2 ^ (53 - d) * ms) in *.
    assert (Pd : 0 < 2 ^ (53 - d)) by (apply Z.pow_pos_nonneg; lia).
    assert (HN : 2 ^ (53 - d - es) <= N).
    { replace (53 - d - es) with (- es + (53 - d)) by lia.
      rewrite Z.pow_add_r by lia. unfold N. nia. }
    assert (HN0 : 0 < N).
    { assert (0 < 2 ^ (53 - d - es)) by (apply Z.pow_pos_nonneg; lia). lia. }
    pose proof (Zdigits2_bounds N HN0) as HdN.
    pose proof (Zdigits2_pos N HN0) as HdNp.
    assert (L : 2 ^ (53 - d - es) < 2 ^ Zdigits2 N) by lia.
    apply Z.pow_lt_mono_r_iff in L; lia.
Qed.

Lemma compute_scaling_ok (w h : Z) (s : screens) :
  0 < w <= max_dim -> 0 < h <= max_dim -> valid_screens s ->
  exists sc q1 q2,
    Py.int_truediv (Z.max (upper_width s) (lower_width s)) w = Ok q1 /\
    Py.int_truediv (upper_height s + offset_px s + lower_height s) h = Ok q2 /\
    compute_scaling w h s = Ok sc /\
    required_width sc = Z.max (upper_width s) (lower_width s) /\
    required_height sc = upper_height s + offset_px s + lower_height s /\
    scale_factor sc = Py.max_float q1 q2 /\
    normal (-400) 400 q1 /\ normal (-400) 400 q2 /\
    (SFltb Py.one (scale_factor sc) = true ->
     1 <= new_width sc /\ 1 <= new_height sc) /\
    (at_least_one w (scale_factor sc) -> 1 <= new_width sc) /\
    (at_least_one h (scale_factor sc) -> 1 <= new_height sc).
Proof.
  intros Hw Hh (Huw & Huh & Hlw & Hlh & Hoff).
  unfold max_dim in *.
  set (rw := Z.max (upper_width s) (lower_width s)).
  set (rh := upper_height s + offset_px s + lower_height s).
  assert (B64 : 2 ^ 64 = 18446744073709551616) by reflexivity.
  assert (B53 : 2 ^ 53 = 9007199254740992) by reflexivity.
  assert (Hrw : 0 < rw < 2 ^ 64) by (unfold rw; lia).
  assert (Hrh : 0 < rh < 2 ^ 64) by (unfold rh; lia).
  destruct (int_truediv_normal rw w Hrw ltac:(lia)) as (q1 & E1 & _ & N1).
  destruct (int_truediv_normal rh h Hrh ltac:(lia)) as (q2 & E2 & _ & N2).
  pose proof (div_exponent_bounds rw w Hrw ltac:(lia)) as B1.
  pose proof (div_exponent_bounds rh h Hrh ltac:(lia)) as B2.
  apply (normal_weaken _ _ (-400) 400) in N1; try lia.
  apply (normal_weaken _ _ (-400) 400) in N2; try lia.
  pose proof (max_float_normal _ _ _ _ N1 N2) as Nm.
  destruct (scaled_length w (Py.max_float q1 q2) ltac:(lia) Nm)
    as (pw & nw & Epw & Enw & Gw & Aw).
  destruct (scaled_length h (Py.max_float q1 q2) ltac:(lia) Nm)
    as (ph & nh & Eph & Enh & Gh & Ah).
  eexists. exists q1, q2.
  split; [exact E1 |]. split; [exact E2 |].
  split.
  - unfold compute_scaling. fold rw rh.
    rewrite E1. cbn [bind]. rewrite E2. cbn [bind].
    rewrite Epw. cbn [bind]. rewrite Enw. cbn [bind].
    rewrite Eph. cbn [bind]. rewrite Enh. cbn [bind]. reflexivity.
  - cbn [required_width required_height scale_factor new_width new_height].
    repeat split; auto.
Qed.

Section Scale.
Context `{PIL.Pillow}.

Lemma fit_image_crop_sizes (image : PIL.image) (s : screens) (f : fitted) :
  fit_image image s = Ok f ->
  PIL.size (upper_crop f) = (upper_width s, upper_height s) /\
  PIL.size (lower_crop f) = (lower_width s, lower_height s).
Proof.
  intros E.
  destruct (fit_image_inv image s f E) as (sc & im & u & l & _ & _ & Eu & El & ->).
  cbn [upper_crop lower_crop]. unfold upper_box, lower_box in *.
  apply crop_inv in Eu, El.
  destruct Eu as (_ & _ & _ & -> & _). destruct El as (_ & _ & _ & -> & _).
  split; f_equal; lia.
Qed.

(** C2: a source narrower than the footprint gets a scale factor above
    [1.0], yet no resampling takes place when [int()] truncates the scaled
    size back to the size of the source. For a 1679 x 1650 source and two
    screens 1680 wide (footprint 1680 x 1650) the scale factor is
    [1680/1679], the new size is 1679 x 1650, [resize] returns the image as
    it is, and the crops are cut from an image one pixel narrower than the
    footprint. A source that covers the footprint can leave no crops at
    all: for a 49 x 98 source and two screens of one pixel the scale factor
    is at most [1.0], the new size is 0 x 1, and [resize] raises. *)
Theorem truncation_defeats_resampling :
  (forall image : PIL.image,
     PIL.size image = (1679, 1650) ->
     exists sc f,
       compute_scaling 1679 1650 wide_screens = Ok sc /\
       (required_width sc, required_height sc) = (1680, 1650) /\
       SFltb Py.one (scale_factor sc) = true /\
       (new_width sc, new_height sc) = (1679, 1650) /\
       PIL.resize image (new_width sc, new_height sc) = Ok image /\
       rescale image sc = Ok image /\
       fit_image image wide_screens = Ok f /\
       scaled f = image /\
       PIL.width (scaled f) = required_width (plan f) - 1) /\
  (forall (image_data : list byte) (image : PIL.image),
     PIL.open image_data = Ok image ->
     PIL.size image = (49, 98) ->
     exists sc,
       compute_scaling 49 98 one_pixel_screens = Ok sc /\
       (required_width sc, required_height sc) = (1, 2) /\
       SFleb (scale_factor sc) Py.one = true /\
       (new_width sc, new_height sc) = (0, 1) /\
       fit image_data one_pixel_screens = Raise ValueError /\
       forall (output_dir : string) (w : world),
         process_image image_data output_dir 1 1 1 1 0 w = ((None, None), w)).
Proof.
  split.
  - intros image Esize. unfold PIL.size in Esize. injection Esize as Ew Eh.
    set (sc := {| required_width := 1680; required_height := 1650;
                  scale_factor_width := S754_finite false 4506281938047905 (-52);
                  scale_factor_height := S754_finite false 4503599627370496 (-52);
                  scale_factor := S754_finite false 4506281938047905 (-52);
                  new_width := 1679; new_height := 1650 |}).
    assert (Esc : compute_scaling (PIL.width image) (PIL.height image)
                    wide_screens = Ok sc)
      by (rewrite Ew, Eh; exact scaling_1679x1650).
    assert (Ersz : PIL.resize image (new_width sc, new_height sc) = Ok image).
    { unfold PIL.resize. cbn [new_width new_height sc].
      rewrite Ew, Eh. reflexivity. }
    assert (Ers : rescale image sc = Ok image).
    { unfold rescale.
      replace (Py.float_ne (scale_factor sc) Py.one) with true
        by (vm_compute; reflexivity).
      exact Ersz. }
    destruct (fit_image_total image wide_screens sc image) as (f & Ef & Ep & Es & _).
    + vm_compute. intuition discriminate.
    + reflexivity.
    + reflexivity.
    + rewrite Ew. vm_compute. discriminate.
    + rewrite Eh. vm_compute. discriminate.
    + exact Esc.
    + exact Ers.
    + exists sc, f. split; [exact scaling_1679x1650 |].
      split; [reflexivity |]. split; [vm_compute; reflexivity |].
      split; [reflexivity |]. split; [exact Ersz |]. split; [exact Ers |].
      split; [exact Ef |]. split; [exact Es |].
      rewrite Es, Ep, Ew. reflexivity.
  - intros image_data image Eopen Esize.
    assert (Ew : PIL.width (to_rgb image) = 49)
      by (rewrite to_rgb_width; exact (f_equal fst Esize)).
    assert (Eh : PIL.height (to_rgb image) = 98)
      by (rewrite to_rgb_height; exact (f_equal snd Esize)).
    assert (Efit : fit image_data one_pixel_screens = Raise ValueError).
    { unfold fit. rewrite Eopen. cbn [bind].
      unfold fit_image, PIL.size. rewrite Ew, Eh, scaling_49x98. cbn [bind].
      unfold rescale.
      replace (Py.float_ne _ Py.one) with true by (vm_compute; reflexivity).
      unfold PIL.resize. cbn [new_width new_height]. rewrite Ew, Eh.
      reflexivity. }
    eexists. split; [exact scaling_49x98 |].
    split; [reflexivity |]. split; [vm_compute; reflexivity |].
    split; [reflexivity |]. split; [exact Efit |].
    intros output_dir w.
    unfold process_image, process_image_try, io_bind, io_lift.
    fold one_pixel_screens. rewrite Efit. reflexivity.
Qed.

End Scale.

Lemma truncation_defeats_resampling_witness :
  exists sc,
    compute_scaling 1679 1650 wide_screens = Ok sc /\
    SFltb Py.one (scale_factor sc) = true /\
    @rescale example_pillow (blank 1679 1650) sc = Ok (blank 1679 1650) /\
    @fit example_pillow bytes_49x98 one_pixel_screens = Raise ValueError.
Proof.
  destruct (proj1 (@truncation_defeats_resampling example_pillow)
              (blank 1679 1650) eq_refl)
    as (sc & f & Esc & _ & G & _ & _ & Ers & _).
  destruct (proj2 (@truncation_defeats_resampling example_pillow)
              bytes_49x98 (blank 49 98) eq_refl eq_refl)
    as (sc' & _ & _ & _ & _ & Efit & _).
  exists sc. split; [exact Esc |]. split; [exact G |].
  split; [exact Ers | exact Efit].
Defined.

Lemma abandon_file_frame (p : string) (w : world) :
  runs (abandon_file p w) = runs w /\
  script_dir (abandon_file p w) = script_dir w /\
  writable (abandon_file p w) = writable w /\
  run_rc (abandon_file p w) = run_rc w /\
  forall q, String.eqb q p = false -> files (abandon_file p w) q = files w q.
Proof.
  unfold abandon_file. destruct (files w p); cbn; repeat split; try reflexivity.
  intros q ->. reflexivity.
Qed.

Section Output.
Context `{PIL.Pillow}.

Lemma process_image_cases (image_data : list byte) (output_dir : string)
    (uw uh lw lh off : Z) (w : world) :
  let s := {| upper_width := uw; upper_height := uh;
              lower_width := lw; lower_height := lh; offset_px := off |} in
  let r := process_image image_data output_dir uw uh lw lh off w in
  let up := upper_file_of w output_dir in
  let lo := lower_file_of w output_dir in
  match fit image_data s with
  | Raise _ => r = ((None, None), w)
  | Ok f =>
      let w1 := write_file up (PIL.jpeg_encode (upper_crop f) 95) w in
      if writable w (output_path_of w output_dir) && writable w up
      then
        if savable (upper_crop f)
        then
          if writable w lo
          then
            if savable (lower_crop f)
            then r = ((Some up, Some lo),
                      write_file lo (PIL.jpeg_encode (lower_crop f) 95) w1)
            else r = ((None, None), abandon_file lo w1)
          else r = ((None, None), w1)
        else r = ((None, None), abandon_file up w)
      else r = ((None, None), w)
  end.
Proof.
  cbv zeta. unfold process_image, process_image_try, io_bind, io_lift.
  destruct (fit image_data _) as [f | e]; [| reflexivity].
  fold (output_path_of w output_dir).
  fold (upper_file_of w output_dir). fold (lower_file_of w output_dir).
  unfold mkdir, save, io_ret, savable, nonempty.
  destruct (writable w (output_path_of w output_dir)); [| reflexivity].
  cbn [andb].
  destruct (writable w (upper_file_of w output_dir)); [| reflexivity].
  cbn [negb].
  destruct ((PIL.width (upper_crop f) =? 0) || (PIL.height (upper_crop f) =? 0));
    [reflexivity |].
  cbn [negb andb].
  destruct ((JPEG_MAX_DIMENSION <? PIL.width (upper_crop f))
            || (JPEG_MAX_DIMENSION <? PIL.height (upper_crop f)));
    [reflexivity |].
  cbn [negb andb writable write_file].
  destruct (writable w (lower_file_of w output_dir)); [| reflexivity].
  cbn [negb].
  destruct ((PIL.width (lower_crop f) =? 0) || (PIL.height (lower_crop f) =? 0));
    [reflexivity |].
  cbn [negb andb].
  destruct ((JPEG_MAX_DIMENSION <? PIL.width (lower_crop f))
            || (JPEG_MAX_DIMENSION <? PIL.height (lower_crop f)));
    reflexivity.
Qed.

Lemma process_image_result (image_data : list byte) (output_dir : string)
    (uw uh lw lh off : Z) (w : world) :
  let r := process_image image_data output_dir uw uh lw lh off w in
  (fst r = (None, None) \/
   fst r = (Some (upper_file_of w output_dir), Some (lower_file_of w output_dir))) /\
  runs (snd r) = runs w /\ script_dir (snd r) = script_dir w.
Proof.
  cbv zeta.
  pose proof (process_image_cases image_data output_dir uw uh lw lh off w) as C.
  cbv zeta in C.
  destruct (fit image_data _) as [f | e]; [| rewrite C; cbn; auto].
  destruct (_ && _); [| rewrite C; cbn; auto].
  destruct (savable (upper_crop f));
    [| rewrite C; cbn [fst snd];
       destruct (abandon_file_frame (upper_file_of w output_dir) w)
         as (-> & -> & _); auto].
  destruct (writable w (lower_file_of w output_dir)); [| rewrite C; cbn; auto].
  destruct (savable (lower_crop f)); rewrite C; cbn [fst snd]; [cbn; auto |].
  destruct (abandon_file_frame (lower_file_of w output_dir)
              (write_file (upper_file_of w output_dir)
                 (PIL.jpeg_encode (upper_crop f) 95) w)) as (-> & -> & _).
  cbn. auto.
Qed.

End Output.

Lemma append_inv_head (p a b : string) : (p ++ a = p ++ b)%string -> a = b.
Proof.
  induction p as [| c p IH]; cbn [append]; intros E.
  - exact E.
  - injection E as E. exact (IH E).
Qed.

Lemma append_assoc_string (a b c : string) :
  ((a ++ b) ++ c = a ++ (b ++ c))%string.
Proof.
  induction a as [| x a IH]; cbn [append]; [reflexivity |].
  rewrite IH. reflexivity.
Qed.

Lemma concat_snoc (ps : list string) :
  exists pre, forall y, String.concat "/" (ps ++ [y]) = (pre ++ y)%string.
Proof.
  induction ps as [| p ps IH].
  - exists EmptyString. intros y. reflexivity.
  - destruct IH as (pre & IH).
    exists (p ++ "/" ++ pre)%string. intros y.
    specialize (IH y). cbn [app]. cbn [String.concat].
    destruct (ps ++ [y]) as [| q qs] eqn:E.
    + destruct ps; discriminate.
    + rewrite IH. rewrite !append_assoc_string. reflexivity.
Qed.

(** A file name joined to a directory: the result ends in the name, after a
    prefix that depends on the directory only. *)
Lemma path_join_name (a : string) :
  exists pre,
    path_join a "wallpaper_upper.jpg" = (pre ++ "wallpaper_upper.jpg")%string /\
    path_join a "wallpaper_lower.jpg" = (pre ++ "wallpaper_lower.jpg")%string.
Proof.
  destruct (concat_snoc (path_parts a)) as (pre & Hpre).
  exists (path_root a ++ pre)%string.
  unfold path_join.
  change (path_root "wallpaper_upper.jpg") with EmptyString.
  change (path_root "wallpaper_lower.jpg") with EmptyString.
  change (path_parts "wallpaper_upper.jpg") with ["wallpaper_upper.jpg"%string].
  change (path_parts "wallpaper_lower.jpg") with ["wallpaper_lower.jpg"%string].
  cbn [String.eqb].
  assert (Hstr : forall y, path_str (path_root a) (path_parts a ++ [y]) =
                           (path_root a ++ String.concat "/" (path_parts a ++ [y]))%string).
  { intros y. unfold path_str.
    destruct (path_parts a ++ [y]) eqn:E; [| reflexivity].
    destruct (path_parts a); discriminate. }
  rewrite !Hstr, !Hpre, !append_assoc_string. split; reflexivity.
Qed.

Lemma upper_lower_distinct (w : world) (output_dir : string) :
  String.eqb (upper_file_of w output_dir) (lower_file_of w output_dir) = false.
Proof.
  apply String.eqb_neq. unfold upper_file_of, lower_file_of.
  destruct (path_join_name (output_path_of w output_dir)) as (pre & -> & ->).
  intros E. apply append_inv_head in E. discriminate.
Qed.

Section Pipeline.
Context `{PIL.Pillow}.

Lemma fit_inv (image_data : list byte) (s : screens) (f : fitted) :
  fit image_data s = Ok f ->
  exists image, PIL.open image_data = Ok image /\ fit_image (to_rgb image) s = Ok f.
Proof.
  unfold fit. destruct (PIL.open image_data) as [image | e]; [| discriminate].
  cbn [bind]. intros E. exists image. split; [reflexivity | exact E].
Qed.

Lemma compute_scaling_zero (w h : Z) (s : screens) :
  w = 0 \/ h = 0 -> exists e, compute_scaling w h s = Raise e.
Proof.
  intros [-> | ->]; unfold compute_scaling.
  - eexists. reflexivity.
  - destruct (Py.int_truediv _ w) as [q | e]; cbn [bind]; eexists; reflexivity.
Qed.

Lemma nonempty_size (im : PIL.image) (w h : Z) :
  PIL.size im = (w, h) -> nonempty im = negb ((w =? 0) || (h =? 0)).
Proof. unfold PIL.size, nonempty. intros E. injection E as -> ->. reflexivity. Qed.

Lemma savable_size (im : PIL.image) (w h : Z) :
  PIL.size im = (w, h) ->
  savable im = negb ((w =? 0) || (h =? 0)) &&
               negb ((JPEG_MAX_DIMENSION <? w) || (JPEG_MAX_DIMENSION <? h)).
Proof. unfold PIL.size, savable, nonempty. intros E. injection E as -> ->. reflexivity. Qed.

Lemma savable_nonempty (im : PIL.image) : savable im = true -> nonempty im = true.
Proof. unfold savable. intros E. apply andb_prop in E. exact (proj1 E). Qed.

End Pipeline.

Section Results.
Context `{PIL.Pillow}.

(** C3 (as amended): [process_image] has no bounds check on the crop
    rectangles and no [CropOutOfBounds] error. For screens whose crops
    Pillow extracts and writes (positive sizes of at most 65500 pixels a
    side and [2 * MAX_IMAGE_PIXELS] pixels a crop, memory for each crop, a
    gap that is not negative), once the image is decoded, the scaled size
    is computed and the resize (if any) succeeds, and the output directory
    and both files can be written, it cuts both rectangles out of the
    scaled image, writes them as JPEG of quality 95 to
    [wallpaper_upper.jpg] and [wallpaper_lower.jpg] in the output
    directory, and returns the two paths; where the rectangles lie
    relative to the scaled image plays no part. *)
Theorem crops_are_saved_unchecked (image_data : list byte) (output_dir : string)
    (uw uh lw lh off : Z) (w : world)
    (image : PIL.image) (sc : scaling) (im : PIL.image) :
  let s := {| upper_width := uw; upper_height := uh;
              lower_width := lw; lower_height := lh; offset_px := off |} in
  let r := process_image image_data output_dir uw uh lw lh off w in
  let ho := horizontal_offset (PIL.width im) (required_width sc) in
  let vo := vertical_offset (PIL.height im) (required_height sc) in
  valid_source image ->
  crop_screens s ->
  uw <= JPEG_MAX_DIMENSION /\ uh <= JPEG_MAX_DIMENSION /\
  lw <= JPEG_MAX_DIMENSION /\ lh <= JPEG_MAX_DIMENSION ->
  PIL.fits uw uh = true -> PIL.fits lw lh = true ->
  PIL.open image_data = Ok image ->
  compute_scaling (PIL.width image) (PIL.height image) s = Ok sc ->
  rescale (to_rgb image) sc = Ok im ->
  writable w (output_path_of w output_dir) = true ->
  writable w (upper_file_of w output_dir) = true ->
  writable w (lower_file_of w output_dir) = true ->
  exists u l,
    PIL.crop im (upper_box ho vo s) = Ok u /\
    PIL.crop im (lower_box ho vo s) = Ok l /\
    PIL.size u = (uw, uh) /\ PIL.size l = (lw, lh) /\
    fst r = (Some (upper_file_of w output_dir),
             Some (lower_file_of w output_dir)) /\
    files (snd r) (upper_file_of w output_dir) = Some (PIL.jpeg_encode u 95) /\
    files (snd r) (lower_file_of w output_dir) = Some (PIL.jpeg_encode l 95).
Proof.
  intros s r ho vo Hsrc Hs (Juw & Juh & Jlw & Jlh) Fu Fl Eopen Esc Ers Wd Wu Wl.
  pose proof Hs as (Huw & Huh & Hlw & Hlh & _).
  cbn [upper_width upper_height lower_width lower_height s] in Huw, Huh, Hlw, Hlh.
  rewrite <- (to_rgb_width image), <- (to_rgb_height image) in Esc.
  assert (Hb : PIL.width im <= PIL.INT_MAX /\ PIL.height im <= PIL.INT_MAX).
  { destruct Hsrc as (Hw & Hh).
    apply (rescale_bounds (to_rgb image) sc im); [| | exact Ers].
    - rewrite to_rgb_width. unfold max_dim, PIL.INT_MAX in *. lia.
    - rewrite to_rgb_height. unfold max_dim, PIL.INT_MAX in *. lia. }
  destruct (fit_image_total (to_rgb image) s sc im Hs Fu Fl
              (proj1 Hb) (proj2 Hb) Esc Ers) as (f & Ef & _ & _ & Su & Sl).
  destruct (fit_image_inv _ _ _ Ef)
    as (sc' & im' & u & l & Esc' & Ers' & Eu & El & Ef').
  rewrite Esc in Esc'. injection Esc' as <-.
  rewrite Ers in Ers'. injection Ers' as <-.
  cbv zeta in Eu, El. fold ho vo in Eu, El.
  rewrite Ef' in Su, Sl. cbn [upper_crop lower_crop] in Su, Sl.
  cbn [upper_width upper_height lower_width lower_height s] in Su, Sl.
  exists u, l. split; [exact Eu |]. split; [exact El |].
  split; [exact Su |]. split; [exact Sl |].
  pose proof (process_image_cases image_data output_dir uw uh lw lh off w) as C.
  cbv zeta in C. fold s r in C.
  unfold fit in C. rewrite Eopen in C. cbn [bind] in C. rewrite Ef in C.
  rewrite Ef' in C. cbn [upper_crop lower_crop] in C.
  rewrite (savable_size _ _ _ Su), (savable_size _ _ _ Sl) in C.
  rewrite Wd, Wu, Wl in C.
  rewrite (proj2 (Z.eqb_neq uw 0)), (proj2 (Z.eqb_neq uh 0)),
          (proj2 (Z.eqb_neq lw 0)), (proj2 (Z.eqb_neq lh 0)) in C by lia.
  rewrite (proj2 (Z.ltb_ge JPEG_MAX_DIMENSION uw)),
          (proj2 (Z.ltb_ge JPEG_MAX_DIMENSION uh)),
          (proj2 (Z.ltb_ge JPEG_MAX_DIMENSION lw)),
          (proj2 (Z.ltb_ge JPEG_MAX_DIMENSION lh)) in C by lia.
  cbn [orb negb andb] in C. rewrite C. cbn [fst snd files write_file].
  rewrite !String.eqb_refl, upper_lower_distinct. repeat split.
Qed.

(** C7 (as amended): there is no validation of the dimensions and no
    [InvalidDimension] error. A screen width or height that is not positive,
    or a decoded source with a zero width or height, makes some later step
    raise, and [process_image] returns [(None, None)]. (A negative gap is
    not rejected.) *)
Theorem nonpositive_dimension_fails (image_data : list byte)
    (output_dir : string) (uw uh lw lh off : Z) (w : world) :
  uw <= 0 \/ uh <= 0 \/ lw <= 0 \/ lh <= 0 \/
  (exists image, PIL.open image_data = Ok image /\
                 (PIL.width image = 0 \/ PIL.height image = 0)) ->
  fst (process_image image_data output_dir uw uh lw lh off w) = (None, None).
Proof.
  intros Hbad.
  pose proof (process_image_cases image_data output_dir uw uh lw lh off w) as C.
  cbv zeta in C.
  set (s := {| upper_width := uw; upper_height := uh;
               lower_width := lw; lower_height := lh; offset_px := off |}) in *.
  destruct (fit image_data s) as [f | e] eqn:Efit; [| rewrite C; reflexivity].
  destruct (fit_inv _ _ _ Efit) as (image & Eopen & Ef).
  destruct (fit_image_inv _ _ _ Ef) as (sc & im & u & l & Esc & _ & Eu & El & Ef').
  assert (Hsrc : ~ (PIL.width image = 0 \/ PIL.height image = 0)).
  { intros Hz. rewrite to_rgb_width, to_rgb_height in Esc.
    destruct (compute_scaling_zero _ _ s Hz) as [e E]. congruence. }
  cbv zeta in Eu, El. unfold upper_box, lower_box in Eu, El.
  apply crop_inv in Eu, El.
  destruct Eu as (Hux & Huy & _). destruct El as (Hlx & Hly & _).
  destruct (fit_image_crop_sizes _ _ _ Ef) as (Su & Sl).
  cbn [upper_width upper_height lower_width lower_height s] in *.
  assert (Hcrop : nonempty (upper_crop f) && nonempty (lower_crop f) = false).
  { rewrite (nonempty_size _ _ _ Su), (nonempty_size _ _ _ Sl).
    destruct Hbad as [Hb | [Hb | [Hb | [Hb | (image' & Eopen' & Hz)]]]].
    - rewrite (proj2 (Z.eqb_eq uw 0)) by lia. reflexivity.
    - rewrite (proj2 (Z.eqb_eq uh 0)) by lia.
      rewrite orb_true_r. reflexivity.
    - rewrite (proj2 (Z.eqb_eq lw 0)) by lia. apply andb_false_r.
    - rewrite (proj2 (Z.eqb_eq lh 0)) by lia.
      rewrite orb_true_r. apply andb_false_r.
    - rewrite Eopen in Eopen'. injection Eopen' as <-. contradiction. }
  destruct (_ && _); [| rewrite C; reflexivity].
  destruct (savable (upper_crop f)) eqn:Vu; [| rewrite C; reflexivity].
  destruct (writable w _); [| rewrite C; reflexivity].
  destruct (savable (lower_crop f)) eqn:Vl; [| rewrite C; reflexivity].
  rewrite (savable_nonempty _ Vu), (savable_nonempty _ Vl) in Hcrop.
  discriminate.
Qed.

(** C8: whenever a step of the body of [process_image] raises,
    [process_image] returns [(None, None)], [main] returns [1], and the
    wallpaper tool is not run: the list of commands run is what it was
    before. *)
Theorem failure_is_not_forwarded (cfg : config) (image_data : list byte)
    (w : world) (e : exn) :
  let s := cfg_screens cfg in
  fst (process_image_try image_data (output_dir cfg) s w) = Raise e ->
  fst (process_image image_data (output_dir cfg)
         (upper_width s) (upper_height s) (lower_width s) (lower_height s)
         (offset_px s) w) = (None, None) /\
  fst (main cfg (Some image_data) w) = 1 /\
  runs (snd (main cfg (Some image_data) w)) = runs w.
Proof.
  cbv zeta. intros E.
  pose proof (process_image_result image_data (output_dir cfg)
                (upper_width (cfg_screens cfg)) (upper_height (cfg_screens cfg))
                (lower_width (cfg_screens cfg)) (lower_height (cfg_screens cfg))
                (offset_px (cfg_screens cfg)) w) as (_ & Hruns & _).
  assert (Enone : fst (process_image image_data (output_dir cfg)
                    (upper_width (cfg_screens cfg)) (upper_height (cfg_screens cfg))
                    (lower_width (cfg_screens cfg)) (lower_height (cfg_screens cfg))
                    (offset_px (cfg_screens cfg)) w) = (None, None)).
  { unfold process_image.
    destruct (cfg_screens cfg) as [uw uh lw lh off].
    cbn [upper_width upper_height lower_width lower_height offset_px] in *.
    destruct (process_image_try _ _ _ w) as [[[u l] | e'] w']; cbn [fst] in E.
    - discriminate.
    - reflexivity. }
  split; [exact Enone |].
  unfold main. destruct image_data as [| b data]; [split; reflexivity |].
  destruct (process_image _ _ _ _ _ _ _ w) as [[u l] w1].
  cbn [fst snd] in Enone, Hruns. injection Enone as -> ->.
  cbn [truthy negb orb fst snd]. split; [reflexivity | exact Hruns].
Qed.

End Results.

(** C1: the footprint is [max(Wu, Wl)] by [Hu + G + Hl] and the scale
    factor is the larger of the two quotients, but the scaled image does
    not always cover the footprint: for a 2148 x 2000 source and the default
    screens the scaled width is 1919, one less than the required 1920. *)
Theorem cover_scale_one_pixel_short :
  exists sc qw qh f,
    compute_scaling 2148 2000 default_screens = Ok sc /\
    required_width sc = Z.max 1920 1920 /\
    required_height sc = 1080 + 100 + 515 /\
    Py.int_truediv (required_width sc) 2148 = Ok qw /\
    Py.int_truediv (required_height sc) 2000 = Ok qh /\
    scale_factor sc = Py.max_float qw qh /\
    @fit example_pillow bytes_2148x2000 default_screens = Ok f /\
    plan f = sc /\
    PIL.size (scaled f) = (1919, 1787) /\
    PIL.width (scaled f) < required_width (plan f).
Proof.
  eexists _, _, _, _.
  split; [exact scaling_2148x2000 |].
  vm_compute. repeat split.
Qed.

(** C4: in the boundary scenario of the specification the horizontal offset is
    546, not 547, and the upper rectangle is (546,0)-(2466,1080). *)
Lemma boundary_scenario_offset_546 :
  exists f,
    @fit example_pillow bytes_3840x2160 default_screens = Ok f /\
    PIL.size (scaled f) = (3013, 1695) /\
    offsets f = (546, 0) /\
    offsets f <> (547, 0) /\
    upper_rect f <> (547, 0, 2467, 1080) /\
    lower_rect f <> (547, 1180, 2467, 1695).
Proof.
  vm_compute. eexists. split; [reflexivity |].
  repeat split; discriminate.
Qed.

(** C3: for a 2148 x 2000 source the right edge of both crop rectangles (1920)
    is outside the scaled image (1919 wide), and both files are written and
    returned all the same. *)
Lemma crop_outside_scaled_image_is_saved :
  exists f,
    @fit example_pillow bytes_2148x2000 default_screens = Ok f /\
    PIL.width (scaled f) = 1919 /\
    upper_rect f = (0, 46, 1920, 1126) /\
    lower_rect f = (0, 1226, 1920, 1741) /\
    fst (@process_image example_pillow bytes_2148x2000 "temp"
           1920 1080 1920 515 100 example_world) =
    (Some "/opt/wallpaper/temp/wallpaper_upper.jpg"%string,
     Some "/opt/wallpaper/temp/wallpaper_lower.jpg"%string).
Proof.
  vm_compute. eexists. repeat split.
Qed.

(** C7: a gap of -100 is accepted: a 1920 x 1495 source with the default screen
    sizes gives both files. *)
Lemma negative_gap_is_accepted :
  fst (@process_image example_pillow bytes_1920x1495 "temp"
         1920 1080 1920 515 (-100) example_world) =
  (Some "/opt/wallpaper/temp/wallpaper_upper.jpg"%string,
   Some "/opt/wallpaper/temp/wallpaper_lower.jpg"%string).
Proof. vm_compute. reflexivity. Qed.

Section Scenario.
Context `{PIL.Pillow}.

Lemma rescale_size (image : PIL.image) (sc : scaling) (im : PIL.image) :
  Py.float_ne (scale_factor sc) Py.one = true ->
  rescale image sc = Ok im ->
  PIL.size im = (new_width sc, new_height sc).
Proof.
  intros Hne. unfold rescale, PIL.resize. rewrite Hne.
  destruct ((new_width sc =? PIL.width image) &&
            (new_height sc =? PIL.height image)) eqn:Esame.
  - intros E. injection E as <-.
    apply andb_prop in Esame. destruct Esame as [Ew Eh].
    apply Z.eqb_eq in Ew, Eh. unfold PIL.size. congruence.
  - destruct (negb _); [discriminate |].
    destruct ((new_width sc <? 1) || (new_height sc <? 1)); [discriminate |].
    destruct (negb _); [discriminate |].
    intros E. injection E as <-. reflexivity.
Qed.

(** C4 (as amended): when the scale factor is not [1.0] the image is
    resized to [(new_width, new_height)], the two integers computed from
    [source_width * scale] and [source_height * scale]; when it is [1.0]
    the image is left as it is. For a 3840 x 2160 source with the default
    screens the scale factor is the larger of [1920/3840] and [1695/2160]
    (the double 7068149415178695 * 2^-53, 0.7847...), the scaled image is
    3013 x 1695, the offsets are 546 and 0, and the crop rectangles are
    (546,0)-(2466,1080) and (546,1180)-(2466,1695). *)
Theorem resize_and_boundary_scenario :
  (forall (image : PIL.image) (sc : scaling) (im : PIL.image),
     Py.float_ne (scale_factor sc) Py.one = true ->
     rescale image sc = Ok im ->
     PIL.size im = (new_width sc, new_height sc)) /\
  (forall (image : PIL.image) (sc : scaling),
     Py.float_ne (scale_factor sc) Py.one = false ->
     rescale image sc = Ok image) /\
  (forall image : PIL.image,
     PIL.size image = (3840, 2160) ->
     exists f qw qh,
       fit_image image default_screens = Ok f /\
       (required_width (plan f), required_height (plan f)) = (1920, 1695) /\
       Py.int_truediv 1920 3840 = Ok qw /\
       Py.int_truediv 1695 2160 = Ok qh /\
       scale_factor (plan f) = Py.max_float qw qh /\
       scale_factor (plan f) = S754_finite false 7068149415178695 (-53) /\
       PIL.size (scaled f) = (3013, 1695) /\
       offsets f = (546, 0) /\
       upper_rect f = (546, 0, 2466, 1080) /\
       lower_rect f = (546, 1180, 2466, 1695)).
Proof.
  split; [exact rescale_size |]. split.
  - intros image sc Hne. unfold rescale. rewrite Hne. reflexivity.
  - intros image Esize. unfold PIL.size in Esize.
    injection Esize as Ew Eh.
    pose proof scaling_3840x2160 as Esc. rewrite <- Ew, <- Eh in Esc.
    set (sc := {| required_width := 1920; required_height := 1695;
                  scale_factor_width := S754_finite false 4503599627370496 (-53);
                  scale_factor_height := S754_finite false 7068149415178695 (-53);
                  scale_factor := S754_finite false 7068149415178695 (-53);
                  new_width := 3013; new_height := 1695 |}) in *.
    assert (Hne : Py.float_ne (scale_factor sc) Py.one = true)
      by (vm_compute; reflexivity).
    assert (Ers : rescale image sc =
                  Ok {| PIL.mode := PIL.mode image; PIL.width := 3013;
                        PIL.height := 1695;
                        PIL.getpixel := PIL.lanczos image 3013 1695 |}).
    { unfold rescale, PIL.resize. rewrite Hne.
      cbn [new_width new_height sc]. rewrite Ew, Eh. reflexivity. }
    assert (Hs : crop_screens default_screens)
      by (vm_compute; intuition discriminate).
    assert (Fu : PIL.fits (upper_width default_screens)
                   (upper_height default_screens) = true) by reflexivity.
    assert (Fl : PIL.fits (lower_width default_screens)
                   (lower_height default_screens) = true) by reflexivity.
    destruct (fit_image_total image default_screens sc
                {| PIL.mode := PIL.mode image; PIL.width := 3013;
                   PIL.height := 1695;
                   PIL.getpixel := PIL.lanczos image 3013 1695 |} Hs Fu Fl
                (proj1 (Z.leb_le 3013 PIL.INT_MAX) eq_refl)
                (proj1 (Z.leb_le 1695 PIL.INT_MAX) eq_refl)
                Esc Ers) as (f & Ef & Ep & Es & _).
    exists f. eexists _, _. split; [exact Ef |].
    destruct (fit_image_inv _ _ _ Ef)
      as (sc' & im' & u & l & Esc' & Ers' & _ & _ & Ef').
    rewrite Esc in Esc'. injection Esc' as <-.
    rewrite Ers in Ers'. injection Ers' as <-.
    rewrite Ef'. cbn [plan scaled offsets upper_rect lower_rect].
    vm_compute. repeat split.
Qed.

End Scenario.

(** The limits of Pillow and the normalisation of paths, on examples. *)

Example output_paths_are_normalised :
  upper_file_of example_world "./temp" =
    "/opt/wallpaper/temp/wallpaper_upper.jpg"%string /\
  lower_file_of example_world "temp//" =
    "/opt/wallpaper/temp/wallpaper_lower.jpg"%string /\
  upper_file_of example_world "/srv/out" =
    "/srv/out/wallpaper_upper.jpg"%string /\
  upper_file_of example_world "../out" =
    "/opt/wallpaper/../out/wallpaper_upper.jpg"%string.
Proof. vm_compute. repeat split. Qed.

(** A crop side of 65501 pixels is not written: a 65535 x 2 source is
    fitted without a resize, and the save of the upper crop raises. *)
Example jpeg_side_above_limit :
  is_ok (@fit example_pillow [Byte.xff; Byte.xff; Byte.x00; Byte.x02]
           {| upper_width := 65501; upper_height := 1;
              lower_width := 1; lower_height := 1; offset_px := 0 |}) = true /\
  fst (@process_image example_pillow [Byte.xff; Byte.xff; Byte.x00; Byte.x02]
         "temp" 65501 1 1 1 0 example_world) = (None, None).
Proof. vm_compute. split; reflexivity. Qed.

(** [resize] refuses a size that is no C [int], and a size for which
    there is no memory. *)
Example resize_beyond_limits :
  @PIL.resize example_pillow (blank 10 10) (3000000000, 10) =
    Raise OverflowError /\
  @PIL.resize example_pillow (blank 10 10) (2000000002, 2000000002) =
    Raise MemoryError.
Proof. vm_compute. split; reflexivity. Qed.

Lemma crops_are_saved_unchecked_witness :
  fst (@process_image example_pillow bytes_2148x2000 "./temp"
         1920 1080 1920 515 100 example_world) =
  (Some "/opt/wallpaper/temp/wallpaper_upper.jpg"%string,
   Some "/opt/wallpaper/temp/wallpaper_lower.jpg"%string) /\
  files (snd (@process_image example_pillow bytes_2148x2000 "./temp"
                1920 1080 1920 515 100 example_world))
    "/opt/wallpaper/temp/wallpaper_upper.jpg" = Some [Byte.xff; Byte.xd8].
Proof.
  destruct (@crops_are_saved_unchecked example_pillow bytes_2148x2000 "./temp"
           1920 1080 1920 515 100 example_world (blank 2148 2000)
           {| required_width := 1920; required_height := 1695;
              scale_factor_width := S754_finite false 8051127825466808 (-53);
              scale_factor_height := S754_finite false 7633601368392991 (-53);
              scale_factor := S754_finite false 8051127825466808 (-53);
              new_width := 1919; new_height := 1787 |}
           {| PIL.mode := PIL.RGB; PIL.width := 1919; PIL.height := 1787;
              PIL.getpixel := fun _ _ => PIL.white |})
    as (u & l & _ & _ & _ & _ & Er & Eu & _).
  - vm_compute. intuition discriminate.
  - vm_compute. intuition discriminate.
  - vm_compute. intuition discriminate.
  - reflexivity.
  - reflexivity.
  - reflexivity.
  - exact scaling_2148x2000.
  - vm_compute. reflexivity.
  - reflexivity.
  - reflexivity.
  - reflexivity.
  - split; [exact Er | exact Eu].
Defined.

Lemma resize_and_boundary_scenario_witness :
  Py.float_ne (S754_finite false 7068149415178695 (-53)) Py.one = true /\
  forall im,
    @rescale example_pillow (blank 3840 2160)
      {| required_width := 1920; required_height := 1695;
         scale_factor_width := S754_finite false 4503599627370496 (-53);
         scale_factor_height := S754_finite false 7068149415178695 (-53);
         scale_factor := S754_finite false 7068149415178695 (-53);
         new_width := 3013; new_height := 1695 |} = Ok im ->
    PIL.size im = (3013, 1695).
Proof.
  assert (Hne : Py.float_ne (S754_finite false 7068149415178695 (-53)) Py.one
                 = true) by (vm_compute; reflexivity).
  split; [exact Hne |].
  intros im E.
  exact (proj1 (@resize_and_boundary_scenario example_pillow)
           (blank 3840 2160)
           {| required_width := 1920; required_height := 1695;
              scale_factor_width := S754_finite false 4503599627370496 (-53);
              scale_factor_height := S754_finite false 7068149415178695 (-53);
              scale_factor := S754_finite false 7068149415178695 (-53);
              new_width := 3013; new_height := 1695 |}
           im Hne E).
Defined.

Lemma nonpositive_dimension_fails_witness :
  fst (@process_image example_pillow bytes_3840x2160 "temp"
         0 1080 1920 515 100 example_world) = (None, None).
Proof.
  apply (@nonpositive_dimension_fails example_pillow).
  left. lia.
Defined.

Lemma failure_is_not_forwarded_witness :
  fst (@process_image_try example_pillow bytes_3840x2160 "temp" default_screens
         lower_readonly_world) = Raise OSError /\
  fst (@main example_pillow example_config (Some bytes_3840x2160)
         lower_readonly_world) = 1 /\
  runs (snd (@main example_pillow example_config (Some bytes_3840x2160)
               lower_readonly_world)) = [].
Proof.
  assert (E : fst (@process_image_try example_pillow bytes_3840x2160
                     (output_dir example_config) (cfg_screens example_config)
                     lower_readonly_world) = Raise OSError)
    by (vm_compute; reflexivity).
  split; [exact E |].
  exact (proj2 (@failure_is_not_forwarded example_pillow example_config
                  bytes_3840x2160 lower_readonly_world OSError E)).
Defined.

Lemma apply_wallpaper_cases (exe upper lower : string) (w : world) :
  let r := apply_wallpaper exe upper lower w in
  let c0 := upper_command exe upper in
  let c1 := lower_command exe lower in
  if path_exists exe w && path_exists upper w && path_exists lower w then
    match run_rc w c0 with
    | Some 0 =>
        match run_rc w c1 with
        | Some 0 => r = (true, record_run c1 (record_run c0 w))
        | _ => r = (false, record_run c1 (record_run c0 w))
        end
    | _ => r = (false, record_run c0 w)
    end
  else r = (false, w).
Proof.
  cbv zeta. unfold apply_wallpaper, subprocess_run, upper_command, lower_command.
  destruct (path_exists exe w); [| reflexivity].
  destruct (path_exists upper w); [| reflexivity].
  destruct (path_exists lower w); [| reflexivity].
  cbn [negb andb].
  destruct (run_rc w _) as [rc0 |]; [| reflexivity].
  destruct rc0 as [| p | p]; [| reflexivity | reflexivity].
  cbn [Z.eqb negb run_rc record_run].
  destruct (run_rc w _) as [rc1 |]; [| reflexivity].
  destruct rc1 as [| p | p]; reflexivity.
Qed.

(** X1: when the tool or one of the two wallpaper files does not exist,
    [apply_wallpaper] returns [False] and runs nothing. *)
Theorem apply_wallpaper_missing_file (exe upper lower : string) (w : world) :
  path_exists exe w = false \/ path_exists upper w = false \/
  path_exists lower w = false ->
  apply_wallpaper exe upper lower w = (false, w).
Proof.
  intros Hmiss.
  pose proof (apply_wallpaper_cases exe upper lower w) as C. cbv zeta in C.
  assert (E : path_exists exe w && path_exists upper w && path_exists lower w
              = false).
  { destruct Hmiss as [-> | [-> | ->]];
      [reflexivity | apply andb_false_intro1, andb_false_r | apply andb_false_r]. }
  rewrite E in C. exact C.
Qed.

(** X2: [apply_wallpaper] returns [True] exactly when the tool and both
    files exist and both invocations of the tool exit with status 0; it has
    then run the command for monitor 0 with the upper file and, after it,
    the command for monitor 1 with the lower file, and nothing else. *)
Theorem apply_wallpaper_true_iff (exe upper lower : string) (w : world) :
  let r := apply_wallpaper exe upper lower w in
  (fst r = true <->
   path_exists exe w = true /\ path_exists upper w = true /\
   path_exists lower w = true /\
   run_rc w (upper_command exe upper) = Some 0 /\
   run_rc w (lower_command exe lower) = Some 0) /\
  (fst r = true ->
   runs (snd r) = lower_command exe lower :: upper_command exe upper :: runs w).
Proof.
  cbv zeta.
  pose proof (apply_wallpaper_cases exe upper lower w) as C. cbv zeta in C.
  destruct (path_exists exe w), (path_exists upper w), (path_exists lower w);
    cbn [andb] in C;
    try (rewrite C; cbn [fst snd]; split; [split; intros; [| intuition] |];
         discriminate).
  destruct (run_rc w (upper_command exe upper)) as [[| p | p] |];
    try (rewrite C; cbn [fst snd]; split; [split; intros; [| intuition] |];
         discriminate).
  destruct (run_rc w (lower_command exe lower)) as [[| p | p] |];
    rewrite C; cbn [fst snd];
    try (split; [split; intros; [| intuition] |]; discriminate).
  split; [split; intros; [repeat split | reflexivity] | reflexivity].
Qed.

(** X3: whatever happens, [apply_wallpaper] changes no file, runs at most
    the two commands, the upper one first, and runs the lower one only
    after the upper one has exited with status 0. *)
Theorem apply_wallpaper_runs (exe upper lower : string) (w : world) :
  let r := apply_wallpaper exe upper lower w in
  files (snd r) = files w /\
  (runs (snd r) = runs w \/
   runs (snd r) = upper_command exe upper :: runs w \/
   (runs (snd r) = lower_command exe lower :: upper_command exe upper :: runs w
    /\ run_rc w (upper_command exe upper) = Some 0)).
Proof.
  cbv zeta.
  pose proof (apply_wallpaper_cases exe upper lower w) as C. cbv zeta in C.
  destruct (_ && _ && _); [| rewrite C; cbn; auto].
  destruct (run_rc w (upper_command exe upper)) as [[| p | p] |];
    try (rewrite C; cbn; auto).
  destruct (run_rc w (lower_command exe lower)) as [[| p | p] |];
    rewrite C; cbn; auto.
Qed.

Lemma upper_file_truthy (w : world) (output_dir : string) :
  truthy (Some (upper_file_of w output_dir)) = true.
Proof.
  unfold upper_file_of.
  destruct (path_join_name (output_path_of w output_dir)) as (pre & -> & _).
  destruct pre; reflexivity.
Qed.

Lemma lower_file_truthy (w : world) (output_dir : string) :
  truthy (Some (lower_file_of w output_dir)) = true.
Proof.
  unfold lower_file_of.
  destruct (path_join_name (output_path_of w output_dir)) as (pre & _ & ->).
  destruct pre; reflexivity.
Qed.

Lemma lower_upper_distinct (w : world) (output_dir : string) :
  String.eqb (lower_file_of w output_dir) (upper_file_of w output_dir) = false.
Proof. rewrite String.eqb_sym. apply upper_lower_distinct. Qed.

Lemma path_exists_write_file (p q : string) (c : list byte) (w : world) :
  path_exists p (write_file q c w) = String.eqb p q || path_exists p w.
Proof.
  unfold path_exists, write_file. cbn [files].
  destruct (String.eqb p q); reflexivity.
Qed.

Section Files.
Context `{PIL.Pillow}.


(** X5: [process_image] returns two paths exactly when the image is
    decoded and fitted, the JPEG writer takes both crops (neither is empty
    and no side is above 65500), and the output directory and both files
    can be written. The paths are then [wallpaper_upper.jpg] and
    [wallpaper_lower.jpg] in the output directory under the script
    directory, normalised, and afterwards each file holds the JPEG
    encoding, at quality 95, of its crop. *)
Theorem process_image_success_iff (image_data : list byte)
    (output_dir : string) (uw uh lw lh off : Z) (w : world) :
  let s := {| upper_width := uw; upper_height := uh;
              lower_width := lw; lower_height := lh; offset_px := off |} in
  let r := process_image image_data output_dir uw uh lw lh off w in
  let upper_file := upper_file_of w output_dir in
  let lower_file := lower_file_of w output_dir in
  ((exists u l, fst r = (Some u, Some l)) <->
   exists f, fit image_data s = Ok f /\
             savable (upper_crop f) = true /\
             savable (lower_crop f) = true /\
             writable w (output_path_of w output_dir) = true /\
             writable w upper_file = true /\ writable w lower_file = true) /\
  (forall u l, fst r = (Some u, Some l) ->
     u = upper_file /\ l = lower_file /\
     exists f, fit image_data s = Ok f /\
       files (snd r) u = Some (PIL.jpeg_encode (upper_crop f) 95) /\
       files (snd r) l = Some (PIL.jpeg_encode (lower_crop f) 95)).
Proof.
  cbv zeta.
  pose proof (process_image_cases image_data output_dir uw uh lw lh off w) as C.
  cbv zeta in C.
  destruct (fit image_data _) as [f | e].
  - destruct (writable w (output_path_of w output_dir));
      [| rewrite C; cbn [fst]; split;
         [split; [intros (u & l & E); discriminate
                 | intros (f' & _ & _ & _ & D & _); discriminate]
         | intros u l E; discriminate]].
    destruct (writable w (upper_file_of w output_dir));
      [| rewrite C; cbn [fst]; split;
         [split; [intros (u & l & E); discriminate
                 | intros (f' & _ & _ & _ & _ & D & _); discriminate]
         | intros u l E; discriminate]].
    cbn [andb] in C.
    destruct (savable (upper_crop f)) eqn:Nu;
      [| rewrite C; cbn [fst]; split;
         [split; [intros (u & l & E); discriminate
                 | intros (f' & E' & D & _); injection E' as <-; congruence]
         | intros u l E; discriminate]].
    destruct (writable w (lower_file_of w output_dir));
      [| rewrite C; cbn [fst]; split;
         [split; [intros (u & l & E); discriminate
                 | intros (f' & _ & _ & _ & _ & _ & D); discriminate]
         | intros u l E; discriminate]].
    destruct (savable (lower_crop f)) eqn:Nl;
      [| rewrite C; cbn [fst]; split;
         [split; [intros (u & l & E); discriminate
                 | intros (f' & E' & _ & D & _); injection E' as <-; congruence]
         | intros u l E; discriminate]].
    rewrite C. cbn [fst snd]. split.
    + split.
      * intros _. exists f. repeat split; assumption.
      * intros _. eexists _, _. reflexivity.
    + intros u l E. injection E as <- <-.
      split; [reflexivity |]. split; [reflexivity |].
      exists f. split; [reflexivity |].
      cbn [files write_file].
      rewrite !String.eqb_refl, upper_lower_distinct. split; reflexivity.
  - rewrite C. cbn [fst]. split.
    + split; [intros (u & l & E); discriminate
             | intros (f' & E' & _); discriminate].
    + intros u l E. discriminate.
Qed.

(** X6: a failure while saving the lower crop comes after the upper file
    has been written. When the upper crop is saved and the lower one is
    not (the JPEG writer refuses it, or its file cannot be opened for
    writing), [process_image] returns [(None, None)] and leaves the new
    upper file in place; a lower file that could not be opened is as it
    was. *)
Theorem upper_file_survives_failure (image_data : list byte)
    (output_dir : string) (uw uh lw lh off : Z) (w : world) (f : fitted) :
  let r := process_image image_data output_dir uw uh lw lh off w in
  fit image_data {| upper_width := uw; upper_height := uh;
                    lower_width := lw; lower_height := lh;
                    offset_px := off |} = Ok f ->
  writable w (output_path_of w output_dir) = true ->
  writable w (upper_file_of w output_dir) = true ->
  savable (upper_crop f) = true ->
  savable (lower_crop f) = false \/
  writable w (lower_file_of w output_dir) = false ->
  fst r = (None, None) /\
  files (snd r) (upper_file_of w output_dir) =
    Some (PIL.jpeg_encode (upper_crop f) 95) /\
  (writable w (lower_file_of w output_dir) = false ->
   files (snd r) (lower_file_of w output_dir) =
   files w (lower_file_of w output_dir)).
Proof.
  cbv zeta. intros Ef Wd Wu Nu Hlow.
  pose proof (process_image_cases image_data output_dir uw uh lw lh off w) as C.
  cbv zeta in C. rewrite Ef, Wd, Wu, Nu in C. cbn [andb] in C.
  destruct (writable w (lower_file_of w output_dir)) eqn:Wl.
  - destruct Hlow as [Nl | D]; [| discriminate].
    rewrite Nl in C. rewrite C. cbn [fst snd].
    split; [reflexivity |]. split; [| discriminate].
    destruct (abandon_file_frame (lower_file_of w output_dir)
                (write_file (upper_file_of w output_dir)
                   (PIL.jpeg_encode (upper_crop f) 95) w))
      as (_ & _ & _ & _ & Hf).
    rewrite (Hf _ (upper_lower_distinct w output_dir)).
    cbn [files write_file]. rewrite String.eqb_refl. reflexivity.
  - rewrite C. cbn [fst snd files write_file].
    rewrite String.eqb_refl, lower_upper_distinct. repeat split.
Qed.

(** X7: [main] returns 0 exactly when there are image bytes, the image is
    decoded and fitted with crops the JPEG writer takes (not empty, no side
    above 65500), the output directory and the two files can be written,
    the tool exists (or is one of the two files just written), and both
    invocations of the tool exit with status 0. It
    returns 0 or 1, and when it returns 0 it has run the command for monitor
    0 with the upper file and then the command for monitor 1 with the lower
    file, and nothing else. *)
Theorem main_zero_iff (cfg : config) (image_data : option (list byte))
    (w : world) :
  let upper_file := upper_file_of w (output_dir cfg) in
  let lower_file := lower_file_of w (output_dir cfg) in
  let exe := exe_path cfg in
  (fst (main cfg image_data w) = 0 <->
   exists data f,
     image_data = Some data /\ data <> [] /\
     fit data (cfg_screens cfg) = Ok f /\
     savable (upper_crop f) = true /\ savable (lower_crop f) = true /\
     writable w (output_path_of w (output_dir cfg)) = true /\
     writable w upper_file = true /\ writable w lower_file = true /\
     (path_exists exe w = true \/ exe = upper_file \/ exe = lower_file) /\
     run_rc w (upper_command exe upper_file) = Some 0 /\
     run_rc w (lower_command exe lower_file) = Some 0) /\
  (fst (main cfg image_data w) = 0 \/ fst (main cfg image_data w) = 1) /\
  (fst (main cfg image_data w) = 0 ->
   runs (snd (main cfg image_data w)) =
   lower_command exe lower_file :: upper_command exe upper_file :: runs w).
Proof.
  cbv zeta.
  destruct image_data as [data |];
    [| cbn [main fst]; split;
       [split; [discriminate | intros (d & f & E & _); discriminate]
       | split; [auto | discriminate]]].
  destruct data as [| b data];
    [cbn [main fst]; split;
       [split; [discriminate | intros (d & f & E & N & _); injection E as <-;
                               contradiction]
       | split; [auto | discriminate]] |].
  unfold main.
  set (bytes := b :: data).
  pose proof (process_image_cases bytes (output_dir cfg)
                (upper_width (cfg_screens cfg)) (upper_height (cfg_screens cfg))
                (lower_width (cfg_screens cfg)) (lower_height (cfg_screens cfg))
                (offset_px (cfg_screens cfg)) w) as C.
  cbv zeta in C.
  assert (Es : {| upper_width := upper_width (cfg_screens cfg);
                  upper_height := upper_height (cfg_screens cfg);
                  lower_width := lower_width (cfg_screens cfg);
                  lower_height := lower_height (cfg_screens cfg);
                  offset_px := offset_px (cfg_screens cfg) |} = cfg_screens cfg)
    by (destruct (cfg_screens cfg); reflexivity).
  rewrite Es in C.
  set (u := upper_file_of w (output_dir cfg)) in *.
  set (l := lower_file_of w (output_dir cfg)) in *.
  destruct (fit bytes (cfg_screens cfg)) as [f | e] eqn:Efit;
    [| rewrite C; cbn [truthy negb orb fst]; split;
       [split; [discriminate
               | intros (d & f0 & Ed & _ & Ef0 & _); injection Ed as <-;
                 congruence]
       | split; [auto | discriminate]]].
  destruct (writable w (output_path_of w (output_dir cfg))) eqn:Wd;
    [| rewrite C; cbn [truthy negb orb fst]; split;
       [split; [discriminate
               | intros (d & f0 & Ed & _ & Ef0 & _ & _ & Wd0 & _);
                 injection Ed as <-; congruence]
       | split; [auto | discriminate]]].
  destruct (writable w u) eqn:Wu;
    [| rewrite C; cbn [truthy negb orb fst]; split;
       [split; [discriminate
               | intros (d & f0 & Ed & _ & Ef0 & _ & _ & _ & Wu0 & _);
                 injection Ed as <-; congruence]
       | split; [auto | discriminate]]].
  cbn [andb] in C.
  destruct (savable (upper_crop f)) eqn:Nu;
    [| rewrite C; cbn [truthy negb orb fst]; split;
       [split; [discriminate
               | intros (d & f0 & Ed & _ & Ef0 & Nu0 & _);
                 injection Ed as <-; congruence]
       | split; [auto | discriminate]]].
  destruct (writable w l) eqn:Wl;
    [| rewrite C; cbn [truthy negb orb fst]; split;
       [split; [discriminate
               | intros (d & f0 & Ed & _ & Ef0 & _ & _ & _ & _ & Wl0 & _);
                 injection Ed as <-; congruence]
       | split; [auto | discriminate]]].
  destruct (savable (lower_crop f)) eqn:Nl;
    [| rewrite C; cbn [truthy negb orb fst]; split;
       [split; [discriminate
               | intros (d & f0 & Ed & _ & Ef0 & _ & Nl0 & _);
                 injection Ed as <-; congruence]
       | split; [auto | discriminate]]].
  rewrite C.
  assert (Tu : truthy (Some u) = true) by apply upper_file_truthy.
  assert (Tl : truthy (Some l) = true) by apply lower_file_truthy.
  rewrite !Tu, !Tl. cbn [negb orb].
  set (w1 := write_file l (PIL.jpeg_encode (lower_crop f) 95)
               (write_file u (PIL.jpeg_encode (upper_crop f) 95) w)).
  pose proof (apply_wallpaper_cases (exe_path cfg) u l w1) as A.
  cbv zeta in A.
  assert (Pu : path_exists u w1 = true).
  { unfold w1. rewrite !path_exists_write_file, String.eqb_refl.
    apply orb_true_r. }
  assert (Pl : path_exists l w1 = true).
  { unfold w1. rewrite !path_exists_write_file, String.eqb_refl. reflexivity. }
  assert (Pe : path_exists (exe_path cfg) w1 = true <->
               (path_exists (exe_path cfg) w = true \/ exe_path cfg = u \/
                exe_path cfg = l)).
  { unfold w1. rewrite !path_exists_write_file, !orb_true_iff, !String.eqb_eq.
    tauto. }
  rewrite Pu, Pl, !andb_true_r in A.
  change (run_rc w1) with (run_rc w) in A.
  revert A Pe.
  destruct (path_exists (exe_path cfg) w1) eqn:Ee; intros A Pe;
    [| rewrite A; cbn [negb fst snd]; split;
       [split; [discriminate
               | intros (d & f0 & _ & _ & _ & _ & _ & _ & _ & _ & Hexe & _);
                 apply (proj2 Pe) in Hexe; discriminate]
       | split; [auto | discriminate]]].
  destruct (run_rc w (upper_command (exe_path cfg) u)) as [[| p | p] |] eqn:R0;
    try (rewrite A; cbn [negb fst snd]; split;
         [split; [discriminate
                 | intros (d & f0 & _ & _ & _ & _ & _ & _ & _ & _ & _ & D & _);
                   discriminate]
         | split; [auto | discriminate]]).
  destruct (run_rc w (lower_command (exe_path cfg) l)) as [[| p | p] |] eqn:R1;
    try (rewrite A; cbn [negb fst snd]; split;
         [split; [discriminate
                 | intros (d & f0 & _ & _ & _ & _ & _ & _ & _ & _ & _ & _ & D);
                   discriminate]
         | split; [auto | discriminate]]).
  rewrite A. cbn [negb fst snd runs record_run write_file w1]. split.
  - split; [| reflexivity]. intros _.
    exists bytes, f. repeat split; try assumption; try reflexivity.
    + discriminate.
    + apply Pe. reflexivity.
  - split; [auto |]. intros _. reflexivity.
Qed.

End Files.

(** A save that fails after opening its file empties a file that existed. *)
Example failed_save_truncates :
  files (snd (@save example_pillow (blank 0 5)
                "/opt/wallpaper/temp/wallpaper_lower.jpg" 95 installed_world))
    "/opt/wallpaper/temp/wallpaper_lower.jpg" = Some [].
Proof. vm_compute. reflexivity. Qed.

Lemma apply_wallpaper_missing_file_witness :
  apply_wallpaper "WallpaperChanger.exe"
    "/opt/wallpaper/temp/wallpaper_upper.jpg"
    "/opt/wallpaper/temp/wallpaper_lower.jpg" example_world =
  (false, example_world).
Proof.
  apply apply_wallpaper_missing_file. left. reflexivity.
Defined.

Lemma apply_wallpaper_true_iff_witness :
  fst (apply_wallpaper "WallpaperChanger.exe"
         "/opt/wallpaper/temp/wallpaper_upper.jpg"
         "/opt/wallpaper/temp/wallpaper_lower.jpg" installed_world) = true.
Proof.
  apply (proj1 (apply_wallpaper_true_iff "WallpaperChanger.exe"
                  "/opt/wallpaper/temp/wallpaper_upper.jpg"
                  "/opt/wallpaper/temp/wallpaper_lower.jpg" installed_world)).
  repeat split.
Defined.


Lemma process_image_success_iff_witness :
  exists u l,
    fst (@process_image example_pillow bytes_3840x2160 "temp"
           1920 1080 1920 515 100 example_world) = (Some u, Some l).
Proof.
  destruct fit_3840x2160 as [f Ef].
  destruct (@fit_image_crop_sizes example_pillow _ _ f Ef) as (Su & Sl).
  apply (proj1 (@process_image_success_iff example_pillow bytes_3840x2160
                  "temp" 1920 1080 1920 515 100 example_world)).
  exists f. split; [exact Ef |].
  split; [rewrite (savable_size _ _ _ Su); reflexivity |].
  split; [rewrite (savable_size _ _ _ Sl); reflexivity |].
  repeat split.
Defined.

Lemma upper_file_survives_failure_witness :
  fst (@process_image example_pillow bytes_3840x2160 "temp"
         1920 1080 1920 515 100 lower_readonly_world) = (None, None) /\
  files (snd (@process_image example_pillow bytes_3840x2160 "temp"
                1920 1080 1920 515 100 lower_readonly_world))
    "/opt/wallpaper/temp/wallpaper_upper.jpg" = Some [Byte.xff; Byte.xd8].
Proof.
  destruct fit_3840x2160 as [f Ef].
  assert (Efit : @fit example_pillow bytes_3840x2160
                   {| upper_width := 1920; upper_height := 1080;
                      lower_width := 1920; lower_height := 515;
                      offset_px := 100 |} = Ok f) by exact Ef.
  destruct (@fit_image_crop_sizes example_pillow _ _ f Ef) as (Su & Sl).
  destruct (@upper_file_survives_failure example_pillow bytes_3840x2160 "temp"
              1920 1080 1920 515 100 lower_readonly_world f Efit)
    as (E1 & E2 & _).
  - reflexivity.
  - reflexivity.
  - rewrite (savable_size _ _ _ Su). reflexivity.
  - right. reflexivity.
  - split; [exact E1 | exact E2].
Defined.

Lemma main_zero_iff_witness :
  fst (@main example_pillow example_config (Some bytes_3840x2160)
         installed_world) = 0.
Proof.
  destruct fit_3840x2160 as [f Ef].
  destruct (@fit_image_crop_sizes example_pillow _ _ f Ef) as (Su & Sl).
  apply (proj1 (@main_zero_iff example_pillow example_config
                  (Some bytes_3840x2160) installed_world)).
  exists bytes_3840x2160, f.
  split; [reflexivity |]. split; [discriminate |].
  split; [exact Ef |].
  split; [rewrite (savable_size _ _ _ Su); reflexivity |].
  split; [rewrite (savable_size _ _ _ Sl); reflexivity |].
  repeat split. left. reflexivity.
Defined.

Section Pixels.
Context `{PIL.Pillow}.

(** X8: after the conversion of lines 255-277 the image is [RGB] and has
    the size it had, whatever its mode was; an [RGB] image is not touched;
    an image in a mode other than [RGBA], [LA] and [P] goes through a plain
    [convert('RGB')]. *)
Theorem to_rgb_is_rgb (image : PIL.image) :
  PIL.mode (to_rgb image) = PIL.RGB /\
  PIL.size (to_rgb image) = PIL.size image /\
  (PIL.mode image = PIL.RGB -> to_rgb image = image) /\
  (PIL.mode image = PIL.L \/ PIL.mode image = PIL.CMYK \/
   PIL.mode image = PIL.Bilevel ->
   to_rgb image = PIL.convert image PIL.RGB).
Proof.
  split; [apply to_rgb_mode |]. split; [apply to_rgb_size |].
  unfold to_rgb. split.
  - intros ->. reflexivity.
  - intros [-> | [-> | ->]]; reflexivity.
Qed.

(** X9: transparency is flattened onto white. For an [RGBA] image, and
    with a Pillow whose masked paste keeps the destination where the mask is
    0 and takes the source where it is 255: a pixel with alpha 0 becomes
    white, a pixel with alpha 255 becomes its [RGB] conversion. *)
Theorem rgba_on_white (image : PIL.image) (x y : Z) :
  (forall dst src, PIL.blend dst src 0 = dst) ->
  (forall dst src, PIL.blend dst src 255 = src) ->
  PIL.mode image = PIL.RGBA ->
  PIL.inside image x y = true ->
  (PIL.last_band image x y = 0 ->
   PIL.getpixel (to_rgb image) x y = PIL.white) /\
  (PIL.last_band image x y = 255 ->
   PIL.getpixel (to_rgb image) x y = PIL.convert_pixel image PIL.RGB x y).
Proof.
  intros Hclear Hopaque Hmode Hin.
  unfold to_rgb. rewrite Hmode.
  cbn [PIL.mode_eqb negb orb PIL.mode].
  rewrite Hmode. cbn [PIL.mode_eqb orb].
  unfold PIL.paste_masked. cbn [PIL.getpixel PIL.new PIL.mode].
  rewrite Hin. split; intros ->; [apply Hclear | apply Hopaque].
Qed.

(** X10: when the scaled image covers the footprint and the gap is not
    negative, both crop rectangles lie inside the scaled image and the
    crops are windows of it: the upper crop starts at the two offsets, the
    lower crop at the same column, [Hu + G] rows further down. Nothing is
    filled in. *)
Theorem crops_are_windows (image : PIL.image) (s : screens) (f : fitted) :
  fit_image image s = Ok f ->
  0 <= offset_px s ->
  Z.max (upper_width s) (lower_width s) <= PIL.width (scaled f) ->
  upper_height s + offset_px s + lower_height s <= PIL.height (scaled f) ->
  let ho := fst (offsets f) in
  let vo := snd (offsets f) in
  (forall x y, 0 <= x < upper_width s -> 0 <= y < upper_height s ->
     PIL.inside (scaled f) (x + ho) (y + vo) = true /\
     PIL.getpixel (upper_crop f) x y =
     PIL.getpixel (scaled f) (x + ho) (y + vo)) /\
  (forall x y, 0 <= x < lower_width s -> 0 <= y < lower_height s ->
     PIL.inside (scaled f) (x + ho)
       (y + (vo + upper_height s + offset_px s)) = true /\
     PIL.getpixel (lower_crop f) x y =
     PIL.getpixel (scaled f) (x + ho)
       (y + (vo + upper_height s + offset_px s))).
Proof.
  intros Ef Hoff Hw Hh.
  destruct (fit_image_inv image s f Ef)
    as (sc & im & u & l & Esc & _ & Eu & El & ->).
  destruct (compute_scaling_required _ _ _ _ Esc) as (Erw & Erh).
  cbv zeta in Eu, El. unfold upper_box, lower_box in Eu, El.
  cbn [scaled offsets upper_crop lower_crop fst snd] in *.
  rewrite Erw, Erh in *.
  set (rw := Z.max (upper_width s) (lower_width s)) in *.
  set (rh := upper_height s + offset_px s + lower_height s) in *.
  unfold horizontal_offset, vertical_offset in *.
  set (dx := PIL.width im - rw) in *. set (dy := PIL.height im - rh) in *.
  pose proof (Z.div_mod dx 2 ltac:(lia)) as Hx.
  pose proof (Z.mod_pos_bound dx 2 ltac:(lia)) as Hx'.
  pose proof (Z.div_mod dy 2 ltac:(lia)) as Hy.
  pose proof (Z.mod_pos_bound dy 2 ltac:(lia)) as Hy'.
  destruct (crop_inv _ _ _ _ _ _ Eu) as (_ & Huh & _).
  destruct (crop_inv _ _ _ _ _ _ El) as (_ & Hlh & _).
  cbv zeta. split; intros x y Hxr Hyr.
  - assert (Hin : PIL.inside im (x + Z.max 0 (dx / 2)) (y + Z.max 0 (dy / 2))
                  = true).
    { unfold PIL.inside.
      rewrite !andb_true_iff, !Z.leb_le, !Z.ltb_lt. unfold dx, dy, rw, rh in *. lia. }
    split; [exact Hin |]. apply (crop_inside _ _ _ _ _ _ _ _ Eu Hin).
  - assert (Hin : PIL.inside im (x + Z.max 0 (dx / 2))
                    (y + (Z.max 0 (dy / 2) + upper_height s + offset_px s))
                  = true).
    { unfold PIL.inside.
      rewrite !andb_true_iff, !Z.leb_le, !Z.ltb_lt. unfold dx, dy, rw, rh in *. lia. }
    split; [exact Hin |]. apply (crop_inside _ _ _ _ _ _ _ _ El Hin).
Qed.

End Pixels.

Lemma rgba_on_white_witness :
  PIL.getpixel (@to_rgb masking_pillow half_transparent) 1 1 = PIL.white.
Proof.
  apply (proj1 (@rgba_on_white masking_pillow half_transparent 1 1
                  (fun dst src => eq_refl) (fun dst src => eq_refl)
                  eq_refl eq_refl)).
  reflexivity.
Defined.

Lemma crops_are_windows_witness :
  exists f,
    @fit_image example_pillow (blank 3840 2160) default_screens = Ok f /\
    PIL.getpixel (lower_crop f) 0 0 =
    PIL.getpixel (scaled f) (0 + fst (offsets f))
      (0 + (snd (offsets f) + 1080 + 100)).
Proof.
  destruct fit_3840x2160 as [f Ef]. exists f. split; [exact Ef |].
  destruct (@fit_image_inv example_pillow _ _ f Ef)
    as (sc & im & u & l & Esc & Ers & _ & _ & Ef').
  cbn [PIL.width PIL.height blank] in Esc.
  rewrite scaling_3840x2160 in Esc. injection Esc as <-.
  vm_compute in Ers. injection Ers as <-.
  assert (Sw : PIL.width (scaled f) = 3013) by (rewrite Ef'; reflexivity).
  assert (Sh : PIL.height (scaled f) = 1695) by (rewrite Ef'; reflexivity).
  apply (proj2 (@crops_are_windows example_pillow (blank 3840 2160)
                  default_screens f Ef
                  ltac:(cbn; lia)
                  ltac:(rewrite Sw; cbn; lia)
                  ltac:(rewrite Sh; cbn; lia)) 0 0);
    cbn; lia.
Defined.

(** The product [w * scale] before the conversion to [int]. *)
Lemma int_mul_float_frac (w ms es : Z) :
  0 < w < 2 ^ 53 ->
  2 ^ 52 <= ms < 2 ^ 53 ->
  -400 <= es <= 400 ->
  let d := Zdigits2 w in
  let N := w * 2 ^ (53 - d) * ms in
  let n := Zdigits2 N - 53 in
  Py.int_mul_float w (S754_finite false (Z.to_pos ms) es) =
    Ok (normal_float (round_frac N (2 ^ n)) (d - 53 + es + n)) /\
  (n = 52 \/ n = 53) /\
  2 ^ 52 <= N / 2 ^ n < 2 ^ 53.
Proof.
  intros Hw Hms Hes. cbv zeta.
  assert (P52 : 0 < 2 ^ 52) by (apply Z.pow_pos_nonneg; lia).
  pose proof (Zdigits2_bounds w ltac:(lia)) as Hd.
  pose proof (digits_le_53 w Hw) as Hd53.
  unfold Py.int_mul_float. rewrite float_of_int_exact by assumption.
  cbn [bind].
  set (d := Zdigits2 w) in *.
  set (mw := w * 2 ^ (53 - d)).
  assert (Hmw : 2 ^ 52 <= mw < 2 ^ 53) by (apply scale_to_53; lia).
  change Py.prec with 53. change Py.emax with 1024.
  unfold SFmul. cbn [xorb].
  rewrite Pos2Z.inj_mul, !Z2Pos.id by lia.
  set (N := mw * ms).
  assert (HN : 2 ^ 104 <= N < 2 ^ 106).
  { unfold N. change (2 ^ 104) with (2 ^ 52 * 2 ^ 52).
    change (2 ^ 106) with (2 ^ 53 * 2 ^ 53). nia. }
  assert (HdN : Zdigits2 N = 105 \/ Zdigits2 N = 106).
  { destruct (Z_lt_le_dec N (2 ^ 105)).
    - left. apply Zdigits2_unique; [change (105 - 1) with 104 |]; lia.
    - right. apply Zdigits2_unique; [change (106 - 1) with 105 |]; lia. }
  set (n := Zdigits2 N - 53) in *.
  assert (Hq : 2 ^ 52 <= N).
  { assert (2 ^ 52 <= 2 ^ 104) by (apply Z.pow_le_mono_r; lia). lia. }
  rewrite binary_round_aux_exact by (fold n; lia).
  fold n.
  split; [reflexivity |]. split; [unfold n; lia |].
  apply div_pow2_bounds; [unfold n; lia |].
  pose proof (Zdigits2_bounds N ltac:(lia)) as HdN'.
  replace (52 + n) with (Zdigits2 N - 1) by (unfold n; lia).
  replace (53 + n) with (Zdigits2 N) by (unfold n; lia). exact HdN'.
Qed.

(** [int(w * scale) >= K] as soon as [w * scale >= K]. *)
Lemma scaled_length_reaches (K w : Z) (scale : spec_float) :
  0 < w < 2 ^ 53 -> 0 <= K < 2 ^ 52 ->
  normal (-400) 400 scale -> reaches K w scale ->
  exists p n,
    Py.int_mul_float w scale = Ok p /\ Py.int_of_float p = Ok n /\ K <= n.
Proof.
  intros Hw HK (ms & es & -> & Hms & Hes) G.
  assert (P52 : 0 < 2 ^ 52) by (apply Z.pow_pos_nonneg; lia).
  assert (P53 : 2 ^ 53 = 2 * 2 ^ 52) by reflexivity.
  apply (proj1 (reaches_finite K w ms es ltac:(lia))) in G.
  destruct (int_mul_float_frac w ms es Hw Hms Hes) as (E & Hn & HQ).
  cbv zeta in E, Hn, HQ. rewrite E. clear E.
  pose proof (digits_le_53 w Hw) as Hd53.
  set (d := Zdigits2 w) in *.
  set (N := w * 2 ^ (53 - d) * ms) in *.
  set (n := Zdigits2 N - 53) in *.
  assert (Pn : 0 < 2 ^ n) by (apply Z.pow_pos_nonneg; lia).
  assert (Pd : 0 < 2 ^ (53 - d)) by (apply Z.pow_pos_nonneg; lia).
  pose proof (round_frac_bounds N (2 ^ n) Pn) as Hr.
  set (R := round_frac N (2 ^ n)) in *.
  set (e0 := d - 53 + es + n).
  assert (Hbr : N / 2 ^ n * 2 ^ n <= N < (N / 2 ^ n + 1) * 2 ^ n).
  { pose proof (Z.div_mod N (2 ^ n) ltac:(lia)).
    pose proof (Z.mod_pos_bound N (2 ^ n) Pn). nia. }
  assert (Goal1 : forall m e,
            2 ^ 52 <= m ->
            ((m = R /\ e = e0) \/ (R = 2 ^ 53 /\ m = 2 ^ 52 /\ e = e0 + 1)) ->
            K <= Z.shiftl m e).
  { intros m e Hm Hme.
    destruct (Z_lt_le_dec 0 es) as [Pos | Neg].
    { (* positive exponent of the scale: the product is huge *)
      assert (1 <= e) by (unfold e0 in Hme; lia).
      rewrite Z.shiftl_mul_pow2 by lia.
      assert (2 ^ 1 <= 2 ^ e) by (apply Z.pow_le_mono_r; lia).
      change (2 ^ 1) with 2 in *. nia. }
    assert (HxN : K * (2 ^ (- es) * 2 ^ (53 - d)) <= N).
    { unfold N. assert (0 < 2 ^ (- es)) by (apply Z.pow_pos_nonneg; lia). nia. }
    rewrite <- Z.pow_add_r in HxN by lia.
    destruct Hme as [[-> ->] | (ER & -> & ->)].
    - destruct (Z_lt_le_dec e0 0) as [L | L].
      + rewrite <- (Z.opp_involutive e0), Z.shiftl_opp_r, Z.shiftr_div_pow2 by lia.
        assert (Pe : 0 < 2 ^ (- e0)) by (apply Z.pow_pos_nonneg; lia).
        apply Z.div_le_lower_bound; [exact Pe |].
        assert (Ex : 2 ^ (- es + (53 - d)) = 2 ^ (- e0) * 2 ^ n).
        { rewrite <- Z.pow_add_r by lia. f_equal. unfold e0. lia. }
        rewrite Ex in HxN.
        assert (2 ^ (- e0) * K <= N / 2 ^ n).
        { apply Z.div_le_lower_bound; [exact Pn |]. nia. }
        lia.
      + rewrite Z.shiftl_mul_pow2 by lia.
        destruct (Z.eq_dec e0 0) as [E0 | E0].
        * rewrite E0, Z.pow_0_r, Z.mul_1_r.
          assert (Ex : - es + (53 - d) = n) by (unfold e0 in E0; lia).
          rewrite Ex in HxN.
          assert (K <= N / 2 ^ n).
          { apply Z.div_le_lower_bound; [exact Pn |]. nia. }
          lia.
        * assert (2 ^ 1 <= 2 ^ e0) by (apply Z.pow_le_mono_r; lia).
          change (2 ^ 1) with 2 in *. nia.
    - destruct (Z_lt_le_dec (e0 + 1) 0) as [L | L].
      + rewrite <- (Z.opp_involutive (e0 + 1)), Z.shiftl_opp_r,
          Z.shiftr_div_pow2 by lia.
        assert (Pe : 0 < 2 ^ (- (e0 + 1))) by (apply Z.pow_pos_nonneg; lia).
        apply Z.div_le_lower_bound; [exact Pe |].
        assert (Ex : 2 ^ (- es + (53 - d)) = 2 * 2 ^ (- (e0 + 1)) * 2 ^ n).
        { rewrite <- Z.pow_succ_r, <- Z.pow_add_r by lia. f_equal.
          unfold e0. lia. }
        rewrite Ex in HxN. nia.
      + rewrite Z.shiftl_mul_pow2 by lia.
        assert (0 < 2 ^ (e0 + 1)) by (apply Z.pow_pos_nonneg; lia). nia. }
  destruct (normal_float_cases R e0 ltac:(lia) ltac:(unfold e0; lia))
    as [[L E] | [L E]]; rewrite E.
  - exists (S754_finite false (Z.to_pos R) e0), (Z.shiftl R e0).
    split; [reflexivity |]. split; [apply int_of_float_finite; lia |].
    apply Goal1; [lia | left; split; reflexivity].
  - exists (S754_finite false (Z.to_pos (2 ^ 52)) (e0 + 1)),
           (Z.shiftl (2 ^ 52) (e0 + 1)).
    split; [reflexivity |]. split; [apply int_of_float_finite; lia |].
    apply Goal1; [lia | right; repeat split; assumption].
Qed.

Lemma max_float_reaches (K w lo hi : Z) (x y : spec_float) :
  0 < w -> 0 <= K -> normal lo hi x -> normal lo hi y ->
  reaches K w x \/ reaches K w y ->
  reaches K w (Py.max_float x y).
Proof.
  intros Hw HK (mx & ex & -> & Hmx & _) (my & ey & -> & Hmy & _) Hor.
  assert (P52 : 0 < 2 ^ 52) by (apply Z.pow_pos_nonneg; lia).
  unfold Py.max_float.
  destruct (SFltb (S754_finite false (Z.to_pos mx) ex)
                  (S754_finite false (Z.to_pos my) ey)) eqn:E.
  - destruct Hor as [G | G]; [| exact G].
    apply SFltb_finite in E; try lia.
    apply (proj1 (reaches_finite K w mx ex ltac:(lia))) in G.
    apply (proj2 (reaches_finite K w my ey ltac:(lia))).
    apply (reaches_mono K w mx ex my ey); try assumption. lia.
  - destruct Hor as [G | G]; [exact G |].
    apply (proj1 (reaches_finite K w my ey ltac:(lia))) in G.
    apply (proj2 (reaches_finite K w mx ex ltac:(lia))).
    apply (reaches_mono K w my ey mx ex); try assumption.
    destruct (Z_lt_le_dec ex ey) as [L | L].
    + rewrite (proj2 (SFltb_finite mx ex my ey ltac:(lia) ltac:(lia))) in E
        by lia. discriminate.
    + destruct (Z.eq_dec ex ey) as [Ee | Ee]; [| lia].
      destruct (Z_lt_le_dec mx my) as [Lm | Lm]; [| lia].
      rewrite (proj2 (SFltb_finite mx ex my ey ltac:(lia) ltac:(lia))) in E
        by lia. discriminate.
Qed.

Lemma max_float_eq_one (lo hi : Z) (x y : spec_float) :
  normal lo hi x -> normal lo hi y ->
  SFleb x Py.one = true -> SFleb y Py.one = true ->
  Py.float_ne x Py.one = false \/ Py.float_ne y Py.one = false ->
  Py.float_ne (Py.max_float x y) Py.one = false.
Proof.
  intros (mx & ex & -> & Hmx & _) (my & ey & -> & Hmy & _) Lx Ly Hor.
  assert (P52 : 0 < 2 ^ 52) by (apply Z.pow_pos_nonneg; lia).
  apply (proj1 (SFleb_one_iff mx ex ltac:(lia))) in Lx.
  apply (proj1 (SFleb_one_iff my ey ltac:(lia))) in Ly.
  unfold Py.max_float.
  destruct (SFltb (S754_finite false (Z.to_pos mx) ex)
                  (S754_finite false (Z.to_pos my) ey)) eqn:E.
  - apply SFltb_finite in E; try lia.
    destruct Hor as [G | G]; [| exact G].
    apply (proj1 (float_ne_one_iff mx ex ltac:(lia))) in G.
    apply (proj2 (float_ne_one_iff my ey ltac:(lia))). lia.
  - destruct Hor as [G | G]; [exact G |].
    apply (proj1 (float_ne_one_iff my ey ltac:(lia))) in G.
    apply (proj2 (float_ne_one_iff mx ex ltac:(lia))).
    destruct (Z_lt_le_dec ex ey) as [L | L].
    + rewrite (proj2 (SFltb_finite mx ex my ey ltac:(lia) ltac:(lia))) in E
        by lia. discriminate.
    + destruct (Z.eq_dec ex ey) as [Ee | Ee]; [| lia].
      destruct (Z_lt_le_dec mx my) as [Lm | Lm]; [| lia].
      rewrite (proj2 (SFltb_finite mx ex my ey ltac:(lia) ltac:(lia))) in E
        by lia. discriminate.
Qed.

Lemma float_ne_lt_one (lo hi : Z) (x : spec_float) :
  normal lo hi x -> SFltb x Py.one = true -> Py.float_ne x Py.one = true.
Proof.
  intros (m & e & -> & Hm & _) G.
  assert (P52 : 0 < 2 ^ 52) by (apply Z.pow_pos_nonneg; lia).
  apply (proj1 (SFltb_lt_one m e ltac:(lia))) in G.
  destruct (Py.float_ne _ Py.one) eqn:E; [reflexivity |].
  apply (proj1 (float_ne_one_iff m e ltac:(lia))) in E. lia.
Qed.

Lemma max_float_lt_one (x y : spec_float) :
  SFltb x Py.one = true -> SFltb y Py.one = true ->
  SFltb (Py.max_float x y) Py.one = true.
Proof.
  intros Hx Hy. unfold Py.max_float. destruct (SFltb x y); assumption.
Qed.

Lemma compute_scaling_inv (w h : Z) (s : screens) (sc : scaling) :
  compute_scaling w h s = Ok sc ->
  exists q1 q2 pw ph,
    Py.int_truediv (Z.max (upper_width s) (lower_width s)) w = Ok q1 /\
    Py.int_truediv (upper_height s + offset_px s + lower_height s) h = Ok q2 /\
    scale_factor sc = Py.max_float q1 q2 /\
    Py.int_mul_float w (scale_factor sc) = Ok pw /\
    Py.int_of_float pw = Ok (new_width sc) /\
    Py.int_mul_float h (scale_factor sc) = Ok ph /\
    Py.int_of_float ph = Ok (new_height sc).
Proof.
  unfold compute_scaling.
  destruct (Py.int_truediv _ w) as [q1 | e]; [| discriminate]. cbn [bind].
  destruct (Py.int_truediv _ h) as [q2 | e]; [| discriminate]. cbn [bind].
  destruct (Py.int_mul_float w _) as [fw | e] eqn:Ew; [| discriminate].
  cbn [bind].
  destruct (Py.int_of_float fw) as [nw | e] eqn:Enw; [| discriminate].
  cbn [bind].
  destruct (Py.int_mul_float h _) as [fh | e] eqn:Eh; [| discriminate].
  cbn [bind].
  destruct (Py.int_of_float fh) as [nh | e] eqn:Enh; [| discriminate].
  cbn [bind].
  intros E. injection E as <-.
  cbn [scale_factor new_width new_height].
  exists q1, q2, fw, fh. repeat split; assumption.
Qed.

Section Tightness.
Context `{PIL.Pillow}.

(** X11: the scaled image is never more than one pixel short of the
    footprint. For positive source and screen sizes and a gap that is not
    negative (all within what Pillow can hold) the scaled size is computed,
    [new_width >= required_width - 1] and
    [new_height >= required_height - 1]; and the image the crops are taken
    from, resized or not, is at least that large. So the black fill of a
    crop is at most its last column and, in the lower crop, its last row:
    every other pixel of a crop is a pixel of the scaled image. *)
Theorem scaled_at_most_one_short (image : PIL.image) (s : screens) :
  valid_source image -> valid_screens s ->
  let rw := Z.max (upper_width s) (lower_width s) in
  let rh := upper_height s + offset_px s + lower_height s in
  exists sc,
    compute_scaling (PIL.width image) (PIL.height image) s = Ok sc /\
    rw - 1 <= new_width sc /\ rh - 1 <= new_height sc /\
    (forall f, fit_image image s = Ok f ->
       let ho := fst (offsets f) in
       let vo := snd (offsets f) in
       rw - 1 <= PIL.width (scaled f) /\ rh - 1 <= PIL.height (scaled f) /\
       (forall x y, 0 <= x < upper_width s -> 0 <= y < upper_height s ->
          x < rw - 1 ->
          PIL.getpixel (upper_crop f) x y =
          PIL.getpixel (scaled f) (x + ho) (y + vo)) /\
       (forall x y, 0 <= x < lower_width s -> 0 <= y < lower_height s ->
          x < rw - 1 -> y < lower_height s - 1 ->
          PIL.getpixel (lower_crop f) x y =
          PIL.getpixel (scaled f) (x + ho)
            (y + (vo + upper_height s + offset_px s)))).
Proof.
  intros (Hw & Hh) Hs rw rh.
  set (w := PIL.width image) in *. set (h := PIL.height image) in *.
  destruct (compute_scaling_ok w h s Hw Hh Hs)
    as (sc & q1 & q2 & E1 & E2 & Esc & Erw & Erh & Escale & N1 & N2 & _).
  pose proof Hs as (Huw & Huh & Hlw & Hlh & Hoff).
  unfold max_dim in *.
  assert (B64 : 2 ^ 64 = 18446744073709551616) by reflexivity.
  assert (B53 : 2 ^ 53 = 9007199254740992) by reflexivity.
  assert (B52 : 2 ^ 52 = 4503599627370496) by reflexivity.
  assert (Hrw : 0 < rw < 2 ^ 64) by (unfold rw; lia).
  assert (Hrh : 0 < rh < 2 ^ 64) by (unfold rh; lia).
  fold rw in E1. fold rh in E2.
  destruct (compute_scaling_inv w h s sc Esc)
    as (q1' & q2' & pw & ph & _ & _ & _ & Epw & Enw & Eph & Enh).
  assert (Nm : normal (-400) 400 (scale_factor sc)).
  { rewrite Escale. apply max_float_normal; assumption. }
  assert (R1 : reaches (rw - 1) w (scale_factor sc)).
  { rewrite Escale. apply (max_float_reaches _ _ (-400) 400); try assumption;
      try lia.
    left. destruct (int_truediv_reaches rw w Hrw ltac:(lia) ltac:(unfold rw; lia))
      as (q & Eq & Hq). congruence. }
  assert (R2 : reaches (rh - 1) h (scale_factor sc)).
  { rewrite Escale. apply (max_float_reaches _ _ (-400) 400); try assumption;
      try lia.
    right. destruct (int_truediv_reaches rh h Hrh ltac:(lia) ltac:(unfold rh; lia))
      as (q & Eq & Hq). congruence. }
  assert (Gw : rw - 1 <= new_width sc).
  { destruct (scaled_length_reaches (rw - 1) w _ ltac:(lia) ltac:(unfold rw; lia)
                Nm R1) as (p & n & Ep & En & Hn).
    congruence. }
  assert (Gh : rh - 1 <= new_height sc).
  { destruct (scaled_length_reaches (rh - 1) h _ ltac:(lia) ltac:(unfold rh; lia)
                Nm R2) as (p & n & Ep & En & Hn).
    congruence. }
  exists sc. split; [exact Esc |]. split; [exact Gw |]. split; [exact Gh |].
  intros f Ef.
  destruct (fit_image_inv image s f Ef)
    as (sc' & im & u & l & Esc' & Ers & Eu & El & ->).
  fold w h in Esc'. rewrite Esc in Esc'. injection Esc' as <-.
  cbv zeta in Eu, El |- *. cbn [scaled offsets upper_crop lower_crop fst snd].
  assert (Hsz : rw - 1 <= PIL.width im /\ rh - 1 <= PIL.height im);
    [| destruct Hsz as [Sw Sh]; split; [exact Sw |]; split; [exact Sh |];
       unfold upper_box, lower_box in Eu, El;
       rewrite Erw, Erh in *; fold rw rh in Eu, El |- *;
       unfold horizontal_offset, vertical_offset in *;
       set (dx := PIL.width im - rw) in *; set (dy := PIL.height im - rh) in *;
       pose proof (Z.div_mod dx 2 ltac:(lia)) as Hx;
       pose proof (Z.mod_pos_bound dx 2 ltac:(lia)) as Hx';
       pose proof (Z.div_mod dy 2 ltac:(lia)) as Hy;
       pose proof (Z.mod_pos_bound dy 2 ltac:(lia)) as Hy';
       split; intros x y Hxr Hyr;
       [ intros Hcol; apply (crop_inside _ _ _ _ _ _ _ _ Eu)
       | intros Hcol Hrow; apply (crop_inside _ _ _ _ _ _ _ _ El) ];
       unfold PIL.inside;
       rewrite !andb_true_iff, !Z.leb_le, !Z.ltb_lt;
       unfold dx, dy, rw, rh in *; lia ].
  destruct (Py.float_ne (scale_factor sc) Py.one) eqn:Ene.
  - pose proof (rescale_size image sc im Ene Ers) as Sz.
    unfold PIL.size in Sz. injection Sz as -> ->. split; assumption.
  - unfold rescale in Ers. rewrite Ene in Ers. injection Ers as <-.
    fold w h.
    (* the scale is 1.0: neither quotient is above 1.0 *)
    destruct (Z_lt_le_dec w rw) as [Lw | Lw].
    { exfalso.
      destruct (int_truediv_gt_one rw w Hrw ltac:(lia) Lw ltac:(lia))
        as (q & Eq & Hq).
      assert (G : SFltb Py.one (scale_factor sc) = true).
      { rewrite Escale. apply (max_float_gt_one (-400) 400); try assumption.
        left. congruence. }
      rewrite (float_ne_gt_one (-400) 400 _ Nm G) in Ene. discriminate. }
    destruct (Z_lt_le_dec h rh) as [Lh | Lh].
    { exfalso.
      destruct (int_truediv_gt_one rh h Hrh ltac:(lia) Lh ltac:(lia))
        as (q & Eq & Hq).
      assert (G : SFltb Py.one (scale_factor sc) = true).
      { rewrite Escale. apply (max_float_gt_one (-400) 400); try assumption.
        right. congruence. }
      rewrite (float_ne_gt_one (-400) 400 _ Nm G) in Ene. discriminate. }
    lia.
Qed.

(** X12: resampling is skipped exactly when the source covers the
    footprint and has the same width or the same height as the footprint:
    only then is the scale factor [1.0], and the source itself is cropped. *)
Theorem resize_skipped_iff (image : PIL.image) (s : screens) :
  valid_source image -> valid_screens s ->
  let w := PIL.width image in
  let h := PIL.height image in
  let rw := Z.max (upper_width s) (lower_width s) in
  let rh := upper_height s + offset_px s + lower_height s in
  exists sc,
    compute_scaling w h s = Ok sc /\
    (Py.float_ne (scale_factor sc) Py.one = false <->
     rw <= w /\ rh <= h /\ (rw = w \/ rh = h)) /\
    (rw <= w -> rh <= h -> rw = w \/ rh = h -> rescale image sc = Ok image) /\
    (~ (rw <= w /\ rh <= h /\ (rw = w \/ rh = h)) ->
     rescale image sc = PIL.resize image (new_width sc, new_height sc)).
Proof.
  intros (Hw & Hh) Hs w h rw rh.
  destruct (compute_scaling_ok w h s Hw Hh Hs)
    as (sc & q1 & q2 & E1 & E2 & Esc & Erw & Erh & Escale & N1 & N2 & _).
  pose proof Hs as (Huw & Huh & Hlw & Hlh & Hoff).
  unfold max_dim in *.
  assert (B64 : 2 ^ 64 = 18446744073709551616) by reflexivity.
  assert (B53 : 2 ^ 53 = 9007199254740992) by reflexivity.
  assert (Hrw : 0 < rw < 2 ^ 64) by (unfold rw; lia).
  assert (Hrh : 0 < rh < 2 ^ 64) by (unfold rh; lia).
  fold rw in E1. fold rh in E2.
  assert (Nm : normal (-400) 400 (scale_factor sc)).
  { rewrite Escale. apply max_float_normal; assumption. }
  assert (Hiff : Py.float_ne (scale_factor sc) Py.one = false <->
                 rw <= w /\ rh <= h /\ (rw = w \/ rh = h)).
  { split.
    - intros Ene.
      destruct (Z_lt_le_dec w rw) as [Lw | Lw].
      { exfalso.
        destruct (int_truediv_gt_one rw w Hrw ltac:(lia) Lw ltac:(lia))
          as (q & Eq & Hq).
        assert (G : SFltb Py.one (scale_factor sc) = true).
        { rewrite Escale. apply (max_float_gt_one (-400) 400); try assumption.
          left. congruence. }
        rewrite (float_ne_gt_one (-400) 400 _ Nm G) in Ene. discriminate. }
      destruct (Z_lt_le_dec h rh) as [Lh | Lh].
      { exfalso.
        destruct (int_truediv_gt_one rh h Hrh ltac:(lia) Lh ltac:(lia))
          as (q & Eq & Hq).
        assert (G : SFltb Py.one (scale_factor sc) = true).
        { rewrite Escale. apply (max_float_gt_one (-400) 400); try assumption.
          right. congruence. }
        rewrite (float_ne_gt_one (-400) 400 _ Nm G) in Ene. discriminate. }
      split; [exact Lw |]. split; [exact Lh |].
      destruct (Z.eq_dec rw w) as [Ew | Nw]; [left; exact Ew |].
      destruct (Z.eq_dec rh h) as [Eh | Nh]; [right; exact Eh |].
      exfalso.
      destruct (int_truediv_lt_one rw w Hrw ltac:(lia) ltac:(lia) ltac:(lia))
        as (qa & Eqa & Hqa).
      destruct (int_truediv_lt_one rh h Hrh ltac:(lia) ltac:(lia) ltac:(lia))
        as (qb & Eqb & Hqb).
      assert (G : SFltb (scale_factor sc) Py.one = true).
      { rewrite Escale. apply max_float_lt_one; congruence. }
      rewrite (float_ne_lt_one (-400) 400 _ Nm G) in Ene. discriminate.
    - intros (Lw & Lh & Heq).
      destruct (int_truediv_le_one rw w Hrw ltac:(lia) Lw) as (qa & Eqa & Hqa).
      destruct (int_truediv_le_one rh h Hrh ltac:(lia) Lh) as (qb & Eqb & Hqb).
      rewrite Escale.
      apply (max_float_eq_one (-400) 400); try assumption; try congruence.
      destruct Heq as [Ew | Eh].
      + left. destruct (int_truediv_eq_one rw w Hrw ltac:(lia) Ew)
          as (q & Eq & Hq). congruence.
      + right. destruct (int_truediv_eq_one rh h Hrh ltac:(lia) Eh)
          as (q & Eq & Hq). congruence. }
  exists sc. split; [exact Esc |]. split; [exact Hiff |]. split.
  - intros Lw Lh Heq. unfold rescale.
    rewrite (proj2 Hiff) by auto. reflexivity.
  - intros Hnot. unfold rescale.
    destruct (Py.float_ne (scale_factor sc) Py.one) eqn:Ene; [reflexivity |].
    exfalso. apply Hnot, Hiff. reflexivity.
Qed.

End Tightness.

(** [int(w * scale) <= w] when [scale <= 1.0]. *)
Lemma scaled_length_le (w : Z) (scale : spec_float) :
  0 < w < 2 ^ 53 -> normal (-400) 400 scale ->
  SFleb scale Py.one = true ->
  exists p n,
    Py.int_mul_float w scale = Ok p /\ Py.int_of_float p = Ok n /\ n <= w.
Proof.
  intros Hw (ms & es & -> & Hms & Hes) G.
  assert (P52 : 0 < 2 ^ 52) by (apply Z.pow_pos_nonneg; lia).
  assert (P53 : 2 ^ 53 = 2 * 2 ^ 52) by reflexivity.
  apply (proj1 (SFleb_one_iff ms es ltac:(lia))) in G.
  destruct (int_mul_float_frac w ms es Hw Hms Hes) as (E & Hn & HQ).
  cbv zeta in E, Hn, HQ. rewrite E. clear E.
  pose proof (digits_le_53 w Hw) as Hd53.
  pose proof (scale_to_53 w Hw) as Hmw.
  set (d := Zdigits2 w) in *.
  set (mw := w * 2 ^ (53 - d)) in *.
  set (N := mw * ms) in *.
  set (n := Zdigits2 N - 53) in *.
  assert (Pn : 0 < 2 ^ n) by (apply Z.pow_pos_nonneg; lia).
  assert (Pd : 0 < 2 ^ (53 - d)) by (apply Z.pow_pos_nonneg; lia).
  pose proof (round_frac_bounds N (2 ^ n) Pn) as Hr.
  set (R := round_frac N (2 ^ n)) in *.
  set (e0 := d - 53 + es + n).
  assert (Hbr : N / 2 ^ n * 2 ^ n <= N < (N / 2 ^ n + 1) * 2 ^ n).
  { pose proof (Z.div_mod N (2 ^ n) ltac:(lia)).
    pose proof (Z.mod_pos_bound N (2 ^ n) Pn). nia. }
  (* the rounded mantissa, at exponent e0, does not exceed w *)
  assert (Key : e0 <= 0 /\ R <= w * 2 ^ (- e0)).
  { destruct G as [Les | [Ees Ems]].
    - assert (He0 : e0 <= 0) by (unfold e0; lia).
      split; [exact He0 |].
      assert (Ex : w * 2 ^ (- e0) = mw * 2 ^ (- es - n)).
      { unfold mw. rewrite <- Z.mul_assoc, <- Z.pow_add_r by lia.
        f_equal. f_equal. unfold e0. lia. }
      rewrite Ex.
      destruct Hn as [En | En]; rewrite En in *.
      + (* n = 52: Q < 2 mw *)
        assert (2 ^ 1 <= 2 ^ (- es - 52)) by (apply Z.pow_le_mono_r; lia).
        change (2 ^ 1) with 2 in *.
        assert (N / 2 ^ 52 < 2 * mw).
        { apply Z.div_lt_upper_bound; [lia |]. unfold N. nia. }
        nia.
      + assert (2 ^ 0 <= 2 ^ (- es - 53)) by (apply Z.pow_le_mono_r; lia).
        change (2 ^ 0) with 1 in *.
        assert (N / 2 ^ 53 < mw).
        { apply Z.div_lt_upper_bound; [lia |]. unfold N. nia. }
        nia.
    - (* scale = 1.0: the product is w itself *)
      assert (Ems' : ms = 2 ^ 52) by lia.
      assert (EN : N = mw * 2 ^ 52) by (unfold N; rewrite Ems'; reflexivity).
      assert (En : n = 52).
      { destruct Hn as [En | En]; [exact En |]. exfalso.
        rewrite En in HQ. rewrite EN in HQ.
        assert (mw * 2 ^ 52 / 2 ^ 53 < 2 ^ 52).
        { apply Z.div_lt_upper_bound; [lia |]. nia. }
        lia. }
      assert (ER : R = mw).
      { unfold R, round_frac, loc_of_rem.
        rewrite En, EN, Z.mod_mul, Z.div_mul by lia. reflexivity. }
      assert (He0 : e0 = d - 53) by (unfold e0; lia).
      split; [lia |]. rewrite ER, He0. unfold mw.
      replace (- (d - 53)) with (53 - d) by lia. lia. }
  destruct Key as [He0 HR].
  assert (Pe : 0 < 2 ^ (- e0)) by (apply Z.pow_pos_nonneg; lia).
  destruct (normal_float_cases R e0 ltac:(lia) ltac:(unfold e0; lia))
    as [[L E] | [L E]]; rewrite E.
  - exists (S754_finite false (Z.to_pos R) e0), (Z.shiftl R e0).
    split; [reflexivity |]. split; [apply int_of_float_finite; lia |].
    rewrite <- (Z.opp_involutive e0), Z.shiftl_opp_r, Z.shiftr_div_pow2 by lia.
    apply Z.div_le_upper_bound; [exact Pe |]. lia.
  - exists (S754_finite false (Z.to_pos (2 ^ 52)) (e0 + 1)),
           (Z.shiftl (2 ^ 52) (e0 + 1)).
    split; [reflexivity |]. split; [apply int_of_float_finite; lia |].
    destruct (Z.eq_dec e0 0) as [E0 | E0].
    + exfalso. rewrite E0 in HR. change (2 ^ (- 0)) with 1 in HR. lia.
    + rewrite <- (Z.opp_involutive (e0 + 1)), Z.shiftl_opp_r,
        Z.shiftr_div_pow2 by lia.
      assert (Pe' : 0 < 2 ^ (- (e0 + 1))) by (apply Z.pow_pos_nonneg; lia).
      apply Z.div_le_upper_bound; [exact Pe' |].
      assert (Ex : 2 ^ (- e0) = 2 * 2 ^ (- (e0 + 1))).
      { rewrite <- Z.pow_succ_r by lia. f_equal. lia. }
      rewrite Ex in HR. nia.
Qed.

Lemma reaches_self (w : Z) (scale : spec_float) :
  0 < w -> normal (-400) 400 scale -> SFltb Py.one scale = true ->
  reaches w w scale.
Proof.
  intros Hw (ms & es & -> & Hms & Hes) G.
  assert (P52 : 0 < 2 ^ 52) by (apply Z.pow_pos_nonneg; lia).
  apply (proj1 (SFltb_one ms es ltac:(lia))) in G.
  apply (proj2 (reaches_finite w w ms es ltac:(lia))).
  destruct (Z_lt_le_dec (- es) 0) as [Neg | Pos].
  - rewrite Z.pow_neg_r by lia. nia.
  - assert (2 ^ (- es) <= 2 ^ 52) by (apply Z.pow_le_mono_r; lia). nia.
Qed.

(** X13: a source that covers the footprint is never enlarged, and a
    source smaller than the footprint in either axis is never shrunk: the
    scaled width and height are at most the source's in the first case and
    at least the source's in the second. *)
Theorem scaling_direction (image : PIL.image) (s : screens) :
  valid_source image -> valid_screens s ->
  let w := PIL.width image in
  let h := PIL.height image in
  let rw := Z.max (upper_width s) (lower_width s) in
  let rh := upper_height s + offset_px s + lower_height s in
  exists sc,
    compute_scaling w h s = Ok sc /\
    (rw <= w -> rh <= h -> new_width sc <= w /\ new_height sc <= h) /\
    (w < rw \/ h < rh -> w <= new_width sc /\ h <= new_height sc).
Proof.
  intros (Hw & Hh) Hs w h rw rh.
  destruct (compute_scaling_ok w h s Hw Hh Hs)
    as (sc & q1 & q2 & E1 & E2 & Esc & Erw & Erh & Escale & N1 & N2 & _).
  pose proof Hs as (Huw & Huh & Hlw & Hlh & Hoff).
  unfold max_dim in *.
  assert (B64 : 2 ^ 64 = 18446744073709551616) by reflexivity.
  assert (B53 : 2 ^ 53 = 9007199254740992) by reflexivity.
  assert (B52 : 2 ^ 52 = 4503599627370496) by reflexivity.
  assert (Hrw : 0 < rw < 2 ^ 64) by (unfold rw; lia).
  assert (Hrh : 0 < rh < 2 ^ 64) by (unfold rh; lia).
  fold rw in E1. fold rh in E2.
  destruct (compute_scaling_inv w h s sc Esc)
    as (q1' & q2' & pw & ph & _ & _ & _ & Epw & Enw & Eph & Enh).
  assert (Nm : normal (-400) 400 (scale_factor sc)).
  { rewrite Escale. apply max_float_normal; assumption. }
  exists sc. split; [exact Esc |]. split.
  - intros Lw Lh.
    assert (G : SFleb (scale_factor sc) Py.one = true).
    { rewrite Escale. apply max_float_le_one.
      - destruct (int_truediv_le_one rw w Hrw ltac:(lia) Lw) as (q & Eq & Hq).
        congruence.
      - destruct (int_truediv_le_one rh h Hrh ltac:(lia) Lh) as (q & Eq & Hq).
        congruence. }
    split.
    + destruct (scaled_length_le w _ ltac:(lia) Nm G) as (p & n & Ep & En & Hn).
      congruence.
    + destruct (scaled_length_le h _ ltac:(lia) Nm G) as (p & n & Ep & En & Hn).
      congruence.
  - intros Hsmall.
    assert (G : SFltb Py.one (scale_factor sc) = true).
    { rewrite Escale. apply (max_float_gt_one (-400) 400); try assumption.
      destruct Hsmall as [L | L].
      - left. destruct (int_truediv_gt_one rw w Hrw ltac:(lia) L ltac:(lia))
          as (q & Eq & Hq). congruence.
      - right. destruct (int_truediv_gt_one rh h Hrh ltac:(lia) L ltac:(lia))
          as (q & Eq & Hq). congruence. }
    split.
    + destruct (scaled_length_reaches w w _ ltac:(lia) ltac:(lia) Nm
                  (reaches_self w _ ltac:(lia) Nm G)) as (p & n & Ep & En & Hn).
      congruence.
    + destruct (scaled_length_reaches h h _ ltac:(lia) ltac:(lia) Nm
                  (reaches_self h _ ltac:(lia) Nm G)) as (p & n & Ep & En & Hn).
      congruence.
Qed.

(** [int(w * scale) <= K] when [w * scale] exceeds [K] by a small fraction
    at most. *)
Lemma scaled_length_within (K w : Z) (scale : spec_float) :
  0 < w < 2 ^ 53 -> 0 < K < 2 ^ 31 ->
  normal (-400) 400 scale -> stays_within K w scale ->
  exists p n,
    Py.int_mul_float w scale = Ok p /\ Py.int_of_float p = Ok n /\ n <= K.
Proof.
  intros Hw HK (ms & es & -> & Hms & Hes) G.
  assert (P52 : 0 < 2 ^ 52) by (apply Z.pow_pos_nonneg; lia).
  assert (P53 : 2 ^ 53 = 2 * 2 ^ 52) by reflexivity.
  assert (P51 : 2 ^ 52 = 2 * 2 ^ 51) by reflexivity.
  assert (P31 : 2 ^ 31 = 2147483648) by reflexivity.
  apply (proj1 (stays_within_finite K w ms es ltac:(lia))) in G.
  destruct G as [G1 G2].
  destruct (int_mul_float_frac w ms es Hw Hms Hes) as (E & Hn & HQ).
  cbv zeta in E, Hn, HQ. rewrite E. clear E.
  pose proof (digits_le_53 w Hw) as Hd53.
  pose proof (scale_to_53 w Hw) as Hmw.
  set (d := Zdigits2 w) in *.
  set (mw := w * 2 ^ (53 - d)) in *.
  set (N := mw * ms) in *.
  set (n := Zdigits2 N - 53) in *.
  assert (Pn : 0 < 2 ^ n) by (apply Z.pow_pos_nonneg; lia).
  assert (Pd : 0 < 2 ^ (53 - d)) by (apply Z.pow_pos_nonneg; lia).
  pose proof (round_frac_bounds N (2 ^ n) Pn) as Hr.
  set (R := round_frac N (2 ^ n)) in *.
  set (e0 := d - 53 + es + n).
  assert (Hbr : N / 2 ^ n * 2 ^ n <= N < (N / 2 ^ n + 1) * 2 ^ n).
  { pose proof (Z.div_mod N (2 ^ n) ltac:(lia)).
    pose proof (Z.mod_pos_bound N (2 ^ n) Pn). nia. }
  (* the exponent of the scale is negative *)
  assert (Hes0 : 0 <= - es).
  { destruct (Z_lt_le_dec (- es) 0) as [Neg | Pos]; [| exact Pos].
    rewrite (Z.pow_neg_r 2 (- es)) in G2 by lia. nia. }
  set (t := - es + (53 - d)).
  assert (ET : 2 ^ t = 2 ^ (- es) * 2 ^ (53 - d)).
  { unfold t. rewrite Z.pow_add_r by lia. reflexivity. }
  assert (PT : 0 < 2 ^ t) by (apply Z.pow_pos_nonneg; unfold t; lia).
  assert (HNT : N <= K * 2 ^ t + mw).
  { unfold N, mw. rewrite ET.
    assert (w * ms * 2 ^ (53 - d) <= (K * 2 ^ (- es) + w) * 2 ^ (53 - d))
      by (apply Z.mul_le_mono_nonneg_r; lia).
    lia. }
  assert (HT : 2 ^ 72 < 2 ^ t).
  { assert (mw * 2 ^ 51 <= K * 2 ^ t).
    { unfold mw. rewrite ET.
      assert (w * 2 ^ 51 * 2 ^ (53 - d) <= K * 2 ^ (- es) * 2 ^ (53 - d))
        by (apply Z.mul_le_mono_nonneg_r; lia).
      lia. }
    assert (E103 : 2 ^ 52 * 2 ^ 51 = 2 ^ 31 * 2 ^ 72) by reflexivity.
    assert (A1 : 2 ^ 52 * 2 ^ 51 <= mw * 2 ^ 51)
      by (apply Z.mul_le_mono_nonneg_r; lia).
    assert (A2 : K * 2 ^ t < 2 ^ 31 * 2 ^ t)
      by (apply Z.mul_lt_mono_pos_r; lia).
    apply (Z.mul_lt_mono_pos_l (2 ^ 31)); lia. }
  apply Z.pow_lt_mono_r_iff in HT; [| lia | unfold t; lia].
  assert (He0 : e0 <= -2) by (unfold e0, t in *; lia).
  assert (Ee0 : 2 ^ t = 2 ^ (- e0) * 2 ^ n).
  { rewrite <- Z.pow_add_r by lia. f_equal. unfold e0, t. lia. }
  assert (P4 : 2 ^ 2 <= 2 ^ (- e0)) by (apply Z.pow_le_mono_r; lia).
  change (2 ^ 2) with 4 in P4.
  assert (P2n : 2 ^ 52 <= 2 ^ n) by (apply Z.pow_le_mono_r; lia).
  (* the rounded mantissa stays below (K + 1) 2^-e0 *)
  assert (Key : R < (K + 1) * 2 ^ (- e0)).
  { apply (Z.mul_lt_mono_pos_r (2 ^ n)); [exact Pn |].
    rewrite Ee0 in HNT.
    assert (A1 : R * 2 ^ n <= N + 2 ^ n).
    { destruct Hr as [_ Hr2]. destruct Hbr as [Hb1 _].
      assert (R * 2 ^ n <= (N / 2 ^ n + 1) * 2 ^ n)
        by (apply Z.mul_le_mono_nonneg_r; lia).
      rewrite Z.mul_add_distr_r in *. lia. }
    assert (A2 : mw + 2 ^ n < 2 ^ (- e0) * 2 ^ n).
    { assert (4 * 2 ^ n <= 2 ^ (- e0) * 2 ^ n)
        by (apply Z.mul_le_mono_nonneg_r; lia).
      lia. }
    replace ((K + 1) * 2 ^ (- e0) * 2 ^ n)
      with (K * (2 ^ (- e0) * 2 ^ n) + 2 ^ (- e0) * 2 ^ n) by ring.
    lia. }
  assert (Pe : 0 < 2 ^ (- e0)) by (apply Z.pow_pos_nonneg; lia).
  destruct (normal_float_cases R e0 ltac:(lia) ltac:(unfold e0; lia))
    as [[L E] | [L E]]; rewrite E.
  - exists (S754_finite false (Z.to_pos R) e0), (Z.shiftl R e0).
    split; [reflexivity |]. split; [apply int_of_float_finite; lia |].
    rewrite <- (Z.opp_involutive e0), Z.shiftl_opp_r, Z.shiftr_div_pow2 by lia.
    assert (R / 2 ^ (- e0) < K + 1); [| lia].
    apply Z.div_lt_upper_bound; [exact Pe |]. lia.
  - exists (S754_finite false (Z.to_pos (2 ^ 52)) (e0 + 1)),
           (Z.shiftl (2 ^ 52) (e0 + 1)).
    split; [reflexivity |]. split; [apply int_of_float_finite; lia |].
    rewrite <- (Z.opp_involutive (e0 + 1)), Z.shiftl_opp_r,
      Z.shiftr_div_pow2 by lia.
    assert (Pe' : 0 < 2 ^ (- (e0 + 1))) by (apply Z.pow_pos_nonneg; lia).
    assert (Ex : 2 ^ (- e0) = 2 * 2 ^ (- (e0 + 1))).
    { rewrite <- Z.pow_succ_r by lia. f_equal. lia. }
    assert (2 ^ 52 / 2 ^ (- (e0 + 1)) < K + 1); [| lia].
    apply Z.div_lt_upper_bound; [exact Pe' |].
    rewrite Ex, L in Key. lia.
Qed.

Lemma compute_scaling_factors (w h : Z) (s : screens) (sc : scaling) :
  compute_scaling w h s = Ok sc ->
  exists q1 q2,
    Py.int_truediv (Z.max (upper_width s) (lower_width s)) w = Ok q1 /\
    Py.int_truediv (upper_height s + offset_px s + lower_height s) h = Ok q2 /\
    scale_factor_width sc = q1 /\ scale_factor_height sc = q2.
Proof.
  unfold compute_scaling.
  destruct (Py.int_truediv _ w) as [q1 | e]; [| discriminate]. cbn [bind].
  destruct (Py.int_truediv _ h) as [q2 | e]; [| discriminate]. cbn [bind].
  destruct (Py.int_mul_float w _) as [fw | e]; [| discriminate]. cbn [bind].
  destruct (Py.int_of_float fw) as [nw | e]; [| discriminate]. cbn [bind].
  destruct (Py.int_mul_float h _) as [fh | e]; [| discriminate]. cbn [bind].
  destruct (Py.int_of_float fh) as [nh | e]; [| discriminate]. cbn [bind].
  intros E. injection E as <-.
  exists q1, q2. repeat split.
Qed.

Lemma max_float_cases (x y : spec_float) :
  Py.max_float x y = x \/ Py.max_float x y = y.
Proof. unfold Py.max_float. destruct (SFltb x y); auto. Qed.

(** X14: the cover is tight. The scale factor is one of the two
    quotients; in the axis whose quotient it is, the scaled size is the
    required size or one pixel less; the other axis is at most one pixel
    short. (Sizes within what Pillow can hold, the footprint height
    included.) *)
Theorem cover_is_tight (image : PIL.image) (s : screens) :
  valid_source image -> valid_screens s ->
  let w := PIL.width image in
  let h := PIL.height image in
  let rw := Z.max (upper_width s) (lower_width s) in
  let rh := upper_height s + offset_px s + lower_height s in
  rh <= max_dim ->
  exists sc,
    compute_scaling w h s = Ok sc /\
    (scale_factor sc = scale_factor_width sc \/
     scale_factor sc = scale_factor_height sc) /\
    (scale_factor sc = scale_factor_width sc ->
     rw - 1 <= new_width sc <= rw /\ rh - 1 <= new_height sc) /\
    (scale_factor sc = scale_factor_height sc ->
     rh - 1 <= new_height sc <= rh /\ rw - 1 <= new_width sc).
Proof.
  intros (Hw & Hh) Hs w h rw rh Hrhmax.
  destruct (compute_scaling_ok w h s Hw Hh Hs)
    as (sc & q1 & q2 & E1 & E2 & Esc & Erw & Erh & Escale & N1 & N2 & _).
  pose proof Hs as (Huw & Huh & Hlw & Hlh & Hoff).
  unfold max_dim in *.
  assert (B64 : 2 ^ 64 = 18446744073709551616) by reflexivity.
  assert (B53 : 2 ^ 53 = 9007199254740992) by reflexivity.
  assert (B52 : 2 ^ 52 = 4503599627370496) by reflexivity.
  assert (B31 : 2 ^ 31 = 2147483648) by reflexivity.
  assert (Hrw : 0 < rw < 2 ^ 64) by (unfold rw; lia).
  assert (Hrh : 0 < rh < 2 ^ 64) by (unfold rh; lia).
  fold rw in E1. fold rh in E2.
  destruct (compute_scaling_inv w h s sc Esc)
    as (q1' & q2' & pw & ph & E1' & E2' & _ & Epw & Enw & Eph & Enh).
  fold rw in E1'. fold rh in E2'.
  destruct (compute_scaling_factors w h s sc Esc) as (qa & qb & Ea & Eb & Esw & Esh).
  fold rw in Ea. fold rh in Eb.
  assert (Eqa : qa = q1) by congruence. assert (Eqb : qb = q2) by congruence.
  rewrite Eqa in Esw. rewrite Eqb in Esh. clear Ea Eb Eqa Eqb.
  assert (Nm : normal (-400) 400 (scale_factor sc)).
  { rewrite Escale. apply max_float_normal; assumption. }
  assert (R1 : reaches (rw - 1) w (scale_factor sc)).
  { rewrite Escale. apply (max_float_reaches _ _ (-400) 400); try assumption;
      try lia.
    left. destruct (int_truediv_reaches rw w Hrw ltac:(lia) ltac:(unfold rw; lia))
      as (q & Eq & Hq). congruence. }
  assert (R2 : reaches (rh - 1) h (scale_factor sc)).
  { rewrite Escale. apply (max_float_reaches _ _ (-400) 400); try assumption;
      try lia.
    right. destruct (int_truediv_reaches rh h Hrh ltac:(lia) ltac:(lia))
      as (q & Eq & Hq). congruence. }
  assert (Gw : rw - 1 <= new_width sc).
  { destruct (scaled_length_reaches (rw - 1) w _ ltac:(lia) ltac:(unfold rw; lia)
                Nm R1) as (p & n & Ep & En & Hn).
    congruence. }
  assert (Gh : rh - 1 <= new_height sc).
  { destruct (scaled_length_reaches (rh - 1) h _ ltac:(lia) ltac:(lia)
                Nm R2) as (p & n & Ep & En & Hn).
    congruence. }
  exists sc. split; [exact Esc |]. split.
  { rewrite Esw, Esh, Escale. apply max_float_cases. }
  split.
  - intros Epick. rewrite Esw in Epick.
    split; [| exact Gh]. split; [exact Gw |].
    destruct (int_truediv_stays rw w Hrw ltac:(lia) ltac:(unfold rw; lia))
      as (q & Eq & Hq).
    assert (S1 : stays_within rw w (scale_factor sc)) by congruence.
    destruct (scaled_length_within rw w _ ltac:(lia) ltac:(unfold rw; lia)
                Nm S1) as (p & n & Ep & En & Hn).
    congruence.
  - intros Epick. rewrite Esh in Epick.
    split; [| exact Gw]. split; [exact Gh |].
    destruct (int_truediv_stays rh h Hrh ltac:(lia) ltac:(lia))
      as (q & Eq & Hq).
    assert (S2 : stays_within rh h (scale_factor sc)) by congruence.
    destruct (scaled_length_within rh h _ ltac:(lia) ltac:(lia)
                Nm S2) as (p & n & Ep & En & Hn).
    congruence.
Qed.

Example path_parent_examples :
  path_parent "/opt/wallpaper" = "/opt"%string /\
  path_parent "/opt" = "/"%string /\
  path_parent "/" = "/"%string /\
  path_parent "scripts" = "."%string /\
  path_parent "a/b" = "a"%string.
Proof. repeat split. Qed.

(** X15: [load_local_image] looks for the image in the directory above the
    script, then beside the script, then at the path as given, and reads
    the first of the three that exists: a file above the script shadows the
    others. It returns [None] when none exists or when the first that
    exists is a directory, and whatever it returns is the content of one of
    the three. *)
Theorem load_local_image_order (is_dir : string -> bool) (image_path : string)
    (w : world) :
  let c1 := path_join (path_parent (script_dir w)) image_path in
  let c2 := path_join (script_dir w) image_path in
  let c3 := image_path in
  let r := load_local_image is_dir image_path w in
  let content p := if is_dir p then None else files w p in
  (local_exists is_dir c1 w = true -> r = content c1) /\
  (local_exists is_dir c1 w = false -> local_exists is_dir c2 w = true ->
   r = content c2) /\
  (local_exists is_dir c1 w = false -> local_exists is_dir c2 w = false ->
   r = content c3) /\
  (forall data, r = Some data ->
     files w c1 = Some data \/ files w c2 = Some data \/ files w c3 = Some data).
Proof.
  cbv zeta. unfold load_local_image, read_file.
  set (c1 := path_join (path_parent (script_dir w)) image_path).
  set (c2 := path_join (script_dir w) image_path).
  assert (Hread : forall p,
            (if negb (local_exists is_dir p w) then None
             else match (if is_dir p then Raise OSError
                         else match files w p with
                              | Some content => Ok content
                              | None => Raise OSError
                              end) with
                  | Ok data => Some data
                  | Raise _ => None
                  end) = (if is_dir p then None else files w p)).
  { intros p. unfold local_exists, path_exists.
    destruct (is_dir p); [destruct (files w p); reflexivity |].
    destruct (files w p); reflexivity. }
  destruct (local_exists is_dir c1 w) eqn:X1; cbn [negb].
  - rewrite X1. cbn [negb]. rewrite <- (Hread c1), X1. cbn [negb].
    repeat split; try discriminate.
    intros data E. left.
    destruct (is_dir c1); [discriminate |].
    destruct (files w c1); [injection E as <-; reflexivity | discriminate].
  - destruct (local_exists is_dir c2 w) eqn:X2; cbn [negb].
    + rewrite <- (Hread c2), X2. cbn [negb].
      repeat split; try discriminate.
      intros data E. right. left.
      destruct (is_dir c2); [discriminate |].
      destruct (files w c2); [injection E as <-; reflexivity | discriminate].
    + rewrite (Hread image_path).
      repeat split; try discriminate.
      intros data E. right. right.
      destruct (is_dir image_path); [discriminate | exact E].
Qed.

Lemma load_local_image_order_witness :
  load_local_image (fun _ => false) "photo.jpg" two_photos_world =
  Some [Byte.x01].
Proof.
  apply (proj1 (load_local_image_order (fun _ => false) "photo.jpg"
                  two_photos_world)).
  reflexivity.
Defined.

Lemma to_rgb_is_rgb_witness :
  @to_rgb example_pillow (blank 4 4) = blank 4 4.
Proof.
  apply (proj1 (proj2 (proj2 (@to_rgb_is_rgb example_pillow (blank 4 4))))).
  reflexivity.
Defined.

Lemma scaled_at_most_one_short_witness :
  exists sc,
    compute_scaling 2148 2000 default_screens = Ok sc /\
    1919 <= new_width sc /\ 1694 <= new_height sc.
Proof.
  assert (Hsrc : valid_source (blank 2148 2000)) by (vm_compute; intuition discriminate).
  assert (Hscr : valid_screens default_screens) by (vm_compute; intuition discriminate).
  destruct (@scaled_at_most_one_short example_pillow (blank 2148 2000)
              default_screens Hsrc Hscr) as (sc & Esc & Gw & Gh & _).
  exists sc. split; [exact Esc |]. split; [exact Gw | exact Gh].
Defined.

Lemma resize_skipped_iff_witness :
  exists sc,
    compute_scaling 1920 2000 default_screens = Ok sc /\
    @rescale example_pillow (blank 1920 2000) sc = Ok (blank 1920 2000).
Proof.
  assert (Hsrc : valid_source (blank 1920 2000)) by (vm_compute; intuition discriminate).
  assert (Hscr : valid_screens default_screens) by (vm_compute; intuition discriminate).
  destruct (@resize_skipped_iff example_pillow (blank 1920 2000)
              default_screens Hsrc Hscr) as (sc & Esc & _ & Hskip & _).
  exists sc. split; [exact Esc |].
  apply Hskip; [cbn; lia | cbn; lia | left; reflexivity].
Defined.

Lemma scaling_direction_witness :
  exists sc,
    compute_scaling 3840 2160 default_screens = Ok sc /\
    new_width sc <= 3840 /\ new_height sc <= 2160.
Proof.
  assert (Hsrc : valid_source (blank 3840 2160)) by (vm_compute; intuition discriminate).
  assert (Hscr : valid_screens default_screens) by (vm_compute; intuition discriminate).
  destruct (scaling_direction (blank 3840 2160) default_screens Hsrc Hscr)
    as (sc & Esc & Hdown & _).
  exists sc. split; [exact Esc |].
  apply Hdown; cbn; lia.
Defined.

Lemma cover_is_tight_witness :
  exists sc,
    compute_scaling 3840 2160 default_screens = Ok sc /\
    (scale_factor sc = scale_factor_width sc \/
     scale_factor sc = scale_factor_height sc).
Proof.
  assert (Hsrc : valid_source (blank 3840 2160)) by (vm_compute; intuition discriminate).
  assert (Hscr : valid_screens default_screens) by (vm_compute; intuition discriminate).
  destruct (cover_is_tight (blank 3840 2160) default_screens Hsrc Hscr
              ltac:(vm_compute; discriminate))
    as (sc & Esc & Hpick & _).
  exists sc. split; [exact Esc | exact Hpick].
Defined.

Section Reddit.
Context `{PIL.Pillow}.
Variable net : network.
Variables min_width min_height : Z.

Lemma try_images_spec (image_urls : list string) (n : nat) :
  let r := try_images net min_width min_height image_urls n in
  (n <= snd r <= n + List.length image_urls)%nat /\
  (forall content, fst r = Some content ->
     exists image_url k img,
       In image_url image_urls /\ fetch net k image_url = Ok content /\
       PIL.open content = Ok img /\
       min_width <= PIL.width img /\ min_height <= PIL.height img).
Proof.
  cbv zeta. revert n.
  induction image_urls as [| image_url rest IH]; intros n; cbn [try_images].
  - cbn [fst snd List.length]. split; [lia | discriminate].
  - destruct (fetch net n image_url) as [content | e] eqn:Ef; cbn [bind].
    + destruct (PIL.open content) as [img | e] eqn:Eo; cbn [bind].
      * destruct ((min_width <=? PIL.width img) && (min_height <=? PIL.height img))
          eqn:Esz.
        -- cbn [fst snd List.length]. split; [lia |].
           intros c E. injection E as <-.
           apply andb_prop in Esz. destruct Esz as [Ew Eh].
           apply Z.leb_le in Ew, Eh.
           exists image_url, n, img. repeat split; auto. left. reflexivity.
        -- destruct (IH (S n)) as [Hn Hc]. cbn [List.length]. split; [lia |].
           intros c E. destruct (Hc c E) as (u & k & i & Hin & Hrest).
           exists u, k, i. split; [right; exact Hin | exact Hrest].
      * destruct (IH (S n)) as [Hn Hc]. cbn [List.length]. split; [lia |].
        intros c E. destruct (Hc c E) as (u & k & i & Hin & Hrest).
        exists u, k, i. split; [right; exact Hin | exact Hrest].
    + destruct (IH (S n)) as [Hn Hc]. cbn [List.length]. split; [lia |].
      intros c E. destruct (Hc c E) as (u & k & i & Hin & Hrest).
      exists u, k, i. split; [right; exact Hin | exact Hrest].
Qed.

Lemma try_subreddits_spec (subs : list string) (n : nat) :
  let r := try_subreddits net min_width min_height subs n in
  (n <= snd r <= n + 21 * List.length subs)%nat /\
  (forall content, fst r = Some content ->
     exists img,
       PIL.open content = Ok img /\
       min_width <= PIL.width img /\ min_height <= PIL.height img) /\
  ((forall k subreddit, In subreddit subs ->
      listing net k subreddit = Ok [] \/
      exists e, listing net k subreddit = Raise e) ->
   r = (None, (n + List.length subs)%nat)).
Proof.
  cbv zeta. revert n.
  induction subs as [| subreddit rest IH]; intros n; cbn [try_subreddits].
  - cbn [fst snd List.length]. split; [lia |]. split; [discriminate |].
    intros _. f_equal. lia.
  - destruct (listing net n subreddit) as [[| u urls] | e] eqn:El.
    + destruct (IH (S n)) as (Hn & Hc & Hnone). cbn [List.length].
      split; [lia |]. split; [exact Hc |].
      intros Hall. rewrite Hnone by (intros k s' Hs'; apply Hall; right; exact Hs').
      f_equal. lia.
    + pose proof (try_images_spec (firstn 20 (shuffle net (S n) (u :: urls)))
                    (S n)) as [Hn1 Hc1].
      cbv zeta in Hn1, Hc1.
      pose proof (firstn_le_length 20 (shuffle net (S n) (u :: urls))) as Hlen.
      destruct (try_images net min_width min_height _ (S n)) as [[c |] n'].
      * cbn [fst snd] in *. cbn [List.length]. split; [lia |]. split.
        -- intros c' E. injection E as <-.
           destruct (Hc1 c eq_refl) as (url & k & img & _ & _ & Eo & Hw & Hh).
           exists img. auto.
        -- intros Hall. destruct (Hall n subreddit (or_introl eq_refl))
             as [E | [e E]]; rewrite El in E; discriminate.
      * cbn [fst snd] in *.
        destruct (IH n') as (Hn & Hc & Hnone). cbn [List.length].
        split; [lia |]. split; [exact Hc |].
        intros Hall. destruct (Hall n subreddit (or_introl eq_refl))
          as [E | [e' E]]; rewrite El in E; discriminate.
    + destruct (IH (S n)) as (Hn & Hc & Hnone). cbn [List.length].
      split; [lia |]. split; [exact Hc |].
      intros Hall. rewrite Hnone by (intros k s' Hs'; apply Hall; right; exact Hs').
      f_equal. lia.
Qed.

(** X16: every image [download_wallpaper_from_reddit] returns has been
    decoded and is at least [min_width] wide and [min_height] high: an
    image that is too small, or cannot be fetched or decoded, is never
    returned. *)
Theorem reddit_image_is_large_enough (theme : string) (n : nat)
    (content : list byte) :
  fst (download_wallpaper_from_reddit net theme min_width min_height n)
    = Some content ->
  exists img,
    PIL.open content = Ok img /\
    min_width <= PIL.width img /\ min_height <= PIL.height img.
Proof.
  unfold download_wallpaper_from_reddit. intros E.
  destruct (try_subreddits_spec (shuffle net n subreddits) n) as (_ & Hc & _).
  exact (Hc content E).
Qed.

(** X17: [download_wallpaper_from_reddit] makes a bounded number of
    requests: for each of the nine subreddits one request for the listing
    and at most twenty for images, 189 at most. When no subreddit yields an
    image URL it returns [None] after exactly nine requests. ([random.shuffle]
    keeps the length and the elements of the list.) *)
Theorem reddit_requests_bounded (theme : string) (n : nat) :
  List.length (shuffle net n subreddits) = List.length subreddits ->
  let r := download_wallpaper_from_reddit net theme min_width min_height n in
  (n <= snd r <= n + 189)%nat /\
  ((forall k subreddit,
      listing net k subreddit = Ok [] \/
      exists e, listing net k subreddit = Raise e) ->
   r = (None, (n + 9)%nat)).
Proof.
  intros Hlen. cbv zeta. unfold download_wallpaper_from_reddit.
  destruct (try_subreddits_spec (shuffle net n subreddits) n) as (Hn & _ & Hnone).
  cbv zeta in Hn, Hnone. rewrite Hlen in Hn, Hnone.
  change (List.length subreddits) with 9%nat in Hn, Hnone.
  split; [lia |].
  intros Hall. apply Hnone. intros k s' _. apply Hall.
Qed.

(** X18: with minimum sizes that are at least the footprint, an image from
    Reddit is never enlarged by [process_image]: it is decoded, its scale
    factor is at most [1.0] and the scaled size does not exceed the
    source's. (The decoded size is one Pillow can hold.) *)
Theorem reddit_image_is_not_enlarged (theme : string) (n : nat)
    (content : list byte) (s : screens) :
  (forall img, PIL.open content = Ok img ->
     PIL.width img <= max_dim /\ PIL.height img <= max_dim) ->
  valid_screens s ->
  Z.max (upper_width s) (lower_width s) <= min_width ->
  upper_height s + offset_px s + lower_height s <= min_height ->
  fst (download_wallpaper_from_reddit net theme min_width min_height n)
    = Some content ->
  exists img sc,
    PIL.open content = Ok img /\
    compute_scaling (PIL.width (to_rgb img)) (PIL.height (to_rgb img)) s
      = Ok sc /\
    SFleb (scale_factor sc) Py.one = true /\
    new_width sc <= PIL.width img /\ new_height sc <= PIL.height img.
Proof.
  intros Hvalid Hs Hrw Hrh E.
  unfold download_wallpaper_from_reddit in E.
  destruct (try_subreddits_spec (shuffle net n subreddits) n) as (_ & Hc & _).
  destruct (Hc content E) as (img & Eo & Hw & Hh).
  pose proof (Hvalid img Eo) as [Vw' Vh'].
  pose proof Hs as (Huw0 & Huh0 & Hlw0 & Hlh0 & Hoff0).
  assert (Vw : 0 < PIL.width img <= max_dim) by lia.
  assert (Vh : 0 < PIL.height img <= max_dim) by lia.
  clear Huw0 Huh0 Hlw0 Hlh0 Hoff0.
  exists img. rewrite to_rgb_width, to_rgb_height.
  set (w := PIL.width img) in *. set (h := PIL.height img) in *.
  set (rw := Z.max (upper_width s) (lower_width s)) in *.
  set (rh := upper_height s + offset_px s + lower_height s) in *.
  destruct (compute_scaling_ok w h s Vw Vh Hs)
    as (sc & q1 & q2 & E1 & E2 & Esc & Erw & Erh & Escale & N1 & N2 & _).
  pose proof Hs as (Huw & Huh & Hlw & Hlh & Hoff).
  unfold max_dim in *.
  assert (B64 : 2 ^ 64 = 18446744073709551616) by reflexivity.
  assert (B53 : 2 ^ 53 = 9007199254740992) by reflexivity.
  assert (Hrw' : 0 < rw < 2 ^ 64) by (unfold rw; lia).
  assert (Hrh' : 0 < rh < 2 ^ 64) by (unfold rh; lia).
  fold rw in E1. fold rh in E2.
  destruct (compute_scaling_inv w h s sc Esc)
    as (q1' & q2' & pw & ph & _ & _ & _ & Epw & Enw & Eph & Enh).
  assert (Nm : normal (-400) 400 (scale_factor sc)).
  { rewrite Escale. apply max_float_normal; assumption. }
  assert (G : SFleb (scale_factor sc) Py.one = true).
  { rewrite Escale. apply max_float_le_one.
    - destruct (int_truediv_le_one rw w Hrw' ltac:(lia) ltac:(lia))
        as (q & Eq & Hq). congruence.
    - destruct (int_truediv_le_one rh h Hrh' ltac:(lia) ltac:(lia))
        as (q & Eq & Hq). congruence. }
  exists sc. split; [exact Eo |]. split; [exact Esc |].
  split; [exact G |]. split.
  - destruct (scaled_length_le w _ ltac:(lia) Nm G) as (p & k & Ep & En & Hn).
    congruence.
  - destruct (scaled_length_le h _ ltac:(lia) Nm G) as (p & k & Ep & En & Hn).
    congruence.
Qed.

End Reddit.

Lemma reddit_image_is_large_enough_witness :
  exists img,
    @PIL.open example_pillow bytes_3840x2160 = Ok img /\
    1920 <= PIL.width img /\ 1695 <= PIL.height img.
Proof.
  apply (@reddit_image_is_large_enough example_pillow example_network
           1920 1695 "nature" 0 bytes_3840x2160).
  vm_compute. reflexivity.
Defined.

Lemma reddit_requests_bounded_witness :
  (0 <= snd (@download_wallpaper_from_reddit example_pillow example_network
               "nature" 1920 1695 0) <= 0 + 189)%nat.
Proof.
  apply (proj1 (@reddit_requests_bounded example_pillow example_network
                  1920 1695 "nature" 0 eq_refl)).
Defined.

Lemma reddit_image_is_not_enlarged_witness :
  exists img sc,
    @PIL.open example_pillow bytes_3840x2160 = Ok img /\
    compute_scaling (PIL.width (@to_rgb example_pillow img))
      (PIL.height (@to_rgb example_pillow img)) default_screens = Ok sc /\
    SFleb (scale_factor sc) Py.one = true /\
    new_width sc <= PIL.width img /\ new_height sc <= PIL.height img.
Proof.
  apply (@reddit_image_is_not_enlarged example_pillow example_network
           1920 1695 "nature" 0 bytes_3840x2160 default_screens).
  - intros img E. vm_compute in E. injection E as <-.
    vm_compute. split; discriminate.
  - vm_compute. intuition discriminate.
  - cbn. lia.
  - cbn. lia.
  - vm_compute. reflexivity.
Defined.
